(** * Agent-Zero cognitive tensors and the OpenCog/GGML bridge

    A shallow embedding of [src/agent-zero/cognitive-tensors.c] and
    [src/agent-zero/opencog-ggml-bridge.c].

    Conventions of the embedding.
    - A C [float] is an IEEE-754 binary32 value, a C [double] a binary64
      value; both are [spec_float] with the operations of the Standard
      Library's [SpecFloat] at the matching precision (round to nearest,
      ties to even).
    - [int] and [size_t] quantities are [Z]. The product of two [int]s is
      reduced to the range of [int] ([to_int]), as the 32-bit multiply of
      the compiled code does; a conversion to [size_t] is reduced modulo
      2^64 ([to_size_t]). The statements about tensors bound the product
      [ne0 * ne1] by [INT_MAX] (see [tensor_wf]).
    - A pointer that may be [NULL] is an [option]; a buffer is a [list];
      a read or a write outside a buffer, or through a null pointer, is
      undefined behaviour and is the outcome [Fault], as is an aligned
      AVX load from an address that is not a multiple of 32.
    - [sinf] of the C library is a parameter of the functions that call it. *)

From Stdlib Require Import ZArith Bool Lia String Ascii.
From Stdlib Require Import SpecFloat.
From Stdlib Require Import Reals Lra.
From Stdlib Require DecimalString.
From stdpp Require Import base list.

Local Open Scope Z_scope.

(** ** Binary32 and binary64 arithmetic *)

Definition float := spec_float.
Definition double := spec_float.

Module F32.
Definition prec : Z := 24.
Definition emax : Z := 128.

Definition valid (x : float) : bool := valid_binary prec emax x.

Definition add : float -> float -> float := SFadd prec emax.
Definition mul : float -> float -> float := SFmul prec emax.
Definition sub : float -> float -> float := SFsub prec emax.
Definition div : float -> float -> float := SFdiv prec emax.
Definition abs : float -> float := SFabs.

(** [x < y] and [x <= y]; both are [false] when an operand is NaN. *)
Definition ltb : float -> float -> bool := SFltb.
Definition leb : float -> float -> bool := SFleb.
(** The C comparison [x > y]. *)
Definition gtb (x y : float) : bool := SFltb y x.

(** Conversion of an [int] to [float]. *)
Definition of_int (z : Z) : float := binary_normalize prec emax z 0 false.

(** The decimal literal [p/q] for small integers [p] and [q]: the
    nearest binary32 value of the quotient. *)
Definition lit (p q : Z) : float := div (of_int p) (of_int q).

Definition zero : float := S754_zero false.
Definition one : float := Eval vm_compute in of_int 1.
Definition half : float := Eval vm_compute in lit 1 2.       (* 0.5f  *)
Definition c0_1 : float := Eval vm_compute in lit 1 10.      (* 0.1f  *)
Definition c0_2 : float := Eval vm_compute in lit 2 10.      (* 0.2f  *)
Definition c0_01 : float := Eval vm_compute in lit 1 100.    (* 0.01f *)
(** [(float)d] for a [double] [d]. *)
Definition of_double (d : double) : float :=
  match d with
  | S754_finite s m e => binary_round prec emax s m e
  | _ => d
  end.

Definition is_nan (x : float) : bool :=
  match x with S754_nan => true | _ => false end.
End F32.

Module F64.
Definition prec : Z := 53.
Definition emax : Z := 1024.

Definition valid (x : double) : bool := valid_binary prec emax x.
Definition div : double -> double -> double := SFdiv prec emax.
Definition of_int (z : Z) : double := binary_normalize prec emax z 0 false.
Definition lit (p q : Z) : double := div (of_int p) (of_int q).

(** [(double)x] for a [float] [x]; the conversion is exact. *)
Definition of_float (x : float) : double :=
  match x with
  | S754_finite s m e => binary_round prec emax s m e
  | _ => x
  end.

Definition c0_8 : double := Eval vm_compute in lit 8 10.     (* 0.8 *)
End F64.

(** Two floats denote the same value: they are identical, or both are a
    zero (the sign of a zero is not part of its value). *)
Definition is_zero (x : float) : bool :=
  match x with S754_zero _ => true | _ => false end.

Definition same_value (x y : float) : Prop :=
  x = y \/ (is_zero x = true /\ is_zero y = true).

(** ** Outcomes, buffers and loops *)

(** The outcome of running a piece of C code: a result, or undefined
    behaviour (an access outside a buffer or through a null or dangling
    pointer). *)
Inductive outcome (A : Type) : Type :=
| Ret (a : A)
| Fault.
Arguments Ret {A} a.
Arguments Fault {A}.

Definition bind {A B : Type} (m : outcome A) (k : A -> outcome B) : outcome B :=
  match m with
  | Ret a => k a
  | Fault => Fault
  end.

Notation "x <- m ;; k" := (bind m (fun x => k))
  (at level 100, m at next level, right associativity).

(** [buf[i]] *)
Definition load {A : Type} (buf : list A) (i : Z) : outcome A :=
  if 0 <=? i then
    match buf !! Z.to_nat i with
    | Some x => Ret x
    | None => Fault
    end
  else Fault.

(** [buf[i] = x] *)
Definition store {A : Type} (buf : list A) (i : Z) (x : A) : outcome (list A) :=
  if (0 <=? i) && (i <? Z.of_nat (length buf))
  then Ret (<[Z.to_nat i := x]> buf)
  else Fault.

(** [for (i = lo; i < lo + n && extra i; i++) body], threading the state
    that the body mutates. *)
Fixpoint for_loop {S : Type} (n : nat) (i : Z) (extra : Z -> bool)
    (body : Z -> S -> outcome S) (s : S) : outcome S :=
  match n with
  | O => Ret s
  | Datatypes.S n' =>
      if extra i then s' <- body i s ;; for_loop n' (i + 1) extra body s'
      else Ret s
  end.

(** [for (i = lo; i < hi && extra i; i++) body] *)
Definition for_while {S : Type} (lo hi : Z) (extra : Z -> bool)
    (body : Z -> S -> outcome S) (s : S) : outcome S :=
  for_loop (Z.to_nat (hi - lo)) lo extra body s.

(** [for (i = lo; i < hi; i++) body] *)
Definition for_range {S : Type} (lo hi : Z)
    (body : Z -> S -> outcome S) (s : S) : outcome S :=
  for_while lo hi (fun _ => true) body s.

(** Integer conversions of the C code. *)
Definition INT_MAX : Z := 2147483647.
Definition to_int (z : Z) : Z := (z + 2 ^ 31) mod 2 ^ 32 - 2 ^ 31.   (* (int)z *)
Definition to_size_t (z : Z) : Z := z mod 2 ^ 64.                     (* (size_t)z *)

(** The product of two [int]s is written [to_int (a * b)]: the compiled
    code multiplies in 32 bits, and a product outside [int] wraps around. *)

(** ** cognitive-tensors.c *)

(** [struct ggml_tensor]; the strides [nb] are never written nor read. *)
Record ggml_tensor : Type := {
  ne0 : Z;
  ne1 : Z;
  ne2 : Z;
  ne3 : Z;
  data : option (list float);
  type : Z
}.

(** A tensor as [ggml_new_tensor_2d] lays it out: a buffer of
    [ne0 * ne1] floats. *)
Definition tensor_wf (t : ggml_tensor) : Prop :=
  0 <= ne0 t <= INT_MAX /\ 0 <= ne1 t <= INT_MAX /\ ne0 t * ne1 t <= INT_MAX /\
  exists d, data t = Some d /\ Z.of_nat (length d) = ne0 t * ne1 t.

(** [ggml_new_tensor_2d]: a zero-filled buffer from [calloc], of as many
    floats as the [int] product [ne0 * ne1] says.  [malloc] and [calloc]
    are taken to succeed, except for the request of a negative element
    count, which [calloc] sees as an enormous one. *)
Definition ggml_new_tensor_2d (ty n0 n1 : Z) : option ggml_tensor :=
  let count := to_int (n0 * n1) in
  if count <? 0 then None
  else Some {| ne0 := n0; ne1 := n1; ne2 := 1; ne3 := 1;
               data := Some (replicate (Z.to_nat count) F32.zero);
               type := ty |}.

(** A two-dimensional tensor over the buffer [d]. *)
Definition matrix (n0 n1 : Z) (d : list float) : ggml_tensor :=
  {| ne0 := n0; ne1 := n1; ne2 := 1; ne3 := 1; data := Some d; type := 0 |}.

Definition set_data (t : ggml_tensor) (d : list float) : ggml_tensor :=
  {| ne0 := ne0 t; ne1 := ne1 t; ne2 := ne2 t; ne3 := ne3 t;
     data := Some d; type := type t |}.

(** The loop shared by [ggml_mul] and [ggml_add]:
    [result_data[i] = a_data[i] op b_data[i]] for [i < size]. *)
Definition elementwise (op : float -> float -> float)
    (a_data b_data : list float) (size : Z) (result_data : list float)
    : outcome (list float) :=
  for_range 0 size (fun i result_data =>
    x <- load a_data i ;;
    y <- load b_data i ;;
    store result_data i (op x y)) result_data.

Definition ggml_binop (op : float -> float -> float)
    (a b : option ggml_tensor) : outcome (option ggml_tensor) :=
  match a, b with
  | Some ta, Some tb =>
      match data ta, data tb with
      | Some a_data, Some b_data =>
          match ggml_new_tensor_2d 0 (ne0 ta) (ne1 ta) with
          | None => Ret None
          | Some result =>
              match data result with
              | None => Fault
              | Some result_data =>
                  let size := to_int (ne0 ta * ne1 ta) in
                  result_data' <- elementwise op a_data b_data size result_data ;;
                  Ret (Some (set_data result result_data'))
              end
          end
      | _, _ => Ret None
      end
  | _, _ => Ret None
  end.

Definition ggml_mul := ggml_binop F32.mul.
Definition ggml_add := ggml_binop F32.add.

(** A data pointer as the loops use it: every access through a null
    pointer faults, as does every access to an empty buffer. *)
Definition buffer (t : ggml_tensor) : list float :=
  match data t with
  | Some d => d
  | None => []
  end.

Section Libm.
(** [sinf] of the C library. *)
Variable sinf : float -> float.

Definition cognitive_attention_matrix (input : option ggml_tensor)
    (attention_weight : float) : outcome (option ggml_tensor) :=
  match input with
  | None => Fault
  | Some inp =>
      match ggml_new_tensor_2d 0 (ne0 inp) (ne1 inp) with
      | None => Fault
      | Some attention =>
          attention_data <-
            for_range 0 (to_int (ne0 inp * ne1 inp)) (fun i attention_data =>
              store attention_data i
                (F32.mul attention_weight
                   (F32.add F32.one
                      (F32.mul F32.c0_1 (sinf (F32.mul (F32.of_int i) F32.c0_1))))))
              (buffer attention) ;;
          ggml_mul (Some inp) (Some (set_data attention attention_data))
      end
  end.

Definition meta_cognitive_transform (input : option ggml_tensor)
    (meta_level : Z) : outcome (option ggml_tensor) :=
  match input with
  | None => Fault
  | Some inp =>
      match ggml_new_tensor_2d 0 (ne0 inp) (ne1 inp) with
      | None => Fault
      | Some transformed =>
          let input_data := buffer inp in
          let meta_factor :=
            F32.add F32.one (F32.mul (F32.of_int meta_level) F32.c0_2) in
          output_data <-
            for_range 0 (to_int (ne0 inp * ne1 inp)) (fun i output_data =>
              x <- load input_data i ;;
              store output_data i
                (F32.mul (F32.mul x meta_factor)
                   (F32.add F32.one
                      (F32.mul F32.c0_1
                         (sinf (F32.mul (F32.of_int (to_int (i * meta_level)))
                                        F32.c0_01))))))
              (buffer transformed) ;;
          Ret (Some (set_data transformed output_data))
      end
  end.
End Libm.

(** [cognitive_pattern_match]: the correlation of [pattern] with [data]
    at every position of [data]. *)
Definition cognitive_pattern_match (pattern data : option ggml_tensor)
    : outcome (option ggml_tensor) :=
  match pattern, data with
  | Some pat, Some dat =>
      match ggml_new_tensor_2d 0 (ne0 dat) (ne1 dat) with
      | None => Fault
      | Some match_result =>
          let pattern_data := buffer pat in
          let input_data := buffer dat in
          result_data <-
            for_range 0 (ne0 dat) (fun i result_data =>
              for_range 0 (ne1 dat) (fun j result_data =>
                correlation <-
                  for_while 0 (ne0 pat) (fun pi => i + pi <? ne0 dat)
                    (fun pi correlation =>
                       for_while 0 (ne1 pat) (fun pj => j + pj <? ne1 dat)
                         (fun pj correlation =>
                            p <- load pattern_data (pi * ne1 pat + pj) ;;
                            d <- load input_data ((i + pi) * ne1 dat + (j + pj)) ;;
                            Ret (F32.add correlation (F32.mul p d)))
                         correlation)
                    F32.zero ;;
                store result_data (i * ne1 dat + j) correlation)
                result_data)
              (buffer match_result) ;;
          Ret (Some (set_data match_result result_data))
      end
  | _, _ => Fault
  end.

(** *** Cognitive kernels *)

Record cognitive_kernel_t : Type := {
  tensor_field : option ggml_tensor;
  attention_weight : float;
  meta_level : Z;
  kernel_id : Z
}.

(** [create_cognitive_kernel]; [addr] is the address that [malloc] returns
    for the kernel record. *)
Definition create_cognitive_kernel (addr : Z) (shape : list Z) (shape_dims : Z)
    (attention_weight : float) : outcome cognitive_kernel_t :=
  s0 <- load shape 0 ;;
  tf <- (if 2 <=? shape_dims
         then s1 <- load shape 1 ;; Ret (ggml_new_tensor_2d 0 s0 s1)
         else Ret (ggml_new_tensor_2d 0 s0 1)) ;;
  Ret {| tensor_field := tf; attention_weight := attention_weight;
         meta_level := 0; kernel_id := addr |}.

Definition set_attention (k : cognitive_kernel_t) (w : float) : cognitive_kernel_t :=
  {| tensor_field := tensor_field k; attention_weight := w;
     meta_level := meta_level k; kernel_id := kernel_id k |}.

(** [update_kernel_attention]: the status code and the kernel after the
    call. *)
Definition update_kernel_attention (kernel : option cognitive_kernel_t)
    (new_weight : float) : Z * option cognitive_kernel_t :=
  match kernel with
  | None => (-1, None)
  | Some k =>
      if F32.ltb new_weight F32.zero || F32.gtb new_weight F32.one
      then (-1, Some k)
      else (0, Some (set_attention k new_weight))
  end.

(** *** Hypergraphs *)

Record hypergraph_t : Type := {
  node_count : Z;
  link_count : Z;
  node_weights : list float;
  link_weights : list float;
  adjacency_matrix : list Z
}.

(** A hypergraph as [create_hypergraph] lays it out. *)
Definition hypergraph_wf (hg : hypergraph_t) : Prop :=
  0 <= node_count hg /\ node_count hg * node_count hg <= INT_MAX /\
  Z.of_nat (length (node_weights hg)) = node_count hg /\
  Z.of_nat (length (adjacency_matrix hg)) = node_count hg * node_count hg.

Definition create_hypergraph (node_count link_count : Z) : option hypergraph_t :=
  Some {| node_count := node_count;
          link_count := link_count;
          node_weights := replicate (Z.to_nat node_count) F32.zero;
          link_weights := replicate (Z.to_nat link_count) F32.zero;
          adjacency_matrix := replicate (Z.to_nat (node_count * node_count)) 0 |}.

Definition encode_hypergraph_to_tensor (hg : option hypergraph_t)
    : outcome (option ggml_tensor) :=
  match hg with
  | None => Ret None
  | Some h =>
      match ggml_new_tensor_2d 0 (to_int (node_count h)) (to_int (node_count h)) with
      | None => Fault
      | Some tensor =>
          tensor_data <-
            for_range 0 (node_count h) (fun i tensor_data =>
              for_range 0 (node_count h) (fun j tensor_data =>
                adj_value <- load (adjacency_matrix h) (i * node_count h + j) ;;
                wi <- load (node_weights h) i ;;
                wj <- load (node_weights h) j ;;
                let weight_factor := F32.mul (F32.add wi wj) F32.half in
                store tensor_data (i * node_count h + j)
                  (F32.mul (F32.of_int adj_value) weight_factor))
                tensor_data)
              (buffer tensor) ;;
          Ret (Some (set_data tensor tensor_data))
      end
  end.

Definition set_graph (hg : hypergraph_t) (adj : list Z) (nw : list float)
    : hypergraph_t :=
  {| node_count := node_count hg; link_count := link_count hg;
     node_weights := nw; link_weights := link_weights hg;
     adjacency_matrix := adj |}.

(** One pass of the body of the loops of [decode_tensor_to_hypergraph],
    on the adjacency matrix and the node weights of the hypergraph. *)
Definition decode_cell (tensor_data : list float) (t_ne1 n : Z) (i j : Z)
    (st : list Z * list float) : outcome (list Z * list float) :=
  let (adj, nw) := st in
  value <- load tensor_data (i * t_ne1 + j) ;;
  adj <- store adj (i * n + j) (if F32.gtb value F32.half then 1 else 0) ;;
  if F32.gtb value F32.zero then
    wi <- load nw i ;;
    nw <- store nw i (F32.mul (F32.add wi value) F32.half) ;;
    wj <- load nw j ;;
    nw <- store nw j (F32.mul (F32.add wj value) F32.half) ;;
    Ret (adj, nw)
  else Ret (adj, nw).

(** [decode_tensor_to_hypergraph]: the status code and the hypergraph
    after the call. *)
Definition decode_tensor_to_hypergraph (tensor : option ggml_tensor)
    (hg : option hypergraph_t) : outcome (Z * option hypergraph_t) :=
  match tensor, hg with
  | Some t, Some h =>
      match data t with
      | None => Ret (-1, hg)
      | Some tensor_data =>
          let min_size :=
            if node_count h <? to_size_t (ne0 t)
            then node_count h else to_size_t (ne0 t) in
          st <- for_range 0 min_size (fun i st =>
                  for_range 0 min_size (fun j st =>
                    decode_cell tensor_data (ne1 t) (node_count h) i j st) st)
                  (adjacency_matrix h, node_weights h) ;;
          Ret (0, Some (set_graph h (fst st) (snd st)))
      end
  | _, _ => Ret (-1, hg)
  end.

(** ** opencog-ggml-bridge.c *)

(** *** The tensor memory pool *)

Definition TENSOR_POOL_SIZE : Z := 1024.
Definition TENSOR_BLOCK_SIZE : Z := 16384.

(** [blocks[i]] is [NULL] or the address of block [i], which is named by
    its index. *)
Record TensorMemoryPool : Type := {
  blocks : list (option Z);
  free_blocks : list Z;
  allocated_blocks : list Z;
  free_count : Z;
  allocated_count : Z;
  total_allocated : Z;
  peak_usage : Z
}.

(** [static TensorMemoryPool tensor_pool = {0}] *)
Definition tensor_pool : TensorMemoryPool :=
  {| blocks := replicate (Z.to_nat TENSOR_POOL_SIZE) None;
     free_blocks := replicate (Z.to_nat TENSOR_POOL_SIZE) 0;
     allocated_blocks := replicate (Z.to_nat TENSOR_POOL_SIZE) 0;
     free_count := 0;
     allocated_count := 0;
     total_allocated := 0;
     peak_usage := 0 |}.

(** What the system allocator answers during one call of
    [ggml_new_tensor_2d_optimized]: whether [aligned_alloc] serves block
    [i] when the pool is initialised, whether [malloc] serves the tensor
    record, and whether [aligned_alloc] serves the fallback buffer. *)
Record alloc_env : Type := {
  env_block : Z -> bool;
  env_malloc : bool;
  env_fallback : bool
}.

(** Where the data pointer of a tensor points. *)
Inductive data_origin : Type :=
| PoolBlock (block : Z)
| SystemBuffer.

Definition init_tensor_pool (block_ok : Z -> bool) (pool : TensorMemoryPool)
    : outcome TensorMemoryPool :=
  st <- for_range 0 TENSOR_POOL_SIZE (fun i (st : list (option Z) * list Z) =>
          b <- store (fst st) i (if block_ok i then Some i else None) ;;
          f <- store (snd st) i i ;;
          Ret (b, f))
          (blocks pool, free_blocks pool) ;;
  Ret {| blocks := fst st;
         free_blocks := snd st;
         allocated_blocks := allocated_blocks pool;
         free_count := TENSOR_POOL_SIZE;
         allocated_count := 0;
         total_allocated := 0;
         peak_usage := 0 |}.

(** [ggml_new_tensor_2d_optimized]: the tensor (or [NULL]) with the origin
    of its buffer, and the pool after the call.  [data_size] is the [int]
    product [ne0 * ne1] widened to [size_t] and multiplied by
    [sizeof(float)]; the buffer of the tensor is the [data_size] bytes that
    [memset] zeroes. *)
Definition ggml_new_tensor_2d_optimized (env : alloc_env)
    (pool : TensorMemoryPool) (ty n0 n1 : Z)
    : outcome (option (ggml_tensor * data_origin) * TensorMemoryPool) :=
  b0 <- load (blocks pool) 0 ;;
  pool <- (match b0 with
           | None => init_tensor_pool (env_block env) pool
           | Some _ => Ret pool
           end) ;;
  if negb (env_malloc env) then Ret (None, pool)
  else
    let data_size := to_size_t (to_size_t (to_int (n0 * n1)) * 4) in
    let tensor := {| ne0 := n0; ne1 := n1; ne2 := 1; ne3 := 1;
                     data := Some (replicate (Z.to_nat (data_size / 4)) F32.zero);
                     type := ty |} in
    if (data_size <=? TENSOR_BLOCK_SIZE) && (0 <? free_count pool) then
      let free_count' := free_count pool - 1 in
      block_idx <- load (free_blocks pool) free_count' ;;
      allocated_blocks' <-
        store (allocated_blocks pool) (allocated_count pool) block_idx ;;
      block <- load (blocks pool) block_idx ;;
      let total := to_size_t (total_allocated pool + data_size) in
      let pool' :=
        {| blocks := blocks pool;
           free_blocks := free_blocks pool;
           allocated_blocks := allocated_blocks';
           free_count := free_count';
           allocated_count := allocated_count pool + 1;
           total_allocated := total;
           peak_usage := if peak_usage pool <? total then total
                         else peak_usage pool |} in
      match block with
      | None => Ret (None, pool')
      | Some blk => Ret (Some (tensor, PoolBlock blk), pool')
      end
    else if env_fallback env then Ret (Some (tensor, SystemBuffer), pool)
    else Ret (None, pool).

(** *** The SIMD kernels *)

(** [for (i = lo; i < hi; i += step) body] *)
Fixpoint for_step_loop {S : Type} (n : nat) (i step hi : Z)
    (body : Z -> S -> outcome S) (s : S) : outcome S :=
  match n with
  | O => Ret s
  | Datatypes.S n' =>
      if i <? hi then s' <- body i s ;; for_step_loop n' (i + step) step hi body s'
      else Ret s
  end.

Definition for_step {S : Type} (lo hi step : Z)
    (body : Z -> S -> outcome S) (s : S) : outcome S :=
  for_step_loop (Z.to_nat (hi - lo)) lo step hi body s.

(** The [n] floats [buf[i] .. buf[i+n-1]]. *)
Fixpoint load_lanes (n : nat) (buf : list float) (i : Z) : outcome (list float) :=
  match n with
  | O => Ret []
  | Datatypes.S n' =>
      x <- load buf i ;;
      xs <- load_lanes n' buf (i + 1) ;;
      Ret (x :: xs)
  end.

(** [_mm256_load_ps(&buf[i])] for a buffer at the address [addr]: the
    eight floats [buf[i] .. buf[i+7]].  The address [&buf[i]] must be a
    multiple of 32; the instruction faults on any other. *)
Definition mm256_load_ps (addr : Z) (buf : list float) (i : Z)
    : outcome (list float) :=
  if (addr + 4 * i) mod 32 =? 0 then load_lanes 8 buf i else Fault.

(** [_mm256_store_ps(&buf[i], v)].  The kernels store into the buffer of
    their result only, which [aligned_alloc(32, ...)] has returned, pool
    block or not, and at indices that are multiples of 8: that address is
    a multiple of 32. *)
Fixpoint mm256_store_ps (buf : list float) (i : Z) (v : list float)
    : outcome (list float) :=
  match v with
  | [] => Ret buf
  | x :: v' => buf' <- store buf i x ;; mm256_store_ps buf' (i + 1) v'
  end.

(** The two loops shared by [ggml_mul_simd] and [ggml_add_simd];
    [a_addr] and [b_addr] are the addresses of the two operand buffers. *)
Definition elementwise_simd (op : float -> float -> float)
    (a_addr b_addr : Z) (a_data b_data : list float) (size : Z)
    (result_data : list float) : outcome (list float) :=
  let simd_size := size - Z.rem size 8 in
  result_data <-
    for_step 0 simd_size 8 (fun i result_data =>
      va <- mm256_load_ps a_addr a_data i ;;
      vb <- mm256_load_ps b_addr b_data i ;;
      mm256_store_ps result_data i (zip_with op va vb)) result_data ;;
  for_range simd_size size (fun i result_data =>
    x <- load a_data i ;;
    y <- load b_data i ;;
    store result_data i (op x y)) result_data.

(** [a_addr] and [b_addr] are the addresses that [a->data] and [b->data]
    hold. *)
Definition ggml_binop_simd (op : float -> float -> float) (env : alloc_env)
    (pool : TensorMemoryPool) (a_addr b_addr : Z) (a b : option ggml_tensor)
    : outcome (option ggml_tensor * TensorMemoryPool) :=
  match a, b with
  | Some ta, Some tb =>
      match data ta, data tb with
      | Some a_data, Some b_data =>
          r <- ggml_new_tensor_2d_optimized env pool 0 (ne0 ta) (ne1 ta) ;;
          match r with
          | (None, pool') => Ret (None, pool')
          | (Some (result, _), pool') =>
              let size := to_int (ne0 ta * ne1 ta) in
              result_data <-
                elementwise_simd op a_addr b_addr a_data b_data size
                  (buffer result) ;;
              Ret (Some (set_data result result_data), pool')
          end
      | _, _ => Ret (None, pool)
      end
  | _, _ => Ret (None, pool)
  end.

Definition ggml_mul_simd := ggml_binop_simd F32.mul.
Definition ggml_add_simd := ggml_binop_simd F32.add.

(** *** The mock AtomSpace *)

(** [TruthValue]; its [type] field is never written nor read. *)
Record TruthValue : Type := {
  mean : double;
  confidence : double
}.

(** [Atom]; the fields [id] and [type] of the source are [atom_id] and
    [atom_type]. *)
Record Atom : Type := {
  atom_id : Z;
  atom_type : Z;
  truth_value : option TruthValue;
  name : option string
}.

(** An [Atom*]: null, pointing to a live atom, or pointing to no atom
    (the atom has been freed, or the slot was never written). *)
Inductive atom_ptr : Type :=
| Null
| Live (a : Atom)
| Dangling.

Record AtomSpace : Type := {
  atoms : list atom_ptr;
  count : Z;
  capacity : Z
}.

Definition ATOM_TYPE_CONCEPT : Z := 1.

(** [create_atomspace]: an empty store with room for 1000 atoms; the
    slots of the fresh array point to no atom. *)
Definition create_atomspace : AtomSpace :=
  {| atoms := replicate 1000 Dangling; count := 0; capacity := 1000 |}.

(** [create_atom]; [r] is the value that [rand()] returns. *)
Definition create_atom (r : Z) (ty : Z) (nm : option string)
    (mean confidence : double) : Atom :=
  {| atom_id := Z.rem r 10000;
     atom_type := ty;
     truth_value := Some {| mean := mean; confidence := confidence |};
     name := nm |}.

Definition add_atom_to_space (as_ : AtomSpace) (atom : Atom) : outcome AtomSpace :=
  if count as_ <? capacity as_ then
    atoms' <- store (atoms as_) (count as_) (Live atom) ;;
    Ret {| atoms := atoms'; count := count as_ + 1; capacity := capacity as_ |}
  else Ret as_.

(** ["%zu"] *)
Definition format_zu (i : Z) : string :=
  DecimalString.NilZero.string_of_uint (N.to_uint (Z.to_N i)).

(** [free(p)] for the atom behind [p], with its truth value and name. *)
Definition free_atom (p : atom_ptr) : outcome atom_ptr :=
  match p with
  | Null => Ret Null
  | Live _ => Ret Dangling
  | Dangling => Fault
  end.

(** [tensor_to_atomspace]; [rand k] is the value of the [k]-th call of
    [rand()] from now on, counting from 0. *)
Definition tensor_to_atomspace (rand : nat -> Z) (tensor : ggml_tensor)
    (as_ : AtomSpace) : outcome AtomSpace :=
  let data := buffer tensor in
  let tensor_size := to_size_t (to_int (ne0 tensor * ne1 tensor)) in
  atoms' <- for_range 0 (count as_) (fun i atoms =>
              p <- load atoms i ;;
              p' <- free_atom p ;;
              store atoms i p') (atoms as_) ;;
  let cleared := {| atoms := atoms'; count := 0; capacity := capacity as_ |} in
  st <- for_while 0 tensor_size (fun i => i <? capacity as_)
          (fun i (st : AtomSpace * nat) =>
             x <- load data i ;;
             if F32.gtb x F32.c0_01 then
               let nm := ("concept_" ++ format_zu i)%string in
               let atom := create_atom (rand (snd st)) ATOM_TYPE_CONCEPT
                             (Some nm) (F64.of_float x) F64.c0_8 in
               as' <- add_atom_to_space (fst st) atom ;;
               Ret (as', Datatypes.S (snd st))
             else Ret st)
          (cleared, O) ;;
  Ret (fst st).

(** The value of one off-diagonal cell of [create_attention_tensor] for two
    slots inside the store. *)
Definition cross_attention (atom_i atom_j : atom_ptr) (attention_weight : float)
    : outcome float :=
  let low := F32.mul F32.c0_1 attention_weight in
  match atom_i, atom_j with
  | Null, _ => Ret low
  | _, Null => Ret low
  | Dangling, _ => Fault
  | Live ai, _ =>
      match truth_value ai with
      | None => Ret low
      | Some tvi =>
          match atom_j with
          | Live aj =>
              match truth_value aj with
              | None => Ret low
              | Some tvj =>
                  let similarity :=
                    F32.sub F32.one
                      (F32.abs (F32.sub (F32.of_double (mean tvi))
                                        (F32.of_double (mean tvj)))) in
                  Ret (F32.mul (F32.mul similarity attention_weight) F32.half)
              end
          | _ => Fault
          end
      end
  end.

Definition create_attention_tensor (as_ : AtomSpace) (attention_weight : float)
    : outcome (option ggml_tensor) :=
  let node_count := if count as_ =? 0 then 64 else count as_ in
  match ggml_new_tensor_2d 0 (to_int node_count) (to_int node_count) with
  | None => Fault
  | Some attention_tensor =>
      data <-
        for_range 0 node_count (fun i data =>
          for_range 0 node_count (fun j data =>
            if i =? j then store data (i * node_count + j) attention_weight
            else if (i <? count as_) && (j <? count as_) then
              atom_i <- load (atoms as_) i ;;
              atom_j <- load (atoms as_) j ;;
              v <- cross_attention atom_i atom_j attention_weight ;;
              store data (i * node_count + j) v
            else store data (i * node_count + j) F32.zero)
            data)
          (buffer attention_tensor) ;;
      Ret (Some (set_data attention_tensor data))
  end.

(** ** Definitions for the specifications *)

(** The element of a buffer at an index inside it. *)
Definition at_ {A} (dflt : A) (buf : list A) (i : Z) : A :=
  default dflt (buf !! Z.to_nat i).

(** [r[idx k] = f k], the store of one pass of a loop over the keys [k]. *)
Definition put {K A : Type} (idx : K -> nat) (f : K -> A) (r : list A) (k : K)
    : list A :=
  <[idx k := f k]> r.

(** The elements that the loops of [ggml_mul] and [ggml_add] write. *)
Definition pointwise (op : float -> float -> float) (a_data b_data : list float)
    (i : Z) : float :=
  op (at_ F32.zero a_data i) (at_ F32.zero b_data i).

(** The positions [(i, j)] of an [R] by [C] matrix in row-major order. *)
Definition cells (R C : Z) : list (Z * Z) :=
  seqZ 0 R ≫= fun i => pair i <$> seqZ 0 C.

(** The cell [(i, j)] of a row-major buffer with rows of [w] floats. *)
Definition cell (d : list float) (w : Z) (i j : Z) : float :=
  at_ F32.zero d (i * w + j).

(** What [encode_hypergraph_to_tensor] writes in cell [(i, j)]. *)
Definition encode_value (h : hypergraph_t) (i j : Z) : float :=
  F32.mul (F32.of_int (at_ 0 (adjacency_matrix h) (i * node_count h + j)))
          (F32.mul (F32.add (at_ F32.zero (node_weights h) i)
                            (at_ F32.zero (node_weights h) j)) F32.half).

(** The rule of the decoder for one cell value [v] at [(i, j)]: the
    adjacency entry is 1 iff [v > 0.5]; if [v > 0] the weights of node [i]
    and then of node [j] are replaced by their average with [v]. *)
Definition threshold (v : float) : Z := if F32.gtb v F32.half then 1 else 0.

Definition smooth (nw : list float) (k : Z) (v : float) : list float :=
  <[Z.to_nat k := F32.mul (F32.add (at_ F32.zero nw k) v) F32.half]> nw.

Definition decode_rule (value : Z -> Z -> float) (n : Z)
    (st : list Z * list float) (c : Z * Z) : list Z * list float :=
  let v := value (fst c) (snd c) in
  (<[Z.to_nat (fst c * n + snd c) := threshold v]> (fst st),
   if F32.gtb v F32.zero then smooth (smooth (snd st) (fst c) v) (snd c) v
   else snd st).

(** The value of the cell [(i, j)] of a tensor, for a position inside its
    extents. *)
Definition tensor_cell (t : ggml_tensor) (i j : Z) : option float :=
  if (0 <=? i) && (i <? ne0 t) && (0 <=? j) && (j <? ne1 t)
  then buffer t !! Z.to_nat (i * ne1 t + j)
  else None.

(** Two tensors have the same extents in all four dimensions. *)
Definition same_extents (a b : ggml_tensor) : bool :=
  (ne0 a =? ne0 b) && (ne1 a =? ne1 b) && (ne2 a =? ne2 b) && (ne3 a =? ne3 b).

(** The test of the four kernels on an operand, [!t || !t->data]. *)
Definition no_data (t : option ggml_tensor) : Prop :=
  match t with
  | Some x => data x = None
  | None => True
  end.

(** The kernels of the two files, scalar and vectorised, with the
    operation that each applies to the elements. *)
Definition kernels :=
  [(F32.mul, ggml_mul, ggml_mul_simd); (F32.add, ggml_add, ggml_add_simd)].

(** A weight lies in the interval [[0, 1]]. *)
Definition in_unit_interval (w : float) : bool :=
  F32.leb F32.zero w && F32.leb w F32.one.

(** A store as [create_atomspace] and [add_atom_to_space] lay it out:
    the slots below [count] are null or point to live atoms. *)
Definition atomspace_wf (as_ : AtomSpace) : Prop :=
  0 <= count as_ <= capacity as_
  /\ Z.of_nat (length (atoms as_)) = capacity as_
  /\ forall p, 0 <= p < count as_ -> atoms as_ !! Z.to_nat p <> Some Dangling.

(** The central value of entity [i] of the store, as a [float], when the
    entity exists: slot [i] is below [count] and points to an atom that
    has a truth value. *)
Definition entity (as_ : AtomSpace) (i : Z) : option float :=
  if (0 <=? i) && (i <? count as_) then
    match atoms as_ !! Z.to_nat i with
    | Some (Live a) =>
        match truth_value a with
        | Some tv => Some (F32.of_double (mean tv))
        | None => None
        end
    | _ => None
    end
  else None.

(** The cell [(i, j)] of the attention tensor of a store. *)
Definition attention_value (as_ : AtomSpace) (w : float) (i j : Z) : float :=
  if i =? j then w
  else
    match entity as_ i, entity as_ j with
    | Some ci, Some cj =>
        F32.mul (F32.mul (F32.sub F32.one (F32.abs (F32.sub ci cj))) w) F32.half
    | _, _ =>
        if (i <? count as_) && (j <? count as_) then F32.mul F32.c0_1 w
        else F32.zero
    end.

(** The correlation of [pat] with [dat] at the position [(i, j)]: the sum,
    in row-major order of the offsets and starting from [0.0f], of
    [pattern[pi, pj] * data[i + pi, j + pj]] over the offsets of the
    pattern for which [(i + pi, j + pj)] is inside the extents of [dat]. *)
Definition inside (dat : ggml_tensor) (i j : Z) (c : Z * Z) : bool :=
  (i + fst c <? ne0 dat) && (j + snd c <? ne1 dat).

Definition correlation (pat dat : ggml_tensor) (i j : Z) : float :=
  foldl (fun acc c =>
           F32.add acc
             (F32.mul (cell (buffer pat) (ne1 pat) (fst c) (snd c))
                      (cell (buffer dat) (ne1 dat) (i + fst c) (j + snd c))))
        F32.zero
        (filter (fun c => inside dat i j c = true) (cells (ne0 pat) (ne1 pat))).

(** *** Sequences of acquisitions from the pool *)

(** A request: what the system allocator answers during the call, and the
    two extents asked for. *)
Definition request : Type := alloc_env * Z * Z.

(** The byte count [ne0 * ne1 * sizeof(float)] of a request, as
    [ggml_new_tensor_2d_optimized] computes it. *)
Definition data_size (n0 n1 : Z) : Z :=
  to_size_t (to_size_t (to_int (n0 * n1)) * 4).

(** The tensor that [ggml_new_tensor_2d_optimized] returns for the
    extents [n0] and [n1]: its buffer is the [data_size] bytes that
    [memset] has zeroed. *)
Definition zero_tensor (ty n0 n1 : Z) : ggml_tensor :=
  {| ne0 := n0; ne1 := n1; ne2 := 1; ne3 := 1;
     data := Some (replicate (Z.to_nat (data_size n0 n1 / 4)) F32.zero);
     type := ty |}.

(** The system allocator serves every request of the call. *)
Definition env_serves (env : alloc_env) : Prop :=
  env_malloc env = true /\ env_fallback env = true
  /\ forall i, env_block env i = true.

(** A request for at most one block, in a call that the system serves. *)
Definition small_request (r : request) : Prop :=
  env_serves (fst (fst r))
  /\ data_size (snd (fst r)) (snd r) <= TENSOR_BLOCK_SIZE.

(** One call of [ggml_new_tensor_2d_optimized] per request, in order: the
    result of every call with the pool after it, and the pool in the end. *)
Fixpoint allocate_all (pool : TensorMemoryPool) (reqs : list request)
    : outcome (list (option (ggml_tensor * data_origin) * TensorMemoryPool)
               * TensorMemoryPool) :=
  match reqs with
  | [] => Ret ([], pool)
  | r :: reqs' =>
      res <- ggml_new_tensor_2d_optimized (fst (fst r)) pool 0 (snd (fst r)) (snd r) ;;
      rest <- allocate_all (snd res) reqs' ;;
      Ret (res :: fst rest, snd rest)
  end.

(** The bookkeeping invariant of the pool. *)
Definition pool_accounting (p : TensorMemoryPool) : Prop :=
  free_count p + allocated_count p = TENSOR_POOL_SIZE.

(** The tensor of a result comes from a block of the pool. *)
Definition pooled (res : option (ggml_tensor * data_origin)) : Prop :=
  exists t b, res = Some (t, PoolBlock b).

(** The pool after its initialisation and [k] acquisitions of a block. *)
Definition pool_after (k : Z) (p : TensorMemoryPool) : Prop :=
  blocks p = Some <$> seqZ 0 TENSOR_POOL_SIZE
  /\ free_blocks p = seqZ 0 TENSOR_POOL_SIZE
  /\ Z.of_nat (length (allocated_blocks p)) = TENSOR_POOL_SIZE
  /\ free_count p = TENSOR_POOL_SIZE - k
  /\ allocated_count p = k.

(** The pool before its first use, or after [k] acquisitions. *)
Definition pool_start (k : Z) (p : TensorMemoryPool) : Prop :=
  (k = 0 /\ p = tensor_pool) \/ pool_after k p.

(** *** Definitions for the specification of [tensor_to_atomspace] *)

(** The linear indices below the capacity of the store of the cells of a
    tensor whose value exceeds 0.01, in increasing order. *)
Definition significant (t : ggml_tensor) (cap : Z) : list Z :=
  filter (fun i => F32.gtb (at_ F32.zero (buffer t) i) F32.c0_01 = true)
         (seqZ 0 (Z.min (ne0 t * ne1 t) cap)).

(** The entity synthesized for the cell of linear index [i], as the
    [k]-th entity of the call. *)
Definition synthesized (rand : nat -> Z) (t : ggml_tensor) (k : nat) (i : Z)
    : atom_ptr :=
  Live (create_atom (rand k) ATOM_TYPE_CONCEPT
          (Some ("concept_" ++ format_zu i)%string)
          (F64.of_float (at_ F32.zero (buffer t) i)) F64.c0_8).

(** A slot after its atom has been freed. *)
Definition released (p : atom_ptr) : atom_ptr :=
  match p with
  | Live _ => Dangling
  | _ => p
  end.

(** *** Definitions for the specification of [cognitive_attention_matrix] *)

(** Element [i] of the attention tensor:
    [w * (1.0f + 0.1f * sinf(i * 0.1f))] in single precision. *)
Definition attention_factor (sinf : float -> float) (w : float) (i : Z) : float :=
  F32.mul w
    (F32.add F32.one (F32.mul F32.c0_1 (sinf (F32.mul (F32.of_int i) F32.c0_1)))).

(** The real number that a finite float denotes (0 for the zeros; the
    infinities and NaN denote no number and are given 0). *)
Definition F2R (x : float) : R :=
  match x with
  | S754_finite s m e => ((if s then -1 else 1) * IZR (Zpos m) * powerRZ 2 e)%R
  | _ => 0%R
  end.

(** ** Sample inputs *)

Definition f0_9 : float := Eval vm_compute in F32.lit 9 10.     (* 0.9f *)

(** A column of three floats. *)
Definition column3 : ggml_tensor := matrix 3 1 [F32.zero; f0_9; F32.zero].

(** A row and a column of two floats. *)
Definition row2 : ggml_tensor := matrix 1 2 [F32.one; f0_9].
Definition col2 : ggml_tensor := matrix 2 1 [f0_9; f0_9].

(** A system allocator that serves every request. *)
Definition env_ok : alloc_env :=
  {| env_block := fun _ => true; env_malloc := true; env_fallback := true |}.

(** [sinf] where the C library fixes its value: [sinf(+0) = +0]; the
    other arguments are given no number. *)
Definition sinf_at_zero (x : float) : float :=
  match x with
  | S754_zero s => S754_zero s
  | _ => S754_nan
  end.

Definition f0_8 : float := Eval vm_compute in F32.lit 8 10.            (* 0.8f *)
Definition f8388609 : float := Eval vm_compute in F32.of_int 8388609.  (* 2^23 + 1 *)
Definition f6710887_5 : float := S754_finite false 13421775 (-1).      (* 6710887.5f *)

(** A store of capacity 3 that holds one atom. *)
Definition store1 : AtomSpace :=
  {| atoms := [Live (create_atom 7 ATOM_TYPE_CONCEPT (Some "agent-zero"%string)
                       (F64.lit 9 10) F64.c0_8);
               Dangling; Dangling];
     count := 1; capacity := 3 |}.

(** A full store of two atoms with the central values 0.9 and 0.8. *)
Definition store2 : AtomSpace :=
  {| atoms := [Live (create_atom 7 ATOM_TYPE_CONCEPT (Some "agent-zero"%string)
                       (F64.lit 9 10) F64.c0_8);
               Live (create_atom 8 ATOM_TYPE_CONCEPT (Some "agent-one"%string)
                       F64.c0_8 F64.c0_8)];
     count := 2; capacity := 2 |}.

(** ** The other functions of the two files *)

(** *** cognitive-tensors.c: [hypergraph_encoding] *)

Section Libm_tanhf.
(** [tanhf] of the C library. *)
Variable tanhf : float -> float.

(** The result of [ggml_add] is used without a test for [NULL]. *)
Definition hypergraph_encoding (nodes links : option ggml_tensor)
    : outcome (option ggml_tensor) :=
  encoding <- ggml_add nodes links ;;
  match encoding with
  | None => Fault
  | Some enc =>
      data <-
        for_range 0 (to_int (ne0 enc * ne1 enc)) (fun i data =>
          x <- load data i ;;
          store data i (tanhf (F32.mul x F32.half)))
          (buffer enc) ;;
      Ret (Some (set_data enc data))
  end.
End Libm_tanhf.

(** *** opencog-ggml-bridge.c: from the store to tensors *)

Definition ATOM_TYPE_LINK : Z := 2.
Definition ATOM_TYPE_INHERITANCE : Z := 3.

(** [HandleSeq]: an array of [Atom*] and the number of its entries that
    have been written. *)
Record HandleSeq : Type := {
  handles : list atom_ptr;
  seq_count : Z
}.

(** [get_atoms_by_type]: the array has room for [as->count] handles and
    is not initialised; the type of every atom below [count] is read
    before [include_subtypes] is looked at. *)
Definition get_atoms_by_type (as_ : AtomSpace) (ty : Z) (include_subtypes : Z)
    : outcome HandleSeq :=
  for_range 0 (count as_) (fun i seq =>
    p <- load (atoms as_) i ;;
    match p with
    | Live a =>
        if (atom_type a =? ty) || negb (include_subtypes =? 0) then
          handles' <- store (handles seq) (seq_count seq) p ;;
          Ret {| handles := handles'; seq_count := seq_count seq + 1 |}
        else Ret seq
    | _ => Fault
    end)
    {| handles := replicate (Z.to_nat (count as_)) Dangling; seq_count := 0 |}.

(** The tensor after a function has written [d] through its data
    pointer. *)
Definition write_back (t : ggml_tensor) (d : list float) : ggml_tensor :=
  match data t with
  | Some _ => set_data t d
  | None => t
  end.

(** [atomspace_to_tensor]: the tensor after the call. *)
Definition atomspace_to_tensor (as_ : AtomSpace) (tensor : ggml_tensor)
    : outcome ggml_tensor :=
  atoms <- get_atoms_by_type as_ ATOM_TYPE_CONCEPT 1 ;;
  let tensor_size := to_size_t (to_int (ne0 tensor * ne1 tensor)) in
  data <-
    for_while 0 (seq_count atoms) (fun i => i <? tensor_size) (fun i data =>
      h <- load (handles atoms) i ;;
      match h with
      | Null => store data i F32.zero
      | Dangling => Fault
      | Live a =>
          match truth_value a with
          | Some tv => store data i (F32.of_double (mean tv))
          | None => store data i F32.zero
          end
      end)
      (buffer tensor) ;;
  data <-
    for_range (seq_count atoms) tensor_size (fun i data =>
      store data i F32.c0_1) data ;;
  Ret (write_back tensor data).

(** [calloc(n, sizeof(float))] for an [int] [n]: a negative count is an
    enormous request, which fails. *)
Definition calloc_floats (n : Z) : option (list float) :=
  if n <? 0 then None else Some (replicate (Z.to_nat n) F32.zero).

(** A [struct ggml_tensor] on the stack of which only [ne[0]], [ne[1]]
    and [data] are written; its other fields are never read. *)
Definition local_tensor (n0 n1 : Z) (d : option (list float)) : ggml_tensor :=
  {| ne0 := n0; ne1 := n1; ne2 := 0; ne3 := 0; data := d; type := 0 |}.

(** The factor [1.0f + kernel->meta_level * 0.1f]. *)
Definition meta_scale (k : cognitive_kernel_t) : float :=
  F32.add F32.one (F32.mul (F32.of_int (meta_level k)) F32.c0_1).

(** [encode_cognitive_state]: the status code and the output tensor after
    the call. *)
Definition encode_cognitive_state (as_ : option AtomSpace)
    (kernel : option cognitive_kernel_t) (output_tensor : option ggml_tensor)
    : outcome (Z * option ggml_tensor) :=
  match as_, kernel, output_tensor with
  | Some a, Some k, Some out =>
      let temp_tensor :=
        local_tensor (ne0 out) (ne1 out)
          (calloc_floats (to_int (ne0 out * ne1 out))) in
      temp_tensor <- atomspace_to_tensor a temp_tensor ;;
      let temp_data := buffer temp_tensor in
      output_data <-
        for_range 0 (to_int (ne0 out * ne1 out)) (fun i output_data =>
          x <- load temp_data i ;;
          store output_data i
            (F32.mul (F32.mul x (attention_weight k)) (meta_scale k)))
          (buffer out) ;;
      Ret (0, Some (write_back out output_data))
  | _, _, _ => Ret (-1, output_tensor)
  end.

Definition f1em6 : float := Eval vm_compute in F32.lit 1 1000000.   (* 1e-6f *)

(** [decode_cognitive_state]: the status code and the store after the
    call; [rand] is as for [tensor_to_atomspace]. *)
Definition decode_cognitive_state (rand : nat -> Z)
    (input_tensor : option ggml_tensor) (kernel : option cognitive_kernel_t)
    (as_ : option AtomSpace) : outcome (Z * option AtomSpace) :=
  match input_tensor, kernel, as_ with
  | Some inp, Some k, Some a =>
      let decoded_tensor :=
        local_tensor (ne0 inp) (ne1 inp)
          (calloc_floats (to_int (ne0 inp * ne1 inp))) in
      let input_data := buffer inp in
      let inverse_attention :=
        F32.div F32.one (F32.add (attention_weight k) f1em6) in
      let inverse_meta := F32.div F32.one (meta_scale k) in
      decoded_data <-
        for_range 0 (to_int (ne0 inp * ne1 inp)) (fun i decoded_data =>
          x <- load input_data i ;;
          store decoded_data i
            (F32.mul (F32.mul x inverse_attention) inverse_meta))
          (buffer decoded_tensor) ;;
      a' <- tensor_to_atomspace rand (write_back decoded_tensor decoded_data) a ;;
      Ret (0, Some a')
  | _, _, _ => Ret (-1, as_)
  end.

Definition f0_3 : float := Eval vm_compute in F32.lit 3 10.     (* 0.3f *)

(** The body of the inner loop of [create_hypergraph_tensor_from_atomspace]:
    nodes [i] and [j] are linked in both directions when the central value
    of atom [j] is within 0.3 of the weight of node [i]. *)
Definition link_similar (as_ : AtomSpace) (n : Z) (nw : list float) (i j : Z)
    (adj : list Z) : outcome (list Z) :=
  q <- load (atoms as_) j ;;
  match q with
  | Null => Ret adj
  | Dangling => Fault
  | Live b =>
      match truth_value b with
      | None => Ret adj
      | Some tvj =>
          wi <- load nw i ;;
          let weight_diff := F32.abs (F32.sub wi (F32.of_double (mean tvj))) in
          if F32.ltb weight_diff f0_3 then
            adj <- store adj (i * n + j) 1 ;;
            store adj (j * n + i) 1
          else Ret adj
      end
  end.

(** The loops of [create_hypergraph_tensor_from_atomspace] that fill the
    hypergraph. *)
Definition populate_hypergraph (as_ : AtomSpace) (hg : hypergraph_t)
    : outcome hypergraph_t :=
  st <- for_range 0 (count as_) (fun i (st : list float * list Z) =>
          p <- load (atoms as_) i ;;
          match p with
          | Null => Ret st
          | Dangling => Fault
          | Live a =>
              match truth_value a with
              | None => Ret st
              | Some tv =>
                  nw <- store (fst st) i (F32.of_double (mean tv)) ;;
                  adj <- for_range (i + 1) (count as_) (fun j adj =>
                           link_similar as_ (node_count hg) nw i j adj)
                           (snd st) ;;
                  Ret (nw, adj)
              end
          end)
          (node_weights hg, adjacency_matrix hg) ;;
  Ret (set_graph hg (snd st) (fst st)).

Definition create_hypergraph_tensor_from_atomspace (as_ : AtomSpace)
    : outcome (option ggml_tensor) :=
  match create_hypergraph (count as_) (to_size_t (count as_ * 2)) with
  | None => Ret None
  | Some hg =>
      hg <- populate_hypergraph as_ hg ;;
      encode_hypergraph_to_tensor (Some hg)
  end.

(** [strstr(haystack, needle) != NULL] *)
Definition strstr (haystack needle : string) : bool :=
  match String.index 0 needle haystack with
  | Some _ => true
  | None => false
  end.

(** [memset(d, 0, n * sizeof(float))] *)
Definition memset_zero (d : option (list float)) (n : Z) : outcome (list float) :=
  match d with
  | None => Fault
  | Some d =>
      if n <=? Z.of_nat (length d)
      then Ret (replicate (Z.to_nat n) F32.zero ++ drop (Z.to_nat n) d)
      else Fault
  end.

(** [pattern_match_atomspace]: the status code and the result tensor after
    the call.  The truth value of an atom whose name matches is read
    without a test for [NULL]. *)
Definition pattern_match_atomspace (as_ : option AtomSpace)
    (pattern_name : option string) (result_tensor : option ggml_tensor)
    : outcome (Z * option ggml_tensor) :=
  match as_, pattern_name, result_tensor with
  | Some a, Some pat, Some res =>
      let result_size := to_size_t (to_int (ne0 res * ne1 res)) in
      result_data <- memset_zero (data res) result_size ;;
      result_data <-
        for_while 0 (count a) (fun i => i <? result_size) (fun i result_data =>
          p <- load (atoms a) i ;;
          match p with
          | Null => Ret result_data
          | Dangling => Fault
          | Live at_i =>
              match name at_i with
              | None => Ret result_data
              | Some nm =>
                  if strstr nm pat then
                    match truth_value at_i with
                    | None => Fault
                    | Some tv => store result_data i (F32.of_double (mean tv))
                    end
                  else Ret result_data
              end
          end)
          result_data ;;
      Ret (0, Some (set_data res result_data))
  | _, _, _ => Ret (-1, result_tensor)
  end.

(** ** Definitions for the further properties *)

(** The counters of the pool are consistent: the free and the allocated
    blocks add up to the pool, the free list names blocks of the pool below
    [free_count], and the peak is not below the current usage. *)
Definition pool_counts (p : TensorMemoryPool) : Prop :=
  0 <= free_count p <= TENSOR_POOL_SIZE
  /\ free_count p + allocated_count p = TENSOR_POOL_SIZE
  /\ (forall i, 0 <= i < free_count p ->
        exists b, free_blocks p !! Z.to_nat i = Some b /\ 0 <= b < TENSOR_POOL_SIZE)
  /\ total_allocated p <= peak_usage p.

(** The three arrays have [TENSOR_POOL_SIZE] entries, a block that has
    been allocated is named by its index and, unless [blocks[0]] is [NULL]
    and the next call initialises the pool, the counters are consistent. *)
Definition pool_wf (p : TensorMemoryPool) : Prop :=
  Z.of_nat (length (blocks p)) = TENSOR_POOL_SIZE
  /\ Z.of_nat (length (free_blocks p)) = TENSOR_POOL_SIZE
  /\ Z.of_nat (length (allocated_blocks p)) = TENSOR_POOL_SIZE
  /\ (forall (i : nat) b, blocks p !! i = Some (Some b) -> b = Z.of_nat i)
  /\ (blocks p !! 0%nat = Some None \/ pool_counts p).

(** The entry [(i, j)] of an adjacency matrix with [n] nodes. *)
Definition adjacency (n : Z) (adj : list Z) (i j : Z) : Z :=
  at_ 0 adj (i * n + j).

(** The central value that [atomspace_to_tensor] writes for a slot. *)
Definition central (p : atom_ptr) : float :=
  match p with
  | Live a =>
      match truth_value a with
      | Some tv => F32.of_double (mean tv)
      | None => F32.zero
      end
  | _ => F32.zero
  end.

(** Every slot below [count] points to a live atom. *)
Definition all_live (as_ : AtomSpace) : Prop :=
  0 <= count as_ <= capacity as_
  /\ Z.of_nat (length (atoms as_)) = capacity as_
  /\ forall p, 0 <= p < count as_ ->
       exists a, atoms as_ !! Z.to_nat p = Some (Live a).

(** The adjacency matrix reads the same in both directions. *)
Definition symmetric (n : Z) (adj : list Z) : Prop :=
  forall i j, 0 <= i < n -> 0 <= j < n ->
    adjacency n adj i j = adjacency n adj j i.

(** Every entry of the adjacency matrix is 0 or 1. *)
Definition binary (adj : list Z) : Prop :=
  Forall (fun a => a = 0 \/ a = 1) adj.

(** One call of [add_atom_to_space] per atom, in order. *)
Fixpoint add_atoms (as_ : AtomSpace) (l : list Atom) : outcome AtomSpace :=
  match l with
  | [] => Ret as_
  | a :: l' => as' <- add_atom_to_space as_ a ;; add_atoms as' l'
  end.

(** The test of [get_atoms_by_type] on an atom, and on the atom behind a
    pointer. *)
Definition of_type (ty include_subtypes : Z) (a : Atom) : bool :=
  (atom_type a =? ty) || negb (include_subtypes =? 0).

Definition selected (ty include_subtypes : Z) (p : atom_ptr) : bool :=
  match p with
  | Live a => of_type ty include_subtypes a
  | _ => false
  end.

(** The handle sequence that holds the pointers [sel], in an array with
    room for [n] handles. *)
Definition handle_seq (n : nat) (sel : list atom_ptr) : HandleSeq :=
  {| handles := sel ++ replicate (n - length sel) Dangling;
     seq_count := Z.of_nat (length sel) |}.

(** What [decode_cognitive_state] makes of one element of its input:
    [x * (1.0f / (attention_weight + 1e-6f)) * (1.0f / meta_scale)]. *)
Definition rescale (k : cognitive_kernel_t) (x : float) : float :=
  F32.mul (F32.mul x (F32.div F32.one (F32.add (attention_weight k) f1em6)))
          (F32.div F32.one (meta_scale k)).

(** The elements that [atomspace_to_tensor] leaves in a tensor of [size]
    elements. *)
Definition store_values (as_ : AtomSpace) (size : Z) : list float :=
  (central <$> take (Z.to_nat (Z.min (count as_) size)) (atoms as_))
  ++ replicate (Z.to_nat (size - count as_)) F32.c0_1.

(** Whether [create_hypergraph_tensor_from_atomspace] links the nodes [i]
    and [j]: they are distinct, both atoms have a truth value, and the
    central values, taken in the order of the indices, differ by less
    than 0.3 in single precision. *)
Definition similar (as_ : AtomSpace) (i j : Z) : Z :=
  if i =? j then 0
  else
    match entity as_ (Z.min i j), entity as_ (Z.max i j) with
    | Some ci, Some cj =>
        if F32.ltb (F32.abs (F32.sub ci cj)) f0_3 then 1 else 0
    | _, _ => 0
    end.

(** What [pattern_match_atomspace] leaves in element [i] for the slot
    [p] of index [i]: the central value of an atom whose name contains the
    pattern, and 0 otherwise. *)
Definition matched (pat : string) (p : atom_ptr) : float :=
  match p with
  | Live a =>
      match name a with
      | Some nm => if strstr nm pat then central p else F32.zero
      | None => F32.zero
      end
  | _ => F32.zero
  end.

(** Element [i] of the meta transform of level [level]:
    [x * (1.0f + level * 0.2f) * (1.0f + 0.1f * sinf(i * level * 0.01f))],
    where [i * level] is the [int] product. *)
Definition meta_value (sinf : float -> float) (level : Z) (x : float) (i : Z)
    : float :=
  F32.mul (F32.mul x (F32.add F32.one (F32.mul (F32.of_int level) F32.c0_2)))
          (F32.add F32.one
             (F32.mul F32.c0_1
                (sinf (F32.mul (F32.of_int (to_int (i * level))) F32.c0_01)))).

(** * Properties *)

(** The sample inputs are laid out as the code lays tensors and
    hypergraphs out. *)
Ltac sample_tensor_wf :=
  unfold tensor_wf; cbn; unfold INT_MAX;
  repeat split; try lia; eexists; split; reflexivity.

Ltac sample_hypergraph_wf :=
  unfold hypergraph_wf; cbn; rewrite ?length_replicate; unfold INT_MAX; lia.

(** ** Exact cases of binary32 rounding *)

Section Rounding.
Variables prec emax : Z.

Lemma digits2_pos_iter_xO (m k : positive) :
  Zpos (digits2_pos (Pos.iter xO m k)) = Zpos (digits2_pos m) + Zpos k.
Proof.
  induction k as [|k IH] using Pos.peano_ind.
  - simpl. lia.
  - rewrite Pos.iter_succ. simpl. lia.
Qed.

Lemma shr_1_iter_xO (k m : positive) :
  SpecFloat.iter_pos shr_1 k (Build_shr_record (Zpos (Pos.iter xO m k)) false false)
  = Build_shr_record (Zpos m) false false.
Proof.
  revert m. induction k as [k IH|k IH|]; intros m; simpl.
  - rewrite IH, IH. reflexivity.
  - rewrite IH, IH. reflexivity.
  - reflexivity.
Qed.

(** A mantissa that is already canonical is left alone. *)
Lemma binary_round_aux_canonical (s : bool) (m : positive) (e : Z) :
  canonical_mantissa prec emax m e = true ->
  binary_round_aux prec emax s (Zpos m) e loc_Exact
  = if e <=? emax - prec then S754_finite s m e else S754_infinity s.
Proof.
  intros Hc. apply Z.eqb_eq in Hc.
  unfold binary_round_aux, shr_fexp. simpl Zdigits2.
  rewrite Hc, Z.sub_diag. simpl.
  rewrite Hc, Z.sub_diag. simpl. reflexivity.
Qed.

(** Trailing zero bits in front of a canonical mantissa are shifted
    out without loss. *)
Lemma binary_round_aux_shifted (s : bool) (m k : positive) (e : Z) :
  canonical_mantissa prec emax m e = true ->
  binary_round_aux prec emax s (Zpos (Pos.iter xO m k)) (e - Zpos k) loc_Exact
  = if e <=? emax - prec then S754_finite s m e else S754_infinity s.
Proof.
  intros Hc. pose proof Hc as Hc'. apply Z.eqb_eq in Hc'.
  unfold binary_round_aux at 1. unfold shr_fexp at 1.
  unfold Zdigits2 at 1. rewrite digits2_pos_iter_xO.
  replace (Zpos (digits2_pos m) + Zpos k + (e - Zpos k))
    with (Zpos (digits2_pos m) + e) by lia.
  rewrite Hc'.
  replace (e - (e - Zpos k)) with (Zpos k) by lia.
  unfold shr_record_of_loc, shr. rewrite shr_1_iter_xO.
  replace (e - Zpos k + Zpos k) with e by lia.
  cbn [shr_m loc_of_shr_record round_nearest_even].
  unfold shr_fexp, Zdigits2. rewrite Hc', Z.sub_diag. reflexivity.
Qed.
End Rounding.

Lemma compare_cont_antisym (p q : positive) :
  PosDef.Pos.compare_cont Eq q p = CompOpp (PosDef.Pos.compare_cont Eq p q).
Proof. exact (Pos.compare_antisym p q). Qed.

Lemma valid_finite (s : bool) (m : positive) (e : Z) :
  F32.valid (S754_finite s m e) = true ->
  canonical_mantissa F32.prec F32.emax m e = true /\ e <= 104.
Proof.
  unfold F32.valid, valid_binary, bounded. intros H.
  apply andb_true_iff in H as [Hc He]. split; [exact Hc|].
  apply Z.leb_le in He. unfold F32.emax, F32.prec in He. lia.
Qed.

(** Multiplying a binary32 value by [1.0f] returns it. *)
Lemma mul_one_r (x : float) : F32.valid x = true -> F32.mul x F32.one = x.
Proof.
  destruct x as [s|s| |s m e]; intros Hv; try reflexivity; try (destruct s; reflexivity).
  apply valid_finite in Hv as [Hc He].
  unfold F32.mul, F32.one, SFmul.
  change 8388608%positive with (Pos.iter xO 1%positive 23).
  replace (m * Pos.iter xO 1 23)%positive with (Pos.iter xO m 23)
    by (rewrite Pos.mul_comm; reflexivity).
  replace (e + -23) with (e - 23) by lia.
  rewrite (binary_round_aux_shifted F32.prec F32.emax (xorb s false) m 23 e Hc).
  rewrite xorb_false_r.
  replace (e <=? F32.emax - F32.prec) with true; [reflexivity|].
  symmetry. apply Z.leb_le. unfold F32.emax, F32.prec. lia.
Qed.

Lemma mul_one_l (x : float) : F32.valid x = true -> F32.mul F32.one x = x.
Proof.
  destruct x as [s|s| |s m e]; intros Hv; try reflexivity; try (destruct s; reflexivity).
  apply valid_finite in Hv as [Hc He].
  unfold F32.mul, F32.one, SFmul.
  change (8388608 * m)%positive with (Pos.iter xO m 23).
  replace (-23 + e) with (e - 23) by lia.
  rewrite (binary_round_aux_shifted F32.prec F32.emax (xorb false s) m 23 e Hc).
  rewrite xorb_false_l.
  replace (e <=? F32.emax - F32.prec) with true; [reflexivity|].
  symmetry. apply Z.leb_le. unfold F32.emax, F32.prec. lia.
Qed.

(** [(w + w) * 0.5f] is [w], unless the sum overflows. *)
Lemma double_half (s : bool) (m : positive) (e : Z) :
  F32.valid (S754_finite s m e) = true ->
  F32.mul (F32.add (S754_finite s m e) (S754_finite s m e)) F32.half
  = if (e <? 104) || (Zpos (digits2_pos m) <? 24) then S754_finite s m e else S754_infinity s.
Proof.
  intros Hv. apply valid_finite in Hv as [Hc He].
  pose proof Hc as Hc'. apply Z.eqb_eq in Hc'.
  unfold fexp, emin, F32.prec, F32.emax in Hc'.
  unfold F32.add, SFadd.
  rewrite Z.min_id. unfold shl_align. rewrite Z.sub_diag. cbn [fst].
  assert (Hsum : cond_Zopp s (Zpos m) + cond_Zopp s (Zpos m)
                 = cond_Zopp s (Zpos (Pos.iter xO m 1))).
  { destruct s; unfold cond_Zopp;
      change (Pos.iter xO m 1) with (m~0)%positive; lia. }
  rewrite Hsum.
  assert (Hnorm : binary_normalize F32.prec F32.emax
                    (cond_Zopp s (Zpos (Pos.iter xO m 1))) e false
                  = binary_round F32.prec F32.emax s (Pos.iter xO m 1) e).
  { destruct s; reflexivity. }
  rewrite Hnorm. unfold binary_round.
  rewrite digits2_pos_iter_xO.
  assert (Hal : shl_align (Pos.iter xO m 1) e
                  (fexp F32.prec F32.emax (Zpos (digits2_pos m) + 1 + e))
                = (Pos.iter xO m 1, e)).
  { unfold shl_align.
    destruct (fexp F32.prec F32.emax (Zpos (digits2_pos m) + 1 + e) - e) eqn:E;
      try reflexivity.
    exfalso. unfold fexp, emin, F32.prec, F32.emax in E. lia. }
  rewrite Hal.
  destruct (Z.ltb_spec (Zpos (digits2_pos m)) 24) as [Hd|Hd].
  - (* subnormal: the doubled mantissa is canonical at the same exponent *)
    rewrite orb_true_r.
    assert (Hc2 : canonical_mantissa F32.prec F32.emax (Pos.iter xO m 1) e = true).
    { unfold canonical_mantissa. rewrite digits2_pos_iter_xO. apply Z.eqb_eq.
      unfold fexp, emin, F32.prec, F32.emax. lia. }
    rewrite (binary_round_aux_canonical _ _ s _ e Hc2).
    replace (e <=? F32.emax - F32.prec) with true
      by (symmetry; apply Z.leb_le; unfold F32.emax, F32.prec; lia).
    unfold F32.mul, F32.half, SFmul.
    replace (Pos.iter xO m 1 * 8388608)%positive with (Pos.iter xO m 24)
      by (rewrite Pos.mul_comm; reflexivity).
    replace (e + -24) with (e - 24) by lia.
    rewrite (binary_round_aux_shifted F32.prec F32.emax (xorb s false) m 24 e Hc).
    rewrite xorb_false_r.
    replace (e <=? F32.emax - F32.prec) with true
      by (symmetry; apply Z.leb_le; unfold F32.emax, F32.prec; lia).
    reflexivity.
  - (* normal: the sum has the same mantissa at the next exponent *)
    rewrite orb_false_r.
    assert (Hc2 : canonical_mantissa F32.prec F32.emax m (e + 1) = true).
    { unfold canonical_mantissa. apply Z.eqb_eq.
      unfold fexp, emin, F32.prec, F32.emax. lia. }
    replace e with (e + 1 - 1) at 1 by lia.
    rewrite (binary_round_aux_shifted F32.prec F32.emax s m 1 (e + 1) Hc2).
    unfold F32.emax, F32.prec.
    destruct (Z.ltb_spec e 104) as [Hlt|Hge].
    + replace (e + 1 <=? 128 - 24) with true by (symmetry; apply Z.leb_le; lia).
      unfold F32.mul, F32.half, SFmul.
      replace (m * 8388608)%positive with (Pos.iter xO m 23)
        by (rewrite Pos.mul_comm; reflexivity).
      replace (e + 1 + -24) with (e - 23) by lia.
      rewrite (binary_round_aux_shifted F32.prec F32.emax (xorb s false) m 23 e Hc).
      rewrite xorb_false_r.
      replace (e <=? F32.emax - F32.prec) with true
        by (symmetry; apply Z.leb_le; unfold F32.emax, F32.prec; lia).
      reflexivity.
    + replace (e + 1 <=? 128 - 24) with false by (symmetry; apply Z.leb_gt; lia).
      simpl. rewrite xorb_false_r. reflexivity.
Qed.

(** ** Integer conversions and products within [int] *)

Lemma to_int_small (z : Z) : 0 <= z <= INT_MAX -> to_int z = z.
Proof.
  unfold to_int, INT_MAX. intros H.
  rewrite Z.mod_small by lia. lia.
Qed.

Lemma to_size_t_small (z : Z) : 0 <= z <= INT_MAX -> to_size_t z = z.
Proof.
  unfold to_size_t, INT_MAX. intros H. apply Z.mod_small. lia.
Qed.

Lemma square_bound (n : Z) : 0 <= n -> n * n <= INT_MAX -> n <= INT_MAX.
Proof. unfold INT_MAX. intros. nia. Qed.

Lemma ggml_new_tensor_2d_small (ty n0 n1 : Z) :
  0 <= n0 * n1 <= INT_MAX ->
  ggml_new_tensor_2d ty n0 n1
  = Some {| ne0 := n0; ne1 := n1; ne2 := 1; ne3 := 1;
            data := Some (replicate (Z.to_nat (n0 * n1)) F32.zero);
            type := ty |}.
Proof.
  intros H. unfold ggml_new_tensor_2d. rewrite to_int_small by exact H.
  destruct (Z.ltb_spec (n0 * n1) 0) as [Hneg|_]; [lia|reflexivity].
Qed.

Lemma data_size_small (n0 n1 : Z) :
  0 <= n0 * n1 <= INT_MAX -> data_size n0 n1 = n0 * n1 * 4.
Proof.
  intros H. unfold data_size. rewrite to_int_small by exact H.
  unfold to_size_t, INT_MAX in *.
  rewrite (Z.mod_small (n0 * n1)) by lia. apply Z.mod_small. lia.
Qed.

Lemma zero_tensor_small (ty n0 n1 : Z) :
  0 <= n0 * n1 <= INT_MAX ->
  zero_tensor ty n0 n1
  = {| ne0 := n0; ne1 := n1; ne2 := 1; ne3 := 1;
       data := Some (replicate (Z.to_nat (n0 * n1)) F32.zero); type := ty |}.
Proof.
  intros H. unfold zero_tensor. rewrite data_size_small by exact H.
  rewrite Z.div_mul by lia. reflexivity.
Qed.

(** ** Buffers and loops *)

Lemma load_lookup {A} (buf : list A) (i : Z) (x : A) :
  0 <= i -> buf !! Z.to_nat i = Some x -> load buf i = Ret x.
Proof.
  intros Hi Hx. unfold load.
  destruct (Z.leb_spec 0 i); [|lia]. rewrite Hx. reflexivity.
Qed.

Lemma load_in_range {A} (buf : list A) (i : Z) :
  0 <= i < Z.of_nat (length buf) ->
  exists x, buf !! Z.to_nat i = Some x /\ load buf i = Ret x.
Proof.
  intros Hi.
  destruct (lookup_lt_is_Some_2 buf (Z.to_nat i)) as [x Hx]; [lia|].
  exists x. split; [exact Hx|]. apply load_lookup; [lia|exact Hx].
Qed.

Lemma store_in_range {A} (buf : list A) (i : Z) (x : A) :
  0 <= i < Z.of_nat (length buf) ->
  store buf i x = Ret (<[Z.to_nat i := x]> buf).
Proof.
  intros Hi. unfold store.
  destruct (Z.leb_spec 0 i); [|lia].
  destruct (Z.ltb_spec i (Z.of_nat (length buf))); [|lia]. reflexivity.
Qed.

(** A loop whose body computes [g] on every state that satisfies the
    invariant is the left fold of [g] over the indices it visits. *)
Lemma for_loop_foldl {S} (Inv : Z -> S -> Prop) (g : S -> Z -> S)
    (n : nat) (lo : Z) (body : Z -> S -> outcome S) (s : S) :
  Inv lo s ->
  (forall i s, lo <= i < lo + Z.of_nat n -> Inv i s ->
               body i s = Ret (g s i) /\ Inv (i + 1) (g s i)) ->
  for_loop n lo (fun _ => true) body s = Ret (foldl g s (seqZ lo (Z.of_nat n)))
  /\ Inv (lo + Z.of_nat n) (foldl g s (seqZ lo (Z.of_nat n))).
Proof.
  revert lo s. induction n as [|n IH]; intros lo s Hs Hbody.
  - simpl. rewrite Z.add_0_r. split; [reflexivity|exact Hs].
  - destruct (Hbody lo s ltac:(lia) Hs) as [Hb Hi].
    rewrite seqZ_cons by lia. cbn [for_loop foldl]. rewrite Hb. cbn [bind].
    replace (Z.pred (Z.of_nat (Datatypes.S n))) with (Z.of_nat n) by lia.
    replace (lo + Z.of_nat (Datatypes.S n)) with (Z.succ lo + Z.of_nat n) by lia.
    replace (lo + 1) with (Z.succ lo) by lia.
    apply IH.
    + replace (Z.succ lo) with (lo + 1) by lia. exact Hi.
    + intros i s' Hr. apply Hbody. lia.
Qed.

Lemma for_range_foldl {S} (Inv : Z -> S -> Prop) (g : S -> Z -> S)
    (lo hi : Z) (body : Z -> S -> outcome S) (s : S) :
  lo <= hi ->
  Inv lo s ->
  (forall i s, lo <= i < hi -> Inv i s ->
               body i s = Ret (g s i) /\ Inv (i + 1) (g s i)) ->
  for_range lo hi body s = Ret (foldl g s (seqZ lo (hi - lo)))
  /\ Inv hi (foldl g s (seqZ lo (hi - lo))).
Proof.
  intros Hle Hs Hbody. unfold for_range, for_while.
  destruct (for_loop_foldl Inv g (Z.to_nat (hi - lo)) lo body s Hs) as [H1 H2].
  - intros i s' Hr. apply Hbody. lia.
  - rewrite Z2Nat.id in H1, H2 by lia.
    replace (lo + (hi - lo)) with hi in H2 by lia. split; assumption.
Qed.

Lemma filter_none {A} (P : A -> Prop) `{forall x, Decision (P x)} (l : list A) :
  Forall (fun x => ~ P x) l -> filter P l = [].
Proof.
  induction 1 as [|x l Hx Hl IH]; [reflexivity|].
  rewrite filter_cons_False by exact Hx. exact IH.
Qed.

(** The same for a loop with a second exit condition that, once false,
    stays false: the fold visits the indices that satisfy it. *)
Lemma for_loop_filter_foldl {S} (g : S -> Z -> S) (extra : Z -> bool)
    (n : nat) (lo : Z) (body : Z -> S -> outcome S) (s : S) :
  (forall i i', i <= i' -> extra i = false -> extra i' = false) ->
  (forall i s, lo <= i < lo + Z.of_nat n -> extra i = true ->
               body i s = Ret (g s i)) ->
  for_loop n lo extra body s
  = Ret (foldl g s (filter (fun i => extra i = true) (seqZ lo (Z.of_nat n)))).
Proof.
  intros Hmono. revert lo s. induction n as [|n IH]; intros lo s Hbody.
  - reflexivity.
  - rewrite seqZ_cons by lia. cbn [for_loop].
    replace (Z.pred (Z.of_nat (Datatypes.S n))) with (Z.of_nat n) by lia.
    destruct (extra lo) eqn:E.
    + rewrite filter_cons_True by exact E. cbn [foldl].
      rewrite (Hbody lo s) by (lia || exact E). cbn [bind].
      replace (lo + 1) with (Z.succ lo) by lia.
      apply IH. intros i s' Hr. apply Hbody. lia.
    + rewrite filter_cons_False by congruence.
      replace (filter (fun i => extra i = true) (seqZ (Z.succ lo) (Z.of_nat n)))
        with (@nil Z); [reflexivity|].
      symmetry. apply filter_none. apply Forall_seqZ. intros i Hi.
      rewrite (Hmono lo i) by (lia || exact E). congruence.
Qed.

(** *** Loops that do not run, and loops that fault *)

Lemma for_range_empty {S} (lo hi : Z) (body : Z -> S -> outcome S) (s : S) :
  hi <= lo -> for_range lo hi body s = Ret s.
Proof.
  intros H. unfold for_range, for_while.
  replace (Z.to_nat (hi - lo)) with O by lia. reflexivity.
Qed.

(** A pass that faults makes the loop fault. *)
Lemma for_loop_fault {S} (n : nat) (lo i : Z) (body : Z -> S -> outcome S) (s : S) :
  lo <= i < lo + Z.of_nat n ->
  (forall s, body i s = Fault) ->
  for_loop n lo (fun _ => true) body s = Fault.
Proof.
  intros Hi Hb. revert lo s Hi. induction n as [|n IH]; intros lo s Hi; [lia|].
  cbn [for_loop]. destruct (decide (lo = i)) as [->|Hne].
  - rewrite Hb. reflexivity.
  - destruct (body lo s) as [s'|]; [|reflexivity]. cbn [bind]. apply IH. lia.
Qed.

(** *** Folds of stores *)

Section FoldInsert.
Context {K A : Type} (idx : K -> nat) (f : K -> A).

Lemma foldl_put_length (ks : list K) (r : list A) :
  length (foldl (put idx f) r ks) = length r.
Proof.
  revert r. induction ks as [|k ks IH]; intros r; [reflexivity|].
  cbn [foldl]. rewrite IH. apply length_insert.
Qed.

Lemma foldl_put_other (ks : list K) (r : list A) (p : nat) :
  (forall k, k ∈ ks -> idx k <> p) -> foldl (put idx f) r ks !! p = r !! p.
Proof.
  revert r. induction ks as [|k ks IH]; intros r Hp; [reflexivity|].
  cbn [foldl]. rewrite IH.
  - apply list_lookup_insert_ne. apply Hp. left.
  - intros k' Hk'. apply Hp. right. exact Hk'.
Qed.

Lemma foldl_put_lookup (ks : list K) (r : list A) (k : K) :
  k ∈ ks -> (idx k < length r)%nat ->
  (forall k', k' ∈ ks -> idx k' = idx k -> f k' = f k) ->
  foldl (put idx f) r ks !! idx k = Some (f k).
Proof.
  induction ks as [|x ks IH] using rev_ind; intros Hin Hlen Hsame.
  - inversion Hin.
  - rewrite foldl_snoc. unfold put at 1.
    destruct (decide (idx x = idx k)) as [E|E].
    + rewrite E, list_lookup_insert_eq by (rewrite foldl_put_length; exact Hlen).
      f_equal. apply Hsame; [|exact E]. apply elem_of_app. right. left.
    + rewrite list_lookup_insert_ne by exact E.
      apply IH; [|exact Hlen|].
      * apply elem_of_app in Hin as [Hin|Hin]; [exact Hin|].
        apply list_elem_of_singleton in Hin. subst. congruence.
      * intros k' Hk'. apply Hsame. apply elem_of_app. left. exact Hk'.
Qed.
End FoldInsert.

Lemma load_at {A} (dflt : A) (buf : list A) (i : Z) :
  0 <= i < Z.of_nat (length buf) -> load buf i = Ret (at_ dflt buf i).
Proof.
  intros Hi. destruct (load_in_range buf i Hi) as (x & Hx & Hl).
  unfold at_. rewrite Hx. exact Hl.
Qed.

(** Storing [f i] at every index [i] of a range overwrites the range. *)
Lemma foldl_put_seqZ {A} (f : Z -> A) (lo n : Z) (r : list A) :
  0 <= lo -> 0 <= n -> lo + n <= Z.of_nat (length r) ->
  foldl (put Z.to_nat f) r (seqZ lo n)
  = take (Z.to_nat lo) r ++ (f <$> seqZ lo n) ++ drop (Z.to_nat (lo + n)) r.
Proof.
  intros Hlo Hn Hlen. apply list_eq. intros p.
  destruct (decide (p < Z.to_nat lo)%nat) as [H1|H1].
  - rewrite foldl_put_other.
    + rewrite lookup_app_l by (rewrite length_take; lia).
      rewrite lookup_take_lt by lia. reflexivity.
    + intros k Hk. apply elem_of_seqZ in Hk. lia.
  - destruct (decide (p < Z.to_nat (lo + n))%nat) as [H2|H2].
    + replace p with (Z.to_nat (Z.of_nat p)) at 1 by lia.
      rewrite foldl_put_lookup.
      * rewrite lookup_app_r by (rewrite length_take; lia).
        rewrite length_take.
        rewrite lookup_app_l by (rewrite length_fmap, length_seqZ; lia).
        rewrite list_lookup_fmap, lookup_seqZ_lt by lia. cbn.
        f_equal. f_equal. lia.
      * apply elem_of_seqZ. lia.
      * lia.
      * intros k' Hk' E. apply elem_of_seqZ in Hk'. f_equal. lia.
    + rewrite foldl_put_other.
      * rewrite lookup_app_r by (rewrite length_take; lia).
        rewrite lookup_app_r
          by (rewrite length_take, length_fmap, length_seqZ; lia).
        rewrite lookup_drop, length_take, length_fmap, length_seqZ.
        f_equal. lia.
      * intros k Hk. apply elem_of_seqZ in Hk. lia.
Qed.

(** ** Elementwise kernels *)

Lemma elementwise_zip (op : float -> float -> float) (a_data b_data r : list float)
    (size : Z) :
  0 <= size ->
  Z.of_nat (length r) = size ->
  size <= Z.of_nat (length a_data) ->
  size <= Z.of_nat (length b_data) ->
  elementwise op a_data b_data size r
  = Ret (zip_with op (take (Z.to_nat size) a_data) (take (Z.to_nat size) b_data)).
Proof.
  intros Hs Hr Ha Hb. unfold elementwise.
  set (f := fun i => op (at_ F32.zero a_data i) (at_ F32.zero b_data i)).
  destruct (for_range_foldl (fun _ r' => length r' = length r)
              (put Z.to_nat f) 0 size
              (fun i result_data =>
                 x <- load a_data i ;; y <- load b_data i ;;
                 store result_data i (op x y)) r) as [Hrun _];
    [lia|reflexivity| |].
  - intros i r' Hi Hlen.
    rewrite (load_at F32.zero a_data i), (load_at F32.zero b_data i) by lia.
    cbn [bind]. rewrite store_in_range by lia.
    split; [reflexivity|]. unfold put. rewrite length_insert. exact Hlen.
  - rewrite Hrun. f_equal. rewrite Z.sub_0_r.
    rewrite foldl_put_seqZ by lia.
    rewrite take_0, drop_ge by lia. rewrite app_nil_r. cbn [app].
    apply list_eq. intros p.
    rewrite list_lookup_fmap, lookup_zip_with.
    destruct (decide (p < Z.to_nat size)%nat) as [Hp|Hp].
    + rewrite lookup_seqZ_lt by lia. rewrite !lookup_take_lt by lia.
      destruct (lookup_lt_is_Some_2 a_data p) as [x Hx]; [lia|].
      destruct (lookup_lt_is_Some_2 b_data p) as [y Hy]; [lia|].
      rewrite Hx, Hy. cbn. unfold f, at_.
      replace (Z.to_nat (0 + Z.of_nat p)) with p by lia.
      rewrite Hx, Hy. reflexivity.
    + rewrite lookup_seqZ_ge by lia. rewrite !lookup_take_ge by lia. reflexivity.
Qed.

Lemma pointwise_seqZ_zip (op : float -> float -> float) (a_data b_data : list float)
    (size : Z) :
  0 <= size ->
  size <= Z.of_nat (length a_data) ->
  size <= Z.of_nat (length b_data) ->
  pointwise op a_data b_data <$> seqZ 0 size
  = zip_with op (take (Z.to_nat size) a_data) (take (Z.to_nat size) b_data).
Proof.
  intros Hs Ha Hb. apply list_eq. intros p.
  rewrite list_lookup_fmap, lookup_zip_with.
  destruct (decide (p < Z.to_nat size)%nat) as [Hp|Hp].
  - rewrite lookup_seqZ_lt by lia. rewrite !lookup_take_lt by lia.
    destruct (lookup_lt_is_Some_2 a_data p) as [x Hx]; [lia|].
    destruct (lookup_lt_is_Some_2 b_data p) as [y Hy]; [lia|].
    rewrite Hx, Hy. cbn. unfold pointwise, at_.
    replace (Z.to_nat (0 + Z.of_nat p)) with p by lia.
    rewrite Hx, Hy. reflexivity.
  - rewrite lookup_seqZ_ge by lia. rewrite !lookup_take_ge by lia. reflexivity.
Qed.

Lemma for_step_loop_inv {S} (Inv : Z -> S -> Prop) (step hi : Z)
    (body : Z -> S -> outcome S) (n : nat) (lo : Z) (s : S) :
  0 < step -> (step | hi - lo) -> lo <= hi -> hi - lo <= Z.of_nat n ->
  Inv lo s ->
  (forall i s, lo <= i < hi -> (step | hi - i) -> Inv i s ->
               exists s', body i s = Ret s' /\ Inv (i + step) s') ->
  exists s', for_step_loop n lo step hi body s = Ret s' /\ Inv hi s'.
Proof.
  intros Hstep. revert lo s.
  induction n as [|n IH]; intros lo s Hdiv Hle Hfuel Hs Hbody.
  - exists s. split; [reflexivity|]. replace hi with lo by lia. exact Hs.
  - cbn [for_step_loop]. destruct (Z.ltb_spec lo hi) as [Hlt|Hge].
    + destruct (Hbody lo s ltac:(lia) Hdiv Hs) as (s' & Hb & Hs').
      rewrite Hb. cbn [bind].
      assert (step <= hi - lo) by (apply Z.divide_pos_le; [lia|exact Hdiv]).
      assert (Hdiv' : (step | hi - (lo + step))).
      { replace (hi - (lo + step)) with (hi - lo - step) by lia.
        apply Z.divide_sub_r; [exact Hdiv|apply Z.divide_refl]. }
      apply IH; [exact Hdiv'|lia|lia|exact Hs'|].
      intros i s0 Hi. apply Hbody. lia.
    + exists s. split; [reflexivity|]. replace hi with lo by lia. exact Hs.
Qed.

Lemma load_lanes_at (buf : list float) (n : nat) (i : Z) :
  0 <= i -> i + Z.of_nat n <= Z.of_nat (length buf) ->
  load_lanes n buf i = Ret (at_ F32.zero buf <$> seqZ i (Z.of_nat n)).
Proof.
  revert i. induction n as [|n IH]; intros i Hi Hlen; [reflexivity|].
  cbn [load_lanes]. rewrite (load_at F32.zero) by lia. cbn [bind].
  rewrite IH by lia. cbn [bind]. rewrite (seqZ_cons i) by lia.
  replace (Z.pred (Z.of_nat (Datatypes.S n))) with (Z.of_nat n) by lia.
  replace (Z.succ i) with (i + 1) by lia. reflexivity.
Qed.

Lemma mm256_store_ps_put (g : Z -> float) (n : nat) (r : list float) (i : Z) :
  0 <= i -> i + Z.of_nat n <= Z.of_nat (length r) ->
  mm256_store_ps r i (g <$> seqZ i (Z.of_nat n))
  = Ret (foldl (put Z.to_nat g) r (seqZ i (Z.of_nat n))).
Proof.
  revert r i. induction n as [|n IH]; intros r i Hi Hlen; [reflexivity|].
  rewrite (seqZ_cons i) by lia.
  replace (Z.pred (Z.of_nat (Datatypes.S n))) with (Z.of_nat n) by lia.
  replace (Z.succ i) with (i + 1) by lia.
  cbn [fmap list_fmap mm256_store_ps foldl].
  rewrite store_in_range by lia. cbn [bind].
  apply IH; [lia|]. unfold put. rewrite length_insert. lia.
Qed.

Lemma aligned_lane (addr i : Z) :
  addr mod 32 = 0 -> (8 | i) -> ((addr + 4 * i) mod 32 =? 0) = true.
Proof.
  intros Ha [q ->]. apply Z.eqb_eq.
  replace (addr + 4 * (q * 8)) with (addr + q * 32) by lia.
  rewrite Z_mod_plus_full. exact Ha.
Qed.

(** The vectorised loops compute what the scalar loop computes, on
    operands that are aligned when the vectorised loop runs at all. *)
Lemma elementwise_simd_zip (op : float -> float -> float) (a_addr b_addr : Z)
    (a_data b_data r : list float) (size : Z) :
  0 <= size ->
  Z.of_nat (length r) = size ->
  size <= Z.of_nat (length a_data) ->
  size <= Z.of_nat (length b_data) ->
  (8 <= size -> a_addr mod 32 = 0 /\ b_addr mod 32 = 0) ->
  elementwise_simd op a_addr b_addr a_data b_data size r
  = Ret (zip_with op (take (Z.to_nat size) a_data) (take (Z.to_nat size) b_data)).
Proof.
  intros Hs Hr Ha Hb Hal. unfold elementwise_simd.
  set (f := pointwise op a_data b_data).
  set (simd_size := size - Z.rem size 8).
  assert (Hrem : 0 <= Z.rem size 8 < 8) by (apply Z.rem_bound_pos; lia).
  assert (Hdiv : (8 | simd_size)).
  { unfold simd_size. rewrite Z.rem_mod_nonneg by lia.
    exists (size / 8). pose proof (Z.div_mod size 8). lia. }
  assert (Hsimd : 0 <= simd_size <= size).
  { unfold simd_size. rewrite Z.rem_mod_nonneg by lia.
    pose proof (Z.mod_le size 8). pose proof (Z.mod_pos_bound size 8). lia. }
  destruct (for_step_loop_inv
              (fun i r' => r' = foldl (put Z.to_nat f) r (seqZ 0 i)) 8 simd_size
              (fun i result_data =>
                 va <- mm256_load_ps a_addr a_data i ;;
                 vb <- mm256_load_ps b_addr b_data i ;;
                 mm256_store_ps result_data i (zip_with op va vb))
              (Z.to_nat (simd_size - 0)) 0 r) as (r1 & Hrun1 & Hr1);
    [lia|rewrite Z.sub_0_r; exact Hdiv|lia|lia|reflexivity| |].
  - intros i r' Hi Hdivi ->.
    assert (i + 8 <= simd_size).
    { assert (8 <= simd_size - i) by (apply Z.divide_pos_le; [lia|exact Hdivi]). lia. }
    assert (Hi8 : (8 | i)).
    { replace i with (simd_size - (simd_size - i)) by lia.
      apply Z.divide_sub_r; assumption. }
    destruct Hal as [Haa Hab]; [lia|].
    unfold mm256_load_ps. rewrite !aligned_lane by assumption.
    rewrite !(load_lanes_at _ 8) by lia. cbn [bind].
    rewrite zip_with_fmap_l, zip_with_fmap_r, zip_with_diag.
    eexists. split.
    + apply (mm256_store_ps_put f 8); [lia|]. rewrite foldl_put_length. lia.
    + rewrite <- foldl_app. f_equal.
      rewrite (seqZ_app 0 i 8) by lia. reflexivity.
  - unfold for_step. rewrite Hrun1. cbn [bind]. subst r1.
    destruct (for_range_foldl
                (fun i r' => length r' = length r)
                (put Z.to_nat f) simd_size size
                (fun i result_data =>
                   x <- load a_data i ;; y <- load b_data i ;;
                   store result_data i (op x y))
                (foldl (put Z.to_nat f) r (seqZ 0 simd_size))) as [Hrun2 _];
      [lia|apply foldl_put_length| |].
    + intros i r' Hi Hlen.
      rewrite (load_at F32.zero a_data i), (load_at F32.zero b_data i) by lia.
      cbn [bind]. rewrite store_in_range by lia.
      split; [reflexivity|]. unfold put. rewrite length_insert. exact Hlen.
    + rewrite Hrun2. f_equal. rewrite <- foldl_app.
      replace (seqZ 0 simd_size ++ seqZ simd_size (size - simd_size))
        with (seqZ 0 size)
        by (rewrite <- (seqZ_app 0) by lia; f_equal; lia).
      rewrite foldl_put_seqZ by lia.
      rewrite take_0, drop_ge by lia. rewrite app_nil_r. cbn [app].
      apply pointwise_seqZ_zip; lia.
Qed.

(** *** Operands that are too short or not aligned *)

Lemma load_outside {A} (buf : list A) (i : Z) :
  Z.of_nat (length buf) <= i -> load buf i = Fault.
Proof.
  intros Hi. unfold load. destruct (0 <=? i); [|reflexivity].
  rewrite lookup_ge_None_2 by lia. reflexivity.
Qed.

(** The scalar loop reads past the end of a buffer that holds fewer than
    [size] floats. *)
Lemma elementwise_fault (op : float -> float -> float)
    (a_data b_data r : list float) (size : Z) :
  Z.of_nat (length a_data) < size \/ Z.of_nat (length b_data) < size ->
  elementwise op a_data b_data size r = Fault.
Proof.
  intros H. unfold elementwise, for_range, for_while.
  apply (for_loop_fault _ 0
           (Z.min (Z.of_nat (length a_data)) (Z.of_nat (length b_data)))); [lia|].
  intros s.
  destruct (Z.le_gt_cases (Z.of_nat (length a_data)) (Z.of_nat (length b_data)))
    as [Hle|Hgt].
  - rewrite (load_outside a_data) by lia. reflexivity.
  - rewrite (load_at F32.zero a_data) by lia. cbn [bind].
    rewrite (load_outside b_data) by lia. reflexivity.
Qed.

Lemma load_lanes_short (buf : list float) (n : nat) (i : Z) :
  0 <= i -> (0 < n)%nat -> Z.of_nat (length buf) < i + Z.of_nat n ->
  load_lanes n buf i = Fault.
Proof.
  revert i. induction n as [|n IH]; intros i Hi Hn Hlen; [lia|].
  cbn [load_lanes].
  destruct (Z.le_gt_cases (Z.of_nat (length buf)) i) as [Hout|Hin].
  - rewrite load_outside by exact Hout. reflexivity.
  - rewrite (load_at F32.zero) by lia. cbn [bind].
    rewrite IH by lia. reflexivity.
Qed.

Lemma for_step_loop_fault {S} (step hi : Z) (body : Z -> S -> outcome S)
    (k n : nat) (lo : Z) (s : S) :
  0 < step -> (k < n)%nat -> lo + Z.of_nat k * step < hi ->
  (forall s, body (lo + Z.of_nat k * step) s = Fault) ->
  for_step_loop n lo step hi body s = Fault.
Proof.
  intros Hstep. revert n lo s. induction k as [|k IH]; intros n lo s Hk Hi Hb.
  - destruct n as [|n]; [lia|]. cbn [for_step_loop].
    destruct (Z.ltb_spec lo hi) as [_|Hge]; [|lia].
    replace (lo + Z.of_nat 0 * step) with lo in Hb by lia.
    rewrite Hb. reflexivity.
  - destruct n as [|n]; [lia|]. cbn [for_step_loop].
    destruct (Z.ltb_spec lo hi) as [_|Hge]; [|nia].
    destruct (body lo s) as [s'|]; [|reflexivity]. cbn [bind].
    replace (lo + Z.of_nat (Datatypes.S k) * step)
      with (lo + step + Z.of_nat k * step) in * by lia.
    apply IH; [lia|exact Hi|exact Hb].
Qed.

(** One pass of the vectorised loop over eight lanes of which one lies
    outside an operand. *)
Lemma simd_pass_short (op : float -> float -> float) (a_addr b_addr : Z)
    (a_data b_data r : list float) (i : Z) :
  0 <= i ->
  Z.of_nat (length a_data) < i + 8 \/ Z.of_nat (length b_data) < i + 8 ->
  (va <- mm256_load_ps a_addr a_data i ;;
   vb <- mm256_load_ps b_addr b_data i ;;
   mm256_store_ps r i (zip_with op va vb)) = Fault.
Proof.
  intros Hi H. unfold mm256_load_ps.
  destruct ((a_addr + 4 * i) mod 32 =? 0); [|reflexivity].
  destruct H as [H|H].
  - rewrite (load_lanes_short a_data 8) by lia. reflexivity.
  - destruct (load_lanes 8 a_data i) as [va|]; [|reflexivity]. cbn [bind].
    destruct ((b_addr + 4 * i) mod 32 =? 0); [|reflexivity].
    rewrite (load_lanes_short b_data 8) by lia. reflexivity.
Qed.

(** The first pass of the vectorised loop on an operand that is not
    aligned. *)
Lemma simd_pass_unaligned (op : float -> float -> float) (a_addr b_addr : Z)
    (a_data b_data r : list float) :
  a_addr mod 32 <> 0 \/ b_addr mod 32 <> 0 ->
  (va <- mm256_load_ps a_addr a_data 0 ;;
   vb <- mm256_load_ps b_addr b_data 0 ;;
   mm256_store_ps r 0 (zip_with op va vb)) = Fault.
Proof.
  intros H. unfold mm256_load_ps. rewrite !Z.mul_0_r, !Z.add_0_r.
  destruct (Z.eqb_spec (a_addr mod 32) 0) as [Ea|_]; [|reflexivity].
  destruct (load_lanes 8 a_data 0) as [va|]; [|reflexivity]. cbn [bind].
  destruct (Z.eqb_spec (b_addr mod 32) 0) as [Eb|_]; [|reflexivity].
  destruct H; contradiction.
Qed.

(** The vectorised kernels read past the end of an operand that holds
    fewer than [size] floats, and fault on an operand of eight floats or
    more that is not aligned. *)
Lemma elementwise_simd_fault (op : float -> float -> float) (a_addr b_addr : Z)
    (a_data b_data r : list float) (size : Z) :
  0 <= size ->
  Z.of_nat (length a_data) < size \/ Z.of_nat (length b_data) < size
  \/ (8 <= size /\ (a_addr mod 32 <> 0 \/ b_addr mod 32 <> 0)) ->
  elementwise_simd op a_addr b_addr a_data b_data size r = Fault.
Proof.
  intros Hs H. unfold elementwise_simd.
  set (simd_size := size - Z.rem size 8).
  assert (Hsimd : simd_size = 8 * (size / 8)).
  { unfold simd_size. rewrite Z.rem_mod_nonneg by lia.
    pose proof (Z.div_mod size 8). lia. }
  pose proof (Z.div_mod size 8 ltac:(lia)) as Hdm.
  pose proof (Z.mod_pos_bound size 8 ltac:(lia)) as Hmod.
  set (L := Z.min (Z.of_nat (length a_data)) (Z.of_nat (length b_data))).
  pose proof (Z.div_mod L 8 ltac:(lia)) as HdmL.
  pose proof (Z.mod_pos_bound L 8 ltac:(lia)) as HmodL.
  assert (HL0 : 0 <= L / 8) by (apply Z.div_pos; lia).
  destruct (Z.le_gt_cases 8 size) as [H8|H8];
    [destruct (Z.eq_dec (a_addr mod 32) 0) as [Ea|Ea];
     [destruct (Z.eq_dec (b_addr mod 32) 0) as [Eb|Eb]|]|].
  2,3: unfold for_step;
       rewrite (for_step_loop_fault 8 simd_size _ 0 _ 0);
       [reflexivity|lia|lia|lia|];
       intros s; apply simd_pass_unaligned; tauto.
  all: assert (HL : L < size) by lia.
  all: destruct (Z.lt_ge_cases L simd_size) as [Hlt|Hge].
  all: try (unfold for_step;
       rewrite (for_step_loop_fault 8 simd_size _ (Z.to_nat (L / 8)) _ 0);
       [reflexivity|lia|lia|lia|];
       intros s; apply simd_pass_short; lia).
  all: destruct (for_step 0 simd_size 8 _ r) as [r1|]; [|reflexivity].
  all: cbn [bind]; unfold for_range, for_while.
  all: apply (for_loop_fault _ simd_size L); [lia|].
  all: intros s.
  all: destruct (Z.le_gt_cases (Z.of_nat (length a_data))
                   (Z.of_nat (length b_data))) as [Hle|Hgt].
  all: try (rewrite (load_outside a_data) by lia; reflexivity).
  all: rewrite (load_at F32.zero a_data) by lia; cbn [bind].
  all: rewrite (load_outside b_data) by lia; reflexivity.
Qed.

(** ** Loops over the cells of a matrix *)

Lemma foldl_bind {A B S} (g : S -> B -> S) (f : A -> list B) (l : list A) (s : S) :
  foldl g s (l ≫= f) = foldl (fun s a => foldl g s (f a)) s l.
Proof.
  revert s. induction l as [|a l IH]; intros s; [reflexivity|].
  cbn. rewrite foldl_app. apply IH.
Qed.

Lemma elem_of_cells (R C i j : Z) :
  (i, j) ∈ cells R C <-> (0 <= i < R /\ 0 <= j < C).
Proof.
  unfold cells. rewrite list_elem_of_bind. split.
  - intros (i' & Hj & Hi). apply elem_of_seqZ in Hi.
    apply list_elem_of_fmap in Hj as (j' & E & Hj). inversion E; subst.
    apply elem_of_seqZ in Hj. lia.
  - intros [Hi Hj]. exists i. split.
    + apply list_elem_of_fmap. exists j. split; [reflexivity|].
      apply elem_of_seqZ. lia.
    + apply elem_of_seqZ. lia.
Qed.

(** Two nested loops over the rows and the columns, whose body computes
    [g] on the states that satisfy the invariant, fold [g] over the cells
    in row-major order. *)
Lemma for_cells_foldl {S} (Inv : S -> Prop) (g : S -> Z * Z -> S) (R C : Z)
    (body : Z -> Z -> S -> outcome S) (s : S) :
  0 <= R -> 0 <= C ->
  Inv s ->
  (forall i j s, 0 <= i < R -> 0 <= j < C -> Inv s ->
                 body i j s = Ret (g s (i, j)) /\ Inv (g s (i, j))) ->
  for_range 0 R (fun i s => for_range 0 C (fun j s => body i j s) s) s
  = Ret (foldl g s (cells R C))
  /\ Inv (foldl g s (cells R C)).
Proof.
  intros HR HC Hs Hbody. unfold cells. rewrite foldl_bind.
  destruct (for_range_foldl (fun _ => Inv)
              (fun s i => foldl g s (pair i <$> seqZ 0 C)) 0 R
              (fun i s => for_range 0 C (fun j s => body i j s) s) s)
    as [Hrun Hinv]; [lia|exact Hs| |].
  - intros i s' Hi Hs'.
    destruct (for_range_foldl (fun _ => Inv) (fun s j => g s (i, j)) 0 C
                (fun j s => body i j s) s') as [Hrun Hinv]; [lia|exact Hs'| |].
    + intros j s'' Hj Hs''. apply Hbody; assumption.
    + rewrite Z.sub_0_r in Hrun, Hinv. rewrite foldl_fmap. split; assumption.
  - rewrite Z.sub_0_r in Hrun, Hinv. split; assumption.
Qed.

(** The row-major index of a cell determines the cell. *)
Lemma row_major_inj (C i j i' j' : Z) :
  0 <= j < C -> 0 <= j' < C -> 0 <= i -> 0 <= i' ->
  i * C + j = i' * C + j' -> i = i' /\ j = j'.
Proof.
  intros Hj Hj' Hi Hi' E.
  assert (i = i'); [|subst; lia].
  destruct (Z.lt_trichotomy i i') as [H|[H|H]]; [|exact H|].
  - assert ((i + 1) * C <= i' * C) by (apply Z.mul_le_mono_nonneg_r; lia). lia.
  - assert ((i' + 1) * C <= i * C) by (apply Z.mul_le_mono_nonneg_r; lia). lia.
Qed.

Lemma row_major_bound (R C i j : Z) :
  0 <= i < R -> 0 <= j < C -> 0 <= i * C + j < R * C.
Proof.
  intros Hi Hj.
  assert ((i + 1) * C <= R * C) by (apply Z.mul_le_mono_nonneg_r; lia).
  assert (0 <= i * C) by (apply Z.mul_nonneg_nonneg; lia). lia.
Qed.

(** A loop nest that stores [f i j] at the row-major index of every cell. *)
Lemma for_cells_store {A} (f : Z -> Z -> A) (R C W : Z)
    (body : Z -> Z -> list A -> outcome (list A)) (r : list A) :
  0 <= R -> 0 <= C -> C <= W -> R * W <= Z.of_nat (length r) ->
  (forall i j r', 0 <= i < R -> 0 <= j < C -> length r' = length r ->
                  body i j r' = store r' (i * W + j) (f i j)) ->
  exists r',
    for_range 0 R (fun i s => for_range 0 C (fun j s => body i j s) s) r = Ret r'
    /\ length r' = length r
    /\ (forall i j, 0 <= i < R -> 0 <= j < C ->
                    r' !! Z.to_nat (i * W + j) = Some (f i j))
    /\ (forall p, (forall i j, 0 <= i < R -> 0 <= j < C -> Z.to_nat (i * W + j) <> p) ->
                  r' !! p = r !! p).
Proof.
  intros HR HC HW Hlen Hbody.
  set (idx := fun c : Z * Z => Z.to_nat (fst c * W + snd c)).
  set (val := fun c : Z * Z => f (fst c) (snd c)).
  destruct (for_cells_foldl (fun r' => length r' = length r) (put idx val) R C body r)
    as [Hrun Hinv]; [lia|lia|reflexivity| |].
  - intros i j r' Hi Hj Hr'. rewrite Hbody by assumption.
    assert (0 <= i * W + j < R * W) by (apply row_major_bound; lia).
    rewrite store_in_range by lia.
    split; [reflexivity|]. unfold put. rewrite length_insert. exact Hr'.
  - eexists. split; [exact Hrun|]. split; [exact Hinv|]. split.
    + intros i j Hi Hj.
      change (Z.to_nat (i * W + j)) with (idx (i, j)).
      change (f i j) with (val (i, j)).
      apply foldl_put_lookup.
      * apply elem_of_cells. lia.
      * unfold idx. cbn [fst snd].
        assert (0 <= i * W + j < R * W) by (apply row_major_bound; lia). lia.
      * intros [i' j'] Hin E. apply elem_of_cells in Hin.
        unfold idx in E. cbn [fst snd] in E.
        assert (0 <= i * W + j < R * W) by (apply row_major_bound; lia).
        assert (0 <= i' * W + j' < R * W) by (apply row_major_bound; lia).
        assert (i' * W + j' = i * W + j) by lia.
        destruct (row_major_inj W i' j' i j) as [-> ->]; [lia..|reflexivity].
    + intros p Hp. apply foldl_put_other.
      intros [i j] Hin. apply elem_of_cells in Hin. apply (Hp i j); lia.
Qed.

(** ** The hypergraph codec *)

Lemma encode_run (h : hypergraph_t) :
  hypergraph_wf h ->
  exists td,
    encode_hypergraph_to_tensor (Some h)
    = Ret (Some {| ne0 := node_count h; ne1 := node_count h; ne2 := 1; ne3 := 1;
                   data := Some td; type := 0 |})
    /\ Z.of_nat (length td) = node_count h * node_count h
    /\ forall i j, 0 <= i < node_count h -> 0 <= j < node_count h ->
                   td !! Z.to_nat (i * node_count h + j) = Some (encode_value h i j).
Proof.
  intros (HN & Hsq & Hnw & Hadj).
  assert (HN' : node_count h <= INT_MAX) by (apply square_bound; assumption).
  unfold encode_hypergraph_to_tensor.
  rewrite to_int_small by lia.
  rewrite ggml_new_tensor_2d_small by nia.
  cbn [buffer data].
  destruct (for_cells_store (encode_value h) (node_count h) (node_count h)
              (node_count h)
              (fun i j tensor_data =>
                 adj_value <- load (adjacency_matrix h) (i * node_count h + j) ;;
                 wi <- load (node_weights h) i ;;
                 wj <- load (node_weights h) j ;;
                 store tensor_data (i * node_count h + j)
                   (F32.mul (F32.of_int adj_value)
                      (F32.mul (F32.add wi wj) F32.half)))
              (replicate (Z.to_nat (node_count h * node_count h)) F32.zero))
    as (td & Hrun & Hlen & Hcells & _);
    [lia|lia|lia|rewrite length_replicate; lia| |].
  - intros i j r' Hi Hj _.
    assert (0 <= i * node_count h + j < node_count h * node_count h)
      by (apply row_major_bound; lia).
    rewrite (load_at 0 (adjacency_matrix h)) by lia. cbn [bind].
    rewrite !(load_at F32.zero (node_weights h)) by lia. cbn [bind].
    reflexivity.
  - exists td. rewrite Hrun. cbn [bind set_data ne0 ne1 ne2 ne3 type].
    split; [reflexivity|]. split; [|exact Hcells].
    rewrite Hlen, length_replicate. lia.
Qed.

Lemma decode_rule_fst (value : Z -> Z -> float) (n : Z) (cs : list (Z * Z))
    (st : list Z * list float) :
  fst (foldl (decode_rule value n) st cs)
  = foldl (put (fun c => Z.to_nat (fst c * n + snd c))
               (fun c => threshold (value (fst c) (snd c)))) (fst st) cs.
Proof.
  revert st. induction cs as [|c cs IH]; intros st; [reflexivity|].
  cbn [foldl]. rewrite IH. reflexivity.
Qed.

Lemma smooth_length (nw : list float) (k : Z) (v : float) :
  length (smooth nw k v) = length nw.
Proof. apply length_insert. Qed.

Lemma decode_rule_lengths (value : Z -> Z -> float) (n : Z)
    (st : list Z * list float) (c : Z * Z) :
  length (fst (decode_rule value n st c)) = length (fst st)
  /\ length (snd (decode_rule value n st c)) = length (snd st).
Proof.
  unfold decode_rule. cbn [fst snd]. split; [apply length_insert|].
  destruct (F32.gtb _ F32.zero); [|reflexivity].
  rewrite !smooth_length. reflexivity.
Qed.

Lemma decode_cell_rule (d : list float) (w n i j : Z) (adj : list Z) (nw : list float) :
  0 <= i * w + j < Z.of_nat (length d) ->
  0 <= i * n + j < Z.of_nat (length adj) ->
  0 <= i < Z.of_nat (length nw) ->
  0 <= j < Z.of_nat (length nw) ->
  decode_cell d w n i j (adj, nw) = Ret (decode_rule (cell d w) n (adj, nw) (i, j)).
Proof.
  intros Hd Hadj Hi Hj. unfold decode_cell, decode_rule, cell. cbn [fst snd].
  rewrite (load_at F32.zero d) by lia. cbn [bind].
  rewrite store_in_range by lia. cbn [bind]. fold (threshold (at_ F32.zero d (i * w + j))).
  destruct (F32.gtb (at_ F32.zero d (i * w + j)) F32.zero); [|reflexivity].
  rewrite (load_at F32.zero nw) by lia. cbn [bind].
  rewrite store_in_range by lia. cbn [bind].
  fold (smooth nw i (at_ F32.zero d (i * w + j))).
  rewrite (load_at F32.zero (smooth nw i _)) by (rewrite smooth_length; lia).
  cbn [bind].
  rewrite store_in_range by (rewrite smooth_length; lia). reflexivity.
Qed.

Lemma decode_run (t : ggml_tensor) (h : hypergraph_t) (d : list float) :
  data t = Some d ->
  hypergraph_wf h ->
  0 <= ne0 t <= INT_MAX ->
  Z.min (node_count h) (ne0 t) <= ne1 t ->
  ne0 t * ne1 t <= Z.of_nat (length d) ->
  let m := Z.min (node_count h) (ne0 t) in
  let st := foldl (decode_rule (cell d (ne1 t)) (node_count h))
                  (adjacency_matrix h, node_weights h) (cells m m) in
  decode_tensor_to_hypergraph (Some t) (Some h)
  = Ret (0, Some (set_graph h (fst st) (snd st)))
  /\ length (fst st) = length (adjacency_matrix h)
  /\ length (snd st) = length (node_weights h).
Proof.
  intros Hd (HN & Hsq & Hnw & Hadj) Hne0 Hne1 Hlen m st.
  unfold decode_tensor_to_hypergraph. rewrite Hd.
  rewrite to_size_t_small by lia.
  replace (if node_count h <? ne0 t then node_count h else ne0 t) with m
    by (unfold m; destruct (Z.ltb_spec (node_count h) (ne0 t)); lia).
  destruct (for_cells_foldl
              (fun s => length (fst s) = length (adjacency_matrix h)
                        /\ length (snd s) = length (node_weights h))
              (decode_rule (cell d (ne1 t)) (node_count h)) m m
              (fun i j s => decode_cell d (ne1 t) (node_count h) i j s)
              (adjacency_matrix h, node_weights h))
    as [Hrun [Hl1 Hl2]]; [lia|lia|split; reflexivity| |].
  - intros i j [adj nw] Hi Hj [Ha Hw]. cbn [fst snd] in Ha, Hw. split.
    + apply decode_cell_rule.
      * assert (0 <= i * ne1 t + j < ne0 t * ne1 t)
          by (apply row_major_bound; lia). lia.
      * assert (0 <= i * node_count h + j < node_count h * node_count h)
          by (apply row_major_bound; lia). lia.
      * lia.
      * lia.
    + destruct (decode_rule_lengths (cell d (ne1 t)) (node_count h) (adj, nw) (i, j))
        as [E1 E2]. cbn [fst snd] in E1, E2. rewrite E1, E2. split; assumption.
  - fold st in Hrun, Hl1, Hl2. rewrite Hrun. cbn [bind].
    split; [reflexivity|]. split; assumption.
Qed.

(** The adjacency entries that the decoder leaves. *)
Lemma decode_adjacency (value : Z -> Z -> float) (n m : Z)
    (adj : list Z) (nw : list float) :
  0 <= m <= n -> Z.of_nat (length adj) = n * n ->
  let adj' := fst (foldl (decode_rule value n) (adj, nw) (cells m m)) in
  (forall i j, 0 <= i < m -> 0 <= j < m ->
               adj' !! Z.to_nat (i * n + j) = Some (threshold (value i j)))
  /\ (forall i j, 0 <= i < n -> 0 <= j < n -> ~ (i < m /\ j < m) ->
                  adj' !! Z.to_nat (i * n + j) = adj !! Z.to_nat (i * n + j)).
Proof.
  intros Hm Hlen adj'. unfold adj'. rewrite decode_rule_fst. cbn [fst]. split.
  - intros i j Hi Hj.
    set (idx := fun c : Z * Z => Z.to_nat (fst c * n + snd c)).
    set (val := fun c : Z * Z => threshold (value (fst c) (snd c))).
    change (Z.to_nat (i * n + j)) with (idx (i, j)).
    change (threshold (value i j)) with (val (i, j)).
    apply foldl_put_lookup.
    + apply elem_of_cells. lia.
    + unfold idx. cbn [fst snd].
      assert (0 <= i * n + j < n * n) by (apply row_major_bound; lia). lia.
    + intros [i' j'] Hin E. apply elem_of_cells in Hin.
      unfold idx in E. cbn [fst snd] in E.
      assert (0 <= i * n + j < n * n) by (apply row_major_bound; lia).
      assert (0 <= i' * n + j' < n * n) by (apply row_major_bound; lia).
      destruct (row_major_inj n i' j' i j) as [-> ->]; [lia..|reflexivity].
  - intros i j Hi Hj Hout. apply foldl_put_other.
    intros [i' j'] Hin E. apply elem_of_cells in Hin. cbn [fst snd] in E.
    assert (0 <= i * n + j < n * n) by (apply row_major_bound; lia).
    assert (0 <= i' * n + j' < n * n) by (apply row_major_bound; lia).
    destruct (row_major_inj n i' j' i j) as [-> ->]; lia.
Qed.

(** ** C1: the round trip of the codec *)

Lemma threshold_absent (y : float) :
  threshold (F32.mul (F32.of_int 0) y) = 0.
Proof.
  unfold threshold. change (F32.of_int 0) with (S754_zero false).
  destruct y as [s|s| |s m e]; try destruct s; reflexivity.
Qed.

Lemma threshold_present (w : float) :
  F32.valid w = true ->
  let v := F32.mul (F32.of_int 1) (F32.mul (F32.add w w) F32.half) in
  (F32.gtb w F32.half = true -> threshold v = 1)
  /\ (F32.leb w F32.half = true -> threshold v = 0).
Proof.
  intros Hv v. unfold v. change (F32.of_int 1) with F32.one.
  destruct w as [s|s| |s m e].
  - split; [discriminate|]. destruct s; reflexivity.
  - destruct s; split; (discriminate || reflexivity).
  - split; discriminate.
  - rewrite double_half by exact Hv.
    destruct ((e <? 104) || (Zpos (digits2_pos m) <? 24)) eqn:E.
    + rewrite mul_one_l by exact Hv. unfold threshold. split.
      * intros ->. reflexivity.
      * unfold F32.leb, F32.gtb, SFleb, SFltb.
        destruct s; [reflexivity|].
        unfold F32.half, SFcompare.
        destruct (e ?= -24) eqn:C;
          rewrite ?(Z.compare_antisym e (-24)), ?C; cbn [CompOpp];
          try discriminate; try reflexivity.
        rewrite (compare_cont_antisym m 8388608).
        destruct (PosDef.Pos.compare_cont Eq m 8388608); cbn [CompOpp];
          (discriminate || reflexivity).
    + apply orb_false_iff in E as [E1 E2].
      apply Z.ltb_ge in E1.
      change (F32.mul F32.one (S754_infinity s)) with (S754_infinity s).
      unfold threshold. destruct s; split; try reflexivity; try discriminate.
      unfold F32.leb, SFleb, F32.half, SFcompare.
      assert (C : (e ?= -24) = Gt) by (apply Z.compare_gt_iff; lia).
      rewrite C. discriminate.
Qed.

Lemma row_major_split (n p : Z) :
  0 <= n -> 0 <= p < n * n ->
  exists i j, 0 <= i < n /\ 0 <= j < n /\ p = i * n + j.
Proof.
  intros Hn Hp. assert (0 < n) by nia.
  exists (p / n), (p mod n).
  pose proof (Z.div_mod p n ltac:(lia)).
  pose proof (Z.mod_pos_bound p n ltac:(lia)).
  assert (0 <= p / n) by (apply Z.div_pos; lia).
  assert (p / n < n) by (apply Z.div_lt_upper_bound; lia).
  lia.
Qed.

(** Decoding an encoded hypergraph thresholds the encoded values. *)
Lemma roundtrip_cells (hg hg2 : hypergraph_t) :
  hypergraph_wf hg -> hypergraph_wf hg2 -> node_count hg2 = node_count hg ->
  exists t hg2',
    encode_hypergraph_to_tensor (Some hg) = Ret (Some t)
    /\ decode_tensor_to_hypergraph (Some t) (Some hg2) = Ret (0, Some hg2')
    /\ Z.of_nat (length (adjacency_matrix hg2')) = node_count hg * node_count hg
    /\ forall i j, 0 <= i < node_count hg -> 0 <= j < node_count hg ->
         adjacency_matrix hg2' !! Z.to_nat (i * node_count hg + j)
         = Some (threshold (encode_value hg i j)).
Proof.
  intros Hwf Hwf2 HN.
  destruct (encode_run hg Hwf) as (td & Henc & Hlen & Hcells).
  pose proof Hwf as (HN0 & Hsq & _ & _).
  pose proof Hwf2 as (_ & _ & _ & Hadj2).
  assert (HN' : node_count hg <= INT_MAX) by (apply square_bound; assumption).
  set (t := {| ne0 := node_count hg; ne1 := node_count hg; ne2 := 1; ne3 := 1;
               data := Some td; type := 0 |}) in *.
  destruct (decode_run t hg2 td eq_refl Hwf2) as (Hdec & Hl1 & _);
    cbn [t ne0 ne1]; [lia|lia|lia|].
  cbn [t ne0 ne1] in Hdec, Hl1. rewrite HN, Z.min_id in Hdec, Hl1.
  eexists t, _. split; [exact Henc|]. split; [exact Hdec|].
  cbn [set_graph adjacency_matrix]. split; [lia|].
  intros i j Hi Hj.
  destruct (decode_adjacency (cell td (node_count hg)) (node_count hg) (node_count hg)
              (adjacency_matrix hg2) (node_weights hg2)) as [Hin _]; [lia|lia|].
  rewrite Hin by assumption. f_equal. f_equal.
  unfold cell, at_. rewrite Hcells by assumption. reflexivity.
Qed.

(** C1. For a hypergraph with 0/1 adjacency whose node weights all equal
    a binary32 value [w], encoding it and decoding the tensor into a
    hypergraph of the same node count reproduces the adjacency matrix when
    [w > 0.5], and yields the all-zero adjacency matrix when [w <= 0.5]. *)
Theorem roundtrip_adjacency (hg hg2 : hypergraph_t) (w : float) :
  hypergraph_wf hg -> hypergraph_wf hg2 -> node_count hg2 = node_count hg ->
  Forall (fun a => a = 0 \/ a = 1) (adjacency_matrix hg) ->
  Forall (fun x => x = w) (node_weights hg) ->
  F32.valid w = true ->
  exists t hg2',
    encode_hypergraph_to_tensor (Some hg) = Ret (Some t)
    /\ decode_tensor_to_hypergraph (Some t) (Some hg2) = Ret (0, Some hg2')
    /\ (F32.gtb w F32.half = true ->
        adjacency_matrix hg2' = adjacency_matrix hg)
    /\ (F32.leb w F32.half = true ->
        adjacency_matrix hg2'
        = replicate (Z.to_nat (node_count hg * node_count hg)) 0).
Proof.
  intros Hwf Hwf2 HN H01 Hw Hv.
  destruct (roundtrip_cells hg hg2 Hwf Hwf2 HN) as (t & hg2' & Henc & Hdec & Hlen & Hcells).
  pose proof Hwf as (HN0 & Hsq & Hnw & Hadj).
  exists t, hg2'. split; [exact Henc|]. split; [exact Hdec|].
  assert (Hval : forall i j, 0 <= i < node_count hg -> 0 <= j < node_count hg ->
            exists a, adjacency_matrix hg !! Z.to_nat (i * node_count hg + j) = Some a
                      /\ (a = 0 \/ a = 1)
                      /\ encode_value hg i j
                         = F32.mul (F32.of_int a) (F32.mul (F32.add w w) F32.half)).
  { intros i j Hi Hj.
    assert (0 <= i * node_count hg + j < node_count hg * node_count hg)
      by (apply row_major_bound; lia).
    destruct (lookup_lt_is_Some_2 (adjacency_matrix hg)
                (Z.to_nat (i * node_count hg + j))) as [a Ha]; [lia|].
    destruct (lookup_lt_is_Some_2 (node_weights hg) (Z.to_nat i)) as [wi Hwi]; [lia|].
    destruct (lookup_lt_is_Some_2 (node_weights hg) (Z.to_nat j)) as [wj Hwj]; [lia|].
    exists a. split; [exact Ha|]. split.
    - exact (proj1 (Forall_lookup _ _) H01 _ _ Ha).
    - unfold encode_value, at_. rewrite Ha, Hwi, Hwj. cbn [default].
      rewrite (proj1 (Forall_lookup _ _) Hw _ _ Hwi).
      rewrite (proj1 (Forall_lookup _ _) Hw _ _ Hwj). reflexivity. }
  destruct (threshold_present w Hv) as [Hgt Hle].
  split; intros Hcmp; apply list_eq; intros p.
  - destruct (decide (Z.of_nat p < node_count hg * node_count hg)) as [Hp|Hp].
    + destruct (row_major_split (node_count hg) (Z.of_nat p)) as (i & j & Hi & Hj & E);
        [lia|lia|].
      replace p with (Z.to_nat (i * node_count hg + j)) by lia.
      rewrite Hcells by assumption.
      destruct (Hval i j Hi Hj) as (a & Ha & [->| ->] & ->); rewrite Ha; f_equal.
      * apply threshold_absent.
      * apply Hgt. exact Hcmp.
    + rewrite !lookup_ge_None_2 by lia. reflexivity.
  - destruct (decide (Z.of_nat p < node_count hg * node_count hg)) as [Hp|Hp].
    + destruct (row_major_split (node_count hg) (Z.of_nat p)) as (i & j & Hi & Hj & E);
        [lia|lia|].
      rewrite lookup_replicate_2 by lia.
      replace p with (Z.to_nat (i * node_count hg + j)) by lia.
      rewrite Hcells by assumption.
      destruct (Hval i j Hi Hj) as (a & Ha & [->| ->] & ->); f_equal.
      * apply threshold_absent.
      * apply Hle. exact Hcmp.
    + rewrite lookup_ge_None_2 by lia.
      symmetry. apply lookup_replicate_None. lia.
Qed.

Lemma roundtrip_adjacency_witness :
  exists t hg2',
    encode_hypergraph_to_tensor
      (Some {| node_count := 2; link_count := 0; node_weights := [f0_9; f0_9];
               link_weights := []; adjacency_matrix := [0; 1; 1; 0] |})
    = Ret (Some t)
    /\ decode_tensor_to_hypergraph (Some t)
         (Some {| node_count := 2; link_count := 0;
                  node_weights := [F32.zero; F32.zero];
                  link_weights := []; adjacency_matrix := [1; 1; 1; 1] |})
       = Ret (0, Some hg2')
    /\ (F32.gtb f0_9 F32.half = true -> adjacency_matrix hg2' = [0; 1; 1; 0])
    /\ (F32.leb f0_9 F32.half = true -> adjacency_matrix hg2' = [0; 0; 0; 0]).
Proof.
  apply (roundtrip_adjacency
           {| node_count := 2; link_count := 0; node_weights := [f0_9; f0_9];
              link_weights := []; adjacency_matrix := [0; 1; 1; 0] |}
           {| node_count := 2; link_count := 0;
              node_weights := [F32.zero; F32.zero];
              link_weights := []; adjacency_matrix := [1; 1; 1; 1] |} f0_9).
  - sample_hypergraph_wf.
  - sample_hypergraph_wf.
  - reflexivity.
  - cbn [adjacency_matrix]. repeat (constructor; [lia|]). constructor.
  - cbn [node_weights]. repeat (constructor; [reflexivity|]). constructor.
  - reflexivity.
Defined.

(** ** C2: the decoder *)

Lemma decode_rule_snd_other (value : Z -> Z -> float) (n m : Z) (cs : list (Z * Z))
    (st : list Z * list float) (k : nat) :
  (forall c, c ∈ cs -> 0 <= fst c < m /\ 0 <= snd c < m) ->
  m <= Z.of_nat k ->
  snd (foldl (decode_rule value n) st cs) !! k = snd st !! k.
Proof.
  intros Hcs Hk. revert st.
  induction cs as [|c cs IH]; intros st; [reflexivity|].
  cbn [foldl]. rewrite IH by (intros c' Hc'; apply Hcs; right; exact Hc').
  destruct (Hcs c ltac:(left)) as [H1 H2].
  unfold decode_rule. cbn [snd].
  destruct (F32.gtb _ F32.zero); [|reflexivity].
  unfold smooth. rewrite !list_lookup_insert_ne by lia. reflexivity.
Qed.

Lemma tensor_cell_inside (t : ggml_tensor) (d : list float) (i j : Z) :
  data t = Some d -> Z.of_nat (length d) = ne0 t * ne1 t ->
  0 <= i < ne0 t -> 0 <= j < ne1 t ->
  tensor_cell t i j = Some (cell d (ne1 t) i j).
Proof.
  intros Hd Hlen Hi Hj. unfold tensor_cell, buffer, cell, at_. rewrite Hd.
  destruct (Z.leb_spec 0 i); [|lia]. destruct (Z.ltb_spec i (ne0 t)); [|lia].
  destruct (Z.leb_spec 0 j); [|lia]. destruct (Z.ltb_spec j (ne1 t)); [|lia].
  cbn [andb].
  assert (0 <= i * ne1 t + j < ne0 t * ne1 t) by (apply row_major_bound; lia).
  destruct (lookup_lt_is_Some_2 d (Z.to_nat (i * ne1 t + j))) as [x Hx]; [lia|].
  rewrite Hx. reflexivity.
Qed.

(** C2, as amended. For a tensor with a buffer of [ne0 * ne1] floats whose
    rows have at least [m = min (node_count, ne0)] columns, the decoder
    returns 0 whatever the sizes are, visits exactly the cells [(i, j)]
    with [i, j < m] in row-major order and applies [decode_rule] once at
    each of them: the adjacency entry becomes 1 iff the cell value exceeds
    0.5, and a positive cell value is averaged into the weights of node [i]
    and node [j].  Adjacency entries and node weights outside the first [m]
    rows and columns keep their values. *)
Theorem decode_visits_cells (t : ggml_tensor) (h : hypergraph_t) :
  tensor_wf t -> hypergraph_wf h ->
  Z.min (node_count h) (ne0 t) <= ne1 t ->
  let n := node_count h in
  let m := Z.min n (ne0 t) in
  let value := cell (buffer t) (ne1 t) in
  let st := foldl (decode_rule value n)
                  (adjacency_matrix h, node_weights h) (cells m m) in
  decode_tensor_to_hypergraph (Some t) (Some h)
  = Ret (0, Some (set_graph h (fst st) (snd st)))
  /\ (forall i j, 0 <= i < m -> 0 <= j < m ->
        tensor_cell t i j = Some (value i j)
        /\ fst st !! Z.to_nat (i * n + j) = Some (threshold (value i j)))
  /\ (forall i j, 0 <= i < n -> 0 <= j < n -> ~ (i < m /\ j < m) ->
        fst st !! Z.to_nat (i * n + j) = adjacency_matrix h !! Z.to_nat (i * n + j))
  /\ (forall k, m <= k -> snd st !! Z.to_nat k = node_weights h !! Z.to_nat k).
Proof.
  intros (Hne0 & Hne1 & Hprod & d & Hd & Hlen) Hwf Hcols n m value st.
  pose proof Hwf as (HN & Hsq & Hnw & Hadj).
  assert (Hbuf : buffer t = d) by (unfold buffer; rewrite Hd; reflexivity).
  destruct (decode_run t h d Hd Hwf Hne0 Hcols ltac:(lia)) as (Hrun & _ & _).
  subst st value m n. rewrite Hbuf. split; [exact Hrun|].
  destruct (decode_adjacency (cell d (ne1 t)) (node_count h)
              (Z.min (node_count h) (ne0 t))
              (adjacency_matrix h) (node_weights h)) as [Hin Hout]; [lia|lia|].
  split; [|split].
  - intros i j Hi Hj. split; [|apply Hin; assumption].
    apply tensor_cell_inside; [assumption|assumption|lia|lia].
  - exact Hout.
  - intros k Hk. apply decode_rule_snd_other with (m := Z.min (node_count h) (ne0 t)).
    + intros [i j] Hc. apply elem_of_cells in Hc. exact Hc.
    + lia.
Qed.

Lemma decode_visits_cells_witness :
  exists st,
    decode_tensor_to_hypergraph (Some column3)
      (Some {| node_count := 1; link_count := 0; node_weights := [F32.zero];
               link_weights := []; adjacency_matrix := [1] |})
    = Ret (0, Some st).
Proof.
  eexists.
  refine (proj1 (decode_visits_cells column3
                   {| node_count := 1; link_count := 0; node_weights := [F32.zero];
                      link_weights := []; adjacency_matrix := [1] |} _ _ _)).
  - sample_tensor_wf.
  - sample_hypergraph_wf.
  - cbn. lia.
Defined.

(** C2, the claim as stated fails: on a tensor of three rows and one
    column and a hypergraph of three nodes the decoder walks three columns
    and reads outside the buffer of the tensor. *)
Lemma decode_column_out_of_bounds :
  tensor_wf column3
  /\ exists hg,
       create_hypergraph 3 0 = Some hg
       /\ hypergraph_wf hg
       /\ decode_tensor_to_hypergraph (Some column3) (Some hg) = Fault.
Proof.
  split; [sample_tensor_wf|].
  eexists. split; [reflexivity|]. split; [sample_hypergraph_wf|].
  vm_compute. reflexivity.
Qed.

(** With two nodes the reads stay inside the buffer, and the entry for
    the position [(0, 1)], which the tensor does not have, is taken from
    its cell [(1, 0)]. *)
Example decode_column_two_nodes :
  tensor_cell column3 0 1 = None
  /\ tensor_cell column3 1 0 = Some f0_9
  /\ exists nw,
       decode_tensor_to_hypergraph (Some column3) (create_hypergraph 2 0)
       = Ret (0, Some {| node_count := 2; link_count := 0; node_weights := nw;
                         link_weights := []; adjacency_matrix := [0; 1; 1; 0] |}).
Proof.
  split; [reflexivity|]. split; [reflexivity|].
  eexists. vm_compute. reflexivity.
Qed.

(** ** C3: the elementwise kernels and the extents of their operands *)

Lemma bind_Ret {A B} (m : outcome A) (k : A -> outcome B) (b : B) :
  bind m k = Ret b -> exists a, m = Ret a /\ k a = Ret b.
Proof.
  destruct m as [a|]; [|discriminate].
  intros H. exists a. split; [reflexivity|exact H].
Qed.

Lemma optimized_tensor (env : alloc_env) (pool pool' : TensorMemoryPool)
    (ty n0 n1 : Z) (r : ggml_tensor) (o : data_origin) :
  ggml_new_tensor_2d_optimized env pool ty n0 n1 = Ret (Some (r, o), pool') ->
  r = zero_tensor ty n0 n1.
Proof.
  unfold ggml_new_tensor_2d_optimized. intros H.
  apply bind_Ret in H as (b0 & _ & H).
  apply bind_Ret in H as (p & _ & H).
  destruct (negb (env_malloc env)); [discriminate|].
  destruct (_ && _).
  - apply bind_Ret in H as (bi & _ & H).
    apply bind_Ret in H as (ab & _ & H).
    apply bind_Ret in H as (blk & _ & H).
    destruct blk; inversion H. reflexivity.
  - destruct (env_fallback env); inversion H. reflexivity.
Qed.

(** The scalar kernels on operands with buffers. *)
Lemma ggml_binop_buffers (op : float -> float -> float) (a b : ggml_tensor)
    (da db : list float) :
  data a = Some da -> data b = Some db ->
  0 <= ne0 a * ne1 a <= INT_MAX ->
  ggml_binop op (Some a) (Some b)
  = (d <- elementwise op da db (ne0 a * ne1 a)
            (replicate (Z.to_nat (ne0 a * ne1 a)) F32.zero) ;;
     Ret (Some (matrix (ne0 a) (ne1 a) d))).
Proof.
  intros Ha Hb Hn. unfold ggml_binop. rewrite Ha, Hb.
  rewrite ggml_new_tensor_2d_small by exact Hn. cbn [data ne0 ne1].
  rewrite to_int_small by exact Hn. reflexivity.
Qed.

(** The vectorised kernels on operands with buffers, after the allocator
    has returned a tensor. *)
Lemma ggml_binop_simd_buffers (op : float -> float -> float) (env : alloc_env)
    (pool pool' : TensorMemoryPool) (a_addr b_addr : Z) (a b : ggml_tensor)
    (da db : list float) (r : ggml_tensor) (o : data_origin) :
  data a = Some da -> data b = Some db ->
  0 <= ne0 a * ne1 a <= INT_MAX ->
  ggml_new_tensor_2d_optimized env pool 0 (ne0 a) (ne1 a) = Ret (Some (r, o), pool') ->
  ggml_binop_simd op env pool a_addr b_addr (Some a) (Some b)
  = (d <- elementwise_simd op a_addr b_addr da db (ne0 a * ne1 a)
            (replicate (Z.to_nat (ne0 a * ne1 a)) F32.zero) ;;
     Ret (Some (matrix (ne0 a) (ne1 a) d), pool')).
Proof.
  intros Ha Hb Hn Halloc. unfold ggml_binop_simd. rewrite Ha, Hb, Halloc.
  cbn [bind]. rewrite (optimized_tensor _ _ _ _ _ _ _ _ Halloc).
  rewrite zero_tensor_small by exact Hn. cbn [buffer data].
  rewrite to_int_small by exact Hn. reflexivity.
Qed.

(** C3, as amended. The elementwise kernels never compare the extents
    of their operands. Let [a] and [b] have buffers and let
    [n = ne0 a * ne1 a] lie within [int]. When both buffers hold [n]
    floats, the scalar multiply and add return a tensor of the first two
    extents of [a] whose element [i] is [a[i] op b[i]], whatever the
    extents of [b] are; when one of them holds fewer, they read past its
    end. The vectorised multiply and add return [NULL] when their
    allocator does; otherwise they return the same tensor when both
    buffers hold [n] floats and, for [n >= 8], both are aligned to 32
    bytes, and they fault in every other case. A null operand or a null
    buffer makes every kernel return [NULL]. *)
Theorem elementwise_ignores_extents (a b : ggml_tensor) (da db : list float) :
  data a = Some da -> data b = Some db ->
  0 <= ne0 a * ne1 a <= INT_MAX ->
  let n := ne0 a * ne1 a in
  let fit := n <= Z.of_nat (length da) /\ n <= Z.of_nat (length db) in
  forall op scalar simd, In (op, scalar, simd) kernels ->
    let out :=
      matrix (ne0 a) (ne1 a)
        (zip_with op (take (Z.to_nat n) da) (take (Z.to_nat n) db)) in
    (fit -> scalar (Some a) (Some b) = Ret (Some out))
    /\ (~ fit -> scalar (Some a) (Some b) = Fault)
    /\ (forall env pool a_addr b_addr res pool',
          ggml_new_tensor_2d_optimized env pool 0 (ne0 a) (ne1 a)
          = Ret (res, pool') ->
          let aligned := 8 <= n -> a_addr mod 32 = 0 /\ b_addr mod 32 = 0 in
          (res = None ->
           simd env pool a_addr b_addr (Some a) (Some b) = Ret (None, pool'))
          /\ (res <> None -> fit -> aligned ->
              simd env pool a_addr b_addr (Some a) (Some b)
              = Ret (Some out, pool'))
          /\ (res <> None -> ~ (fit /\ aligned) ->
              simd env pool a_addr b_addr (Some a) (Some b) = Fault))
    /\ (forall x y, no_data x \/ no_data y ->
          scalar x y = Ret None
          /\ forall env pool a_addr b_addr,
               simd env pool a_addr b_addr x y = Ret (None, pool)).
Proof.
  intros Ha Hb Hn n fit op scalar simd Hk out.
  assert (Hkernel : scalar = ggml_binop op /\ simd = ggml_binop_simd op).
  { destruct Hk as [E|[E|[]]]; inversion E; subst; split; reflexivity. }
  destruct Hkernel as [-> ->].
  split; [|split; [|split]].
  - intros [Hla Hlb]. rewrite (ggml_binop_buffers op a b da db) by assumption.
    rewrite elementwise_zip by (rewrite ?length_replicate; lia).
    reflexivity.
  - intros Hshort. rewrite (ggml_binop_buffers op a b da db) by assumption.
    rewrite elementwise_fault; [reflexivity|]. unfold fit, n in Hshort. lia.
  - intros env pool a_addr b_addr res pool' Halloc aligned.
    destruct res as [[r o]|].
    + split; [discriminate|]. split.
      * intros _ [Hla Hlb] Hal.
        rewrite (ggml_binop_simd_buffers op env pool pool' a_addr b_addr a b
                   da db r o) by assumption.
        rewrite elementwise_simd_zip
          by (rewrite ?length_replicate; solve [lia | exact Hal]).
        reflexivity.
      * intros _ Hnot.
        rewrite (ggml_binop_simd_buffers op env pool pool' a_addr b_addr a b
                   da db r o) by assumption.
        rewrite elementwise_simd_fault; [reflexivity|lia|].
        unfold fit, aligned, n in Hnot. lia.
    + split; [|split; intros Hres; contradiction].
      intros _. unfold ggml_binop_simd. rewrite Ha, Hb, Halloc. reflexivity.
  - intros x y Hxy. unfold ggml_binop, ggml_binop_simd, no_data in *. split.
    + destruct x as [tx|], y as [ty|]; try reflexivity.
      destruct (data tx) as [dx|]; [|reflexivity].
      destruct (data ty) as [dy|]; [|reflexivity].
      destruct Hxy; discriminate.
    + intros env pool a_addr b_addr.
      destruct x as [tx|], y as [ty|]; try reflexivity.
      destruct (data tx) as [dx|]; [|reflexivity].
      destruct (data ty) as [dy|]; [|reflexivity].
      destruct Hxy; discriminate.
Qed.

Lemma elementwise_ignores_extents_witness :
  same_extents row2 col2 = false
  /\ ggml_mul (Some row2) (Some col2)
     = Ret (Some (matrix 1 2 [F32.mul F32.one f0_9; F32.mul f0_9 f0_9]))
  /\ ggml_mul (Some (matrix 3 1 [F32.one; f0_9; f0_9])) (Some col2) = Fault
  /\ ggml_add_simd env_ok tensor_pool 16 96
       (Some (matrix 3 3 (replicate 9 f0_9)))
       (Some (matrix 9 1 (replicate 9 F32.half))) = Fault.
Proof.
  split; [reflexivity|]. split; [|split].
  - refine (proj1 (elementwise_ignores_extents row2 col2 [F32.one; f0_9]
                     [f0_9; f0_9] eq_refl eq_refl _
                     F32.mul ggml_mul ggml_mul_simd _) _).
    + cbn. unfold INT_MAX. lia.
    + left. reflexivity.
    + cbn. lia.
  - refine (proj1 (proj2 (elementwise_ignores_extents
                     (matrix 3 1 [F32.one; f0_9; f0_9]) col2
                     [F32.one; f0_9; f0_9] [f0_9; f0_9] eq_refl eq_refl _
                     F32.mul ggml_mul ggml_mul_simd _)) _).
    + cbn. unfold INT_MAX. lia.
    + left. reflexivity.
    + cbn. lia.
  - refine (proj2 (proj2 (proj1 (proj2 (proj2 (elementwise_ignores_extents
                     (matrix 3 3 (replicate 9 f0_9))
                     (matrix 9 1 (replicate 9 F32.half))
                     (replicate 9 f0_9) (replicate 9 F32.half) eq_refl eq_refl _
                     F32.add ggml_add ggml_add_simd _)))
                   env_ok tensor_pool 16 96 _ _ _)) _ _).
    + cbn. unfold INT_MAX. lia.
    + right. left. reflexivity.
    + vm_compute. reflexivity.
    + discriminate.
    + intros [_ Hal]. destruct Hal as [Hal _]; [cbn; lia|]. discriminate Hal.
Defined.

(** C3, the claim as stated fails: a row of two floats and a column of
    two floats differ in their extents, and every kernel multiplies or adds
    them without a failure signal, wherever the two buffers lie. *)
Lemma elementwise_accepts_mismatch :
  same_extents row2 col2 = false
  /\ ggml_mul (Some row2) (Some col2)
     = Ret (Some (matrix 1 2 [F32.mul F32.one f0_9; F32.mul f0_9 f0_9]))
  /\ ggml_add (Some row2) (Some col2)
     = Ret (Some (matrix 1 2 [F32.add F32.one f0_9; F32.add f0_9 f0_9]))
  /\ (forall a_addr b_addr, exists pool,
        ggml_mul_simd env_ok tensor_pool a_addr b_addr (Some row2) (Some col2)
        = Ret (Some (matrix 1 2 [F32.mul F32.one f0_9; F32.mul f0_9 f0_9]), pool))
  /\ (forall a_addr b_addr, exists pool,
        ggml_add_simd env_ok tensor_pool a_addr b_addr (Some row2) (Some col2)
        = Ret (Some (matrix 1 2 [F32.add F32.one f0_9; F32.add f0_9 f0_9]), pool)).
Proof.
  split; [reflexivity|]. split; [vm_compute; reflexivity|].
  split; [vm_compute; reflexivity|].
  split; intros a_addr b_addr; eexists; vm_compute; reflexivity.
Qed.

(** ** C4: the attention tensor of a store *)

Lemma cross_attention_value (as_ : AtomSpace) (w : float) (i j : Z) (pi pj : atom_ptr) :
  0 <= i < count as_ -> 0 <= j < count as_ -> i <> j ->
  atoms as_ !! Z.to_nat i = Some pi -> atoms as_ !! Z.to_nat j = Some pj ->
  pi <> Dangling -> pj <> Dangling ->
  cross_attention pi pj w = Ret (attention_value as_ w i j).
Proof.
  intros Hi Hj Hij Hpi Hpj Hdi Hdj.
  unfold attention_value, entity. rewrite Hpi, Hpj.
  destruct (Z.eqb_spec i j) as [|_]; [contradiction|].
  destruct (Z.leb_spec 0 i); [|lia]. destruct (Z.ltb_spec i (count as_)); [|lia].
  destruct (Z.leb_spec 0 j); [|lia]. destruct (Z.ltb_spec j (count as_)); [|lia].
  cbn [andb].
  destruct pi as [|ai|]; [| |contradiction];
    destruct pj as [|aj|]; try contradiction; cbn [cross_attention];
    try reflexivity.
  - destruct (truth_value ai); reflexivity.
  - destruct (truth_value ai) as [tvi|]; [|reflexivity].
    destruct (truth_value aj) as [tvj|]; reflexivity.
Qed.

(** C4, as amended. The attention tensor of a store is an N by N tensor
    (N the entity count, 64 for an empty store) whose diagonal cells equal
    [w]; an off-diagonal cell [(i, j)] equals [(1 - |central_i - central_j|)
    * w * 0.5] when both entities exist, [0.1 * w] when both slots are
    below the count but an entity is missing, and 0 when a slot is at or
    beyond the count, which is the case of every off-diagonal cell for an
    empty store. *)
Theorem attention_tensor_cells (as_ : AtomSpace) (w : float) :
  atomspace_wf as_ ->
  count as_ * count as_ <= INT_MAX ->
  let n := if count as_ =? 0 then 64 else count as_ in
  exists d,
    create_attention_tensor as_ w = Ret (Some (matrix n n d))
    /\ Z.of_nat (length d) = n * n
    /\ forall i j, 0 <= i < n -> 0 <= j < n ->
         d !! Z.to_nat (i * n + j) = Some (attention_value as_ w i j).
Proof.
  intros (Hcount & Hcap & Hlive) Hsq n.
  assert (Hn : 0 < n /\ n * n <= INT_MAX).
  { unfold n. destruct (Z.eqb_spec (count as_) 0); unfold INT_MAX in *; lia. }
  assert (Hn' : n <= INT_MAX) by (apply square_bound; lia).
  unfold create_attention_tensor. fold n.
  rewrite to_int_small by lia. rewrite ggml_new_tensor_2d_small by nia.
  cbn [buffer data].
  destruct (for_cells_store (attention_value as_ w) n n n
              (fun i j data =>
                 if i =? j then store data (i * n + j) w
                 else if (i <? count as_) && (j <? count as_) then
                   atom_i <- load (atoms as_) i ;;
                   atom_j <- load (atoms as_) j ;;
                   v <- cross_attention atom_i atom_j w ;;
                   store data (i * n + j) v
                 else store data (i * n + j) F32.zero)
              (replicate (Z.to_nat (n * n)) F32.zero))
    as (d & Hrun & Hlen & Hcells & _);
    [lia|lia|lia|rewrite length_replicate; lia| |].
  - intros i j r' Hi Hj _.
    destruct (Z.eqb_spec i j) as [E|E].
    { unfold attention_value. rewrite (proj2 (Z.eqb_eq i j) E). reflexivity. }
    destruct (Z.ltb_spec i (count as_)) as [Hic|Hic];
      destruct (Z.ltb_spec j (count as_)) as [Hjc|Hjc]; cbn [andb].
    + destruct (lookup_lt_is_Some_2 (atoms as_) (Z.to_nat i)) as [pi Hpi]; [lia|].
      destruct (lookup_lt_is_Some_2 (atoms as_) (Z.to_nat j)) as [pj Hpj]; [lia|].
      rewrite (load_lookup (atoms as_) i pi) by (lia || exact Hpi). cbn [bind].
      rewrite (load_lookup (atoms as_) j pj) by (lia || exact Hpj). cbn [bind].
      rewrite (cross_attention_value as_ w i j pi pj); [reflexivity|lia|lia|exact E|
        exact Hpi|exact Hpj| |].
      * intros ->. exact (Hlive i ltac:(lia) Hpi).
      * intros ->. exact (Hlive j ltac:(lia) Hpj).
    + unfold attention_value, entity.
      destruct (Z.eqb_spec i j) as [|_]; [contradiction|].
      destruct (Z.ltb_spec i (count as_)); [|lia].
      destruct (Z.ltb_spec j (count as_)); [lia|].
      rewrite !andb_false_r. cbn [andb].
      destruct (_ && true); [|reflexivity].
      destruct (atoms as_ !! Z.to_nat i) as [[|a|]|]; try reflexivity.
      destruct (truth_value a); reflexivity.
    + unfold attention_value, entity.
      destruct (Z.eqb_spec i j) as [|_]; [contradiction|].
      destruct (Z.ltb_spec i (count as_)); [lia|].
      rewrite !andb_false_r. reflexivity.
    + unfold attention_value, entity.
      destruct (Z.eqb_spec i j) as [|_]; [contradiction|].
      destruct (Z.ltb_spec i (count as_)); [lia|].
      rewrite !andb_false_r. reflexivity.
  - exists d. rewrite Hrun. cbn [bind].
    split; [reflexivity|]. split; [|exact Hcells].
    rewrite Hlen, length_replicate. lia.
Qed.

Lemma attention_tensor_cells_witness :
  exists d,
    create_attention_tensor create_atomspace F32.one = Ret (Some (matrix 64 64 d))
    /\ Z.of_nat (length d) = 64 * 64
    /\ forall i j, 0 <= i < 64 -> 0 <= j < 64 ->
         d !! Z.to_nat (i * 64 + j)
         = Some (attention_value create_atomspace F32.one i j).
Proof.
  apply (attention_tensor_cells create_atomspace F32.one).
  - unfold atomspace_wf. cbn. split; [lia|]. split; [reflexivity|]. intros p Hp. lia.
  - unfold INT_MAX. cbn. lia.
Defined.

(** C4, the claim as stated fails: for the empty store and the weight
    1.0 the tensor is 64 by 64 and its off-diagonal cell [(0, 1)] is 0, not
    [0.1 * 1.0]. *)
Lemma attention_empty_store_zero :
  count create_atomspace = 0
  /\ F32.mul F32.c0_1 F32.one <> F32.zero
  /\ exists t,
       create_attention_tensor create_atomspace F32.one = Ret (Some t)
       /\ ne0 t = 64 /\ ne1 t = 64
       /\ tensor_cell t 0 0 = Some F32.one
       /\ tensor_cell t 0 1 = Some F32.zero.
Proof.
  split; [reflexivity|]. split; [discriminate|].
  eexists. split; [vm_compute; reflexivity|]. repeat split.
Qed.

(** ** C5: the meta transform at level 0 *)

Lemma at_seqZ {A} (dflt : A) (d : list A) (n : Z) :
  Z.of_nat (length d) = n -> at_ dflt d <$> seqZ 0 n = d.
Proof.
  intros Hn. apply list_eq. intros p. rewrite list_lookup_fmap.
  destruct (decide (p < length d)%nat) as [Hp|Hp].
  - rewrite lookup_seqZ_lt by lia. cbn. unfold at_.
    replace (Z.to_nat (0 + Z.of_nat p)) with p by lia.
    destruct (lookup_lt_is_Some_2 d p Hp) as [x Hx]. rewrite Hx. reflexivity.
  - rewrite lookup_seqZ_ge by lia. rewrite lookup_ge_None_2 by lia. reflexivity.
Qed.

(** C5. When [sinf] maps [+0] to [+0], as the C library does, the meta
    transform at level 0 of a tensor of binary32 values returns a tensor
    with the same two extents and exactly the same elements. *)
Theorem meta_transform_level_0 (sinf : float -> float) (input : ggml_tensor) :
  sinf F32.zero = F32.zero ->
  tensor_wf input ->
  Forall (fun x => F32.valid x = true) (buffer input) ->
  meta_cognitive_transform sinf (Some input) 0
  = Ret (Some (matrix (ne0 input) (ne1 input) (buffer input))).
Proof.
  intros Hsin (Hne0 & Hne1 & Hprod & d & Hd & Hlen) Hvalid.
  assert (Hbuf : buffer input = d) by (unfold buffer; rewrite Hd; reflexivity).
  rewrite Hbuf in *.
  unfold meta_cognitive_transform.
  rewrite ggml_new_tensor_2d_small by lia. rewrite to_int_small by lia.
  rewrite Hbuf. cbn [buffer data].
  destruct (for_range_foldl
              (fun _ r' => length r' = Z.to_nat (ne0 input * ne1 input))
              (put Z.to_nat (at_ F32.zero d)) 0 (ne0 input * ne1 input)
              (fun i output_data =>
                 x <- load d i ;;
                 store output_data i
                   (F32.mul
                      (F32.mul x (F32.add F32.one (F32.mul (F32.of_int 0) F32.c0_2)))
                      (F32.add F32.one
                         (F32.mul F32.c0_1
                            (sinf (F32.mul (F32.of_int (to_int (i * 0)))
                                           F32.c0_01))))))
              (replicate (Z.to_nat (ne0 input * ne1 input)) F32.zero))
    as [Hrun _]; [lia|apply length_replicate| |].
  - intros i r' Hi Hr'.
    rewrite (load_at F32.zero d) by lia. cbn [bind].
    rewrite store_in_range by lia.
    rewrite Z.mul_0_r.
    change (F32.mul (F32.of_int (to_int 0)) F32.c0_01) with F32.zero.
    rewrite Hsin.
    change (F32.add F32.one (F32.mul F32.c0_1 F32.zero)) with F32.one.
    change (F32.add F32.one (F32.mul (F32.of_int 0) F32.c0_2)) with F32.one.
    assert (Hx : F32.valid (at_ F32.zero d i) = true).
    { destruct (lookup_lt_is_Some_2 d (Z.to_nat i)) as [x Hx]; [lia|].
      unfold at_. rewrite Hx. exact (proj1 (Forall_lookup _ _) Hvalid _ _ Hx). }
    rewrite (mul_one_r _ Hx), (mul_one_r _ Hx).
    split; [reflexivity|]. unfold put. rewrite length_insert. exact Hr'.
  - rewrite Hrun. cbn [bind]. unfold set_data, matrix. cbn [ne0 ne1 ne2 ne3 type].
    rewrite Z.sub_0_r.
    rewrite foldl_put_seqZ by (rewrite ?length_replicate; lia).
    rewrite take_0, drop_ge by (rewrite length_replicate; lia).
    rewrite app_nil_r. cbn [app]. rewrite at_seqZ by exact Hlen. reflexivity.
Qed.

Lemma meta_transform_level_0_witness :
  meta_cognitive_transform (fun x => x) (Some row2) 0 = Ret (Some row2).
Proof.
  apply (meta_transform_level_0 (fun x => x) row2).
  - reflexivity.
  - sample_tensor_wf.
  - cbn. repeat (constructor; [reflexivity|]). constructor.
Defined.

(** ** C6: the attention matrix *)

(** C6, as amended. [cognitive_attention_matrix] returns a tensor with
    the first two extents of its input whose element [i] is, exactly, the
    single-precision value [input[i] * (w * (1.0f + 0.1f * sinf(i * 0.1f)))],
    every operation rounded to binary32. *)
Theorem attention_matrix_values (sinf : float -> float) (input : ggml_tensor)
    (w : float) :
  tensor_wf input ->
  cognitive_attention_matrix sinf (Some input) w
  = Ret (Some (matrix (ne0 input) (ne1 input)
                 (zip_with F32.mul (buffer input)
                    (attention_factor sinf w <$> seqZ 0 (ne0 input * ne1 input))))).
Proof.
  intros (Hne0 & Hne1 & Hprod & d & Hd & Hlen).
  assert (Hbuf : buffer input = d) by (unfold buffer; rewrite Hd; reflexivity).
  assert (Hn : 0 <= ne0 input * ne1 input) by (apply Z.mul_nonneg_nonneg; lia).
  rewrite Hbuf. unfold cognitive_attention_matrix.
  rewrite ggml_new_tensor_2d_small by lia. rewrite to_int_small by lia.
  cbn [buffer data].
  destruct (for_range_foldl
              (fun _ r' => length r' = Z.to_nat (ne0 input * ne1 input))
              (put Z.to_nat (attention_factor sinf w)) 0 (ne0 input * ne1 input)
              (fun i attention_data =>
                 store attention_data i
                   (F32.mul w
                      (F32.add F32.one
                         (F32.mul F32.c0_1
                            (sinf (F32.mul (F32.of_int i) F32.c0_1))))))
              (replicate (Z.to_nat (ne0 input * ne1 input)) F32.zero))
    as [Hrun _]; [lia|apply length_replicate| |].
  - intros i r' Hi Hr'. rewrite store_in_range by lia.
    split; [reflexivity|]. unfold put. rewrite length_insert. exact Hr'.
  - rewrite Hrun. cbn [bind]. rewrite Z.sub_0_r.
    rewrite foldl_put_seqZ by (rewrite ?length_replicate; lia).
    rewrite take_0, drop_ge by (rewrite length_replicate; lia).
    rewrite app_nil_r. cbn [app].
    unfold ggml_mul, ggml_binop, set_data.
    cbn [data ne0 ne1 ne2 ne3 type]. rewrite Hd.
    rewrite ggml_new_tensor_2d_small by lia. rewrite to_int_small by lia.
    cbn [data ne0 ne1 ne2 ne3 type].
    rewrite elementwise_zip
      by (rewrite ?length_replicate, ?length_fmap, ?length_seqZ; lia).
    cbn [bind]. unfold matrix. do 3 f_equal.
    rewrite !take_ge by (rewrite ?length_fmap, ?length_seqZ; lia).
    reflexivity.
Qed.

Lemma attention_matrix_values_witness :
  cognitive_attention_matrix sinf_at_zero (Some (matrix 1 1 [f8388609])) f0_8
  = Ret (Some (matrix 1 1
                 (zip_with F32.mul [f8388609]
                    (attention_factor sinf_at_zero f0_8 <$> seqZ 0 (1 * 1))))).
Proof.
  apply (attention_matrix_values sinf_at_zero (matrix 1 1 [f8388609]) f0_8).
  sample_tensor_wf.
Defined.

(** C6, the claim as stated fails: for the 1 by 1 tensor that holds
    8388609 and the weight 0.8f the only element of the result, at index 0
    where [sinf] is applied to [+0], is 6710887.5, at a distance of about
    0.2 from [input[0] * w * (1 + 0.1 * sin (0.1 * 0))]. *)
Lemma attention_tolerance_exceeded :
  cognitive_attention_matrix sinf_at_zero (Some (matrix 1 1 [f8388609])) f0_8
  = Ret (Some (matrix 1 1 [f6710887_5]))
  /\ (Rabs (F2R f6710887_5
            - F2R f8388609 * F2R f0_8 * (1 + 0.1 * sin (0.1 * IZR 0))) > 1e-5)%R.
Proof.
  split; [vm_compute; reflexivity|].
  rewrite Rmult_0_r, sin_0. unfold F2R, f6710887_5, f8388609, f0_8.
  cbn [powerRZ]. rewrite Rabs_pos_eq; simpl; lra.
Qed.

(** ** C7: pattern correlation *)

Lemma foldl_filter_row {S} (g : S -> Z * Z -> S) (A B : Z -> bool)
    (i : Z) (l : list Z) (s : S) :
  foldl g s (filter (fun c => A (fst c) && B (snd c) = true) (pair i <$> l))
  = if A i then foldl (fun s j => g s (i, j)) s (filter (fun j => B j = true) l)
    else s.
Proof.
  revert s. induction l as [|j l IH]; intros s.
  - destruct (A i); reflexivity.
  - cbn [fmap list_fmap]. destruct (A i) eqn:Ea.
    + destruct (B j) eqn:E.
      * rewrite filter_cons_True by (cbn [fst snd]; rewrite Ea, E; reflexivity).
        rewrite (filter_cons_True (fun j => B j = true)) by exact E.
        cbn [foldl]. apply IH.
      * rewrite filter_cons_False by (cbn [fst snd]; rewrite Ea, E; discriminate).
        rewrite (filter_cons_False (fun j => B j = true)) by congruence.
        apply IH.
    + rewrite filter_cons_False by (cbn [fst snd]; rewrite Ea; discriminate).
      apply IH.
Qed.

Lemma foldl_filter_cells {S} (g : S -> Z * Z -> S) (A B : Z -> bool)
    (l1 l2 : list Z) (s : S) :
  foldl g s (filter (fun c => A (fst c) && B (snd c) = true)
               (l1 ≫= fun i => pair i <$> l2))
  = foldl (fun s i => foldl (fun s j => g s (i, j)) s
                        (filter (fun j => B j = true) l2))
          s (filter (fun i => A i = true) l1).
Proof.
  revert s. induction l1 as [|i l1 IH]; intros s; [reflexivity|].
  rewrite bind_cons, filter_app, foldl_app, foldl_filter_row.
  destruct (A i) eqn:E.
  - rewrite (filter_cons_True (fun i => A i = true)) by exact E.
    cbn [foldl]. apply IH.
  - rewrite (filter_cons_False (fun i => A i = true)) by congruence. apply IH.
Qed.

Lemma correlation_loops (pat dat : ggml_tensor) (i j : Z) :
  tensor_wf pat -> tensor_wf dat ->
  0 <= i < ne0 dat -> 0 <= j < ne1 dat ->
  for_while 0 (ne0 pat) (fun pi => i + pi <? ne0 dat)
    (fun pi correlation =>
       for_while 0 (ne1 pat) (fun pj => j + pj <? ne1 dat)
         (fun pj correlation =>
            p <- load (buffer pat) (pi * ne1 pat + pj) ;;
            d <- load (buffer dat) ((i + pi) * ne1 dat + (j + pj)) ;;
            Ret (F32.add correlation (F32.mul p d)))
         correlation)
    F32.zero
  = Ret (correlation pat dat i j).
Proof.
  intros (Hp0 & Hp1 & _ & dp & Hdp & Hlp) (Hd0 & Hd1 & _ & dd & Hdd & Hld) Hi Hj.
  assert (Hbp : buffer pat = dp) by (unfold buffer; rewrite Hdp; reflexivity).
  assert (Hbd : buffer dat = dd) by (unfold buffer; rewrite Hdd; reflexivity).
  unfold correlation, cells, for_while. rewrite Hbp, Hbd, !Z.sub_0_r.
  set (g := fun (acc : float) (c : Z * Z) =>
              F32.add acc (F32.mul (cell dp (ne1 pat) (fst c) (snd c))
                                   (cell dd (ne1 dat) (i + fst c) (j + snd c)))).
  rewrite (list_filter_iff _
             (fun c : Z * Z => (i + fst c <? ne0 dat) && (j + snd c <? ne1 dat) = true))
    by (intros c; reflexivity).
  rewrite (foldl_filter_cells g (fun pi => i + pi <? ne0 dat)
             (fun pj => j + pj <? ne1 dat)).
  rewrite <- (Z2Nat.id (ne0 pat)) at 2 by lia.
  apply for_loop_filter_foldl.
  - intros a b Hab Ha. apply Z.ltb_ge in Ha. apply Z.ltb_ge. lia.
  - intros pi acc Hpi Hin. apply Z.ltb_lt in Hin.
    rewrite <- (Z2Nat.id (ne1 pat)) at 2 by lia.
    apply for_loop_filter_foldl.
    + intros a b Hab Ha. apply Z.ltb_ge in Ha. apply Z.ltb_ge. lia.
    + intros pj acc' Hpj Hjn. apply Z.ltb_lt in Hjn.
      assert (0 <= pi * ne1 pat + pj < ne0 pat * ne1 pat)
        by (apply row_major_bound; lia).
      assert (0 <= (i + pi) * ne1 dat + (j + pj) < ne0 dat * ne1 dat)
        by (apply row_major_bound; lia).
      rewrite (load_at F32.zero dp), (load_at F32.zero dd) by lia.
      reflexivity.
Qed.

Lemma add_zero_l (y : float) : same_value (F32.add F32.zero y) y.
Proof.
  destruct y as [s|s| |s m e]; try (left; reflexivity).
  right. destruct s; split; reflexivity.
Qed.

(** C7. The correlation of a pattern with a data tensor has the extents
    of the data tensor, and its cell [(i, j)] is the sum of
    [pattern[pi, pj] * data[i + pi, j + pj]] over exactly the offsets with
    [(i + pi, j + pj)] inside the data tensor.  For a 1 by 1 pattern of
    value [v] and data cells that all equal [c], every cell has the value
    of [v * c]. *)
Theorem pattern_match_correlation (pat dat : ggml_tensor) :
  tensor_wf pat -> tensor_wf dat ->
  exists d,
    cognitive_pattern_match (Some pat) (Some dat)
    = Ret (Some (matrix (ne0 dat) (ne1 dat) d))
    /\ Z.of_nat (length d) = ne0 dat * ne1 dat
    /\ (forall i j, 0 <= i < ne0 dat -> 0 <= j < ne1 dat ->
          d !! Z.to_nat (i * ne1 dat + j) = Some (correlation pat dat i j))
    /\ (forall v c,
          ne0 pat = 1 -> ne1 pat = 1 -> buffer pat = [v] ->
          Forall (fun x => x = c) (buffer dat) ->
          forall i j, 0 <= i < ne0 dat -> 0 <= j < ne1 dat ->
          exists r, d !! Z.to_nat (i * ne1 dat + j) = Some r
                    /\ same_value r (F32.mul v c)).
Proof.
  intros Hpat Hdat.
  pose proof Hdat as (Hd0 & Hd1 & Hprod & dd & Hdd & Hld).
  unfold cognitive_pattern_match.
  rewrite ggml_new_tensor_2d_small by lia.
  set (bp := buffer pat). set (bd := buffer dat). cbn [buffer data]. subst bp bd.
  destruct (for_cells_store (correlation pat dat) (ne0 dat) (ne1 dat) (ne1 dat)
              (fun i j result_data =>
                 correlation <-
                   for_while 0 (ne0 pat) (fun pi => i + pi <? ne0 dat)
                     (fun pi correlation =>
                        for_while 0 (ne1 pat) (fun pj => j + pj <? ne1 dat)
                          (fun pj correlation =>
                             p <- load (buffer pat) (pi * ne1 pat + pj) ;;
                             d <- load (buffer dat) ((i + pi) * ne1 dat + (j + pj)) ;;
                             Ret (F32.add correlation (F32.mul p d)))
                          correlation)
                     F32.zero ;;
                 store result_data (i * ne1 dat + j) correlation)
              (replicate (Z.to_nat (ne0 dat * ne1 dat)) F32.zero))
    as (d & Hrun & Hlen & Hcells & _);
    [lia|lia|lia|rewrite length_replicate; lia| |].
  - intros i j r' Hi Hj _.
    rewrite (correlation_loops pat dat i j Hpat Hdat Hi Hj). reflexivity.
  - exists d. rewrite Hrun. cbn [bind].
    split; [reflexivity|]. split; [rewrite Hlen, length_replicate; lia|].
    split; [exact Hcells|].
    intros v c Hp0 Hp1 Hbp Hall i j Hi Hj.
    exists (correlation pat dat i j). split; [apply Hcells; assumption|].
    unfold correlation, cells. rewrite Hp0, Hp1, Hbp.
    change (seqZ 0 1 ≫= fun i => pair i <$> seqZ 0 1) with [(0, 0)].
    rewrite filter_cons_True, filter_nil.
    + cbn [foldl fst snd]. rewrite !Z.add_0_r.
      assert (Hc : cell (buffer dat) (ne1 dat) i j = c).
      { assert (0 <= i * ne1 dat + j < ne0 dat * ne1 dat)
          by (apply row_major_bound; lia).
        unfold cell, at_, buffer. rewrite Hdd.
        destruct (lookup_lt_is_Some_2 dd (Z.to_nat (i * ne1 dat + j))) as [x Hx]; [lia|].
        rewrite Hx. cbn [default].
        unfold buffer in Hall. rewrite Hdd in Hall.
        exact (proj1 (Forall_lookup _ _) Hall _ _ Hx). }
      rewrite Hc. change (cell [v] 1 0 0) with v. apply add_zero_l.
    + unfold inside. cbn [fst snd]. rewrite !Z.add_0_r.
      destruct (Z.ltb_spec i (ne0 dat)); [|lia].
      destruct (Z.ltb_spec j (ne1 dat)); [|lia]. reflexivity.
Qed.

Lemma pattern_match_correlation_witness :
  exists d,
    cognitive_pattern_match (Some (matrix 1 1 [f0_9])) (Some col2)
    = Ret (Some (matrix 2 1 d))
    /\ forall i j, 0 <= i < 2 -> 0 <= j < 1 ->
       exists r, d !! Z.to_nat (i * 1 + j) = Some r
                 /\ same_value r (F32.mul f0_9 f0_9).
Proof.
  destruct (pattern_match_correlation (matrix 1 1 [f0_9]) col2) as (d & Hrun & _ & _ & H).
  - sample_tensor_wf.
  - sample_tensor_wf.
  - exists d. split; [exact Hrun|].
    apply (H f0_9 f0_9); try reflexivity.
    cbn. repeat (constructor; [reflexivity|]). constructor.
Defined.

(** ** C8: the range check of [update_kernel_attention] *)

(** For a weight that is a number the check rejects exactly the weights
    outside [[0, 1]]. *)
Lemma update_attention_numbers (k : cognitive_kernel_t) (w : float) :
  F32.is_nan w = false ->
  update_kernel_attention (Some k) w
  = if in_unit_interval w then (0, Some (set_attention k w)) else (-1, Some k).
Proof.
  intros Hnan. unfold update_kernel_attention, in_unit_interval.
  replace (F32.ltb w F32.zero || F32.gtb w F32.one)
    with (negb (F32.leb F32.zero w && F32.leb w F32.one)).
  { destruct (F32.leb F32.zero w && F32.leb w F32.one); reflexivity. }
  destruct w as [s|s| |s m e]; try discriminate; try (destruct s; reflexivity).
  destruct s; [reflexivity|].
  unfold F32.leb, F32.ltb, F32.gtb, SFleb, SFltb, F32.zero, F32.one, SFcompare.
  rewrite (Z.compare_antisym e (-23)), (compare_cont_antisym m 8388608).
  destruct (e ?= -23); cbn [CompOpp]; try reflexivity.
  destruct (PosDef.Pos.compare_cont Eq m 8388608); reflexivity.
Qed.

Example update_attention_samples (k : cognitive_kernel_t) :
  update_kernel_attention (Some k) (F32.lit (-1) 10) = (-1, Some k)
  /\ update_kernel_attention (Some k) (F32.lit 11 10) = (-1, Some k)
  /\ update_kernel_attention (Some k) F32.zero = (0, Some (set_attention k F32.zero))
  /\ update_kernel_attention (Some k) F32.one = (0, Some (set_attention k F32.one)).
Proof. repeat split. Qed.

(** C8. The check lets NaN through: NaN is not in [[0, 1]], and the
    update returns 0 and stores it as the attention weight. *)
Theorem update_attention_accepts_nan (k : cognitive_kernel_t) :
  in_unit_interval S754_nan = false
  /\ update_kernel_attention (Some k) S754_nan
     = (0, Some (set_attention k S754_nan))
  /\ attention_weight (set_attention k S754_nan) = S754_nan.
Proof. repeat split. Qed.

(** ** C9: exhaustion of the tensor pool *)

Lemma foldl_pair_put {A B} (f : Z -> A) (g : Z -> B) (l : list Z)
    (a : list A) (b : list B) :
  foldl (fun (st : list A * list B) i =>
           (<[Z.to_nat i := f i]> (fst st), <[Z.to_nat i := g i]> (snd st)))
        (a, b) l
  = (foldl (put Z.to_nat f) a l, foldl (put Z.to_nat g) b l).
Proof.
  revert a b. induction l as [|i l IH]; intros a b; [reflexivity|].
  cbn [foldl fst snd]. apply IH.
Qed.

Lemma init_tensor_pool_serves (block_ok : Z -> bool) (pool : TensorMemoryPool) :
  (forall i, block_ok i = true) ->
  Z.of_nat (length (blocks pool)) = TENSOR_POOL_SIZE ->
  Z.of_nat (length (free_blocks pool)) = TENSOR_POOL_SIZE ->
  Z.of_nat (length (allocated_blocks pool)) = TENSOR_POOL_SIZE ->
  exists p, init_tensor_pool block_ok pool = Ret p /\ pool_after 0 p.
Proof.
  intros Hok Hb Hf Ha. unfold init_tensor_pool.
  destruct (for_range_foldl
              (fun _ (st : list (option Z) * list Z) =>
                 length (fst st) = length (blocks pool)
                 /\ length (snd st) = length (free_blocks pool))
              (fun st i => (<[Z.to_nat i := Some i]> (fst st),
                            <[Z.to_nat i := i]> (snd st)))
              0 TENSOR_POOL_SIZE
              (fun i (st : list (option Z) * list Z) =>
                 b <- store (fst st) i (if block_ok i then Some i else None) ;;
                 f <- store (snd st) i i ;;
                 Ret (b, f))
              (blocks pool, free_blocks pool)) as [Hrun _];
    [unfold TENSOR_POOL_SIZE; lia|split; reflexivity| |].
  - intros i [b f] Hi [Hlb Hlf]. cbn [fst snd] in *.
    rewrite Hok. rewrite !store_in_range by lia. cbn [bind].
    split; [reflexivity|]. rewrite !length_insert. split; assumption.
  - rewrite Hrun. cbn [bind]. eexists. split; [reflexivity|].
    rewrite Z.sub_0_r, foldl_pair_put. cbn [fst snd].
    assert (0 <= TENSOR_POOL_SIZE) by (unfold TENSOR_POOL_SIZE; lia).
    unfold pool_after. cbn [blocks free_blocks allocated_blocks free_count allocated_count].
    rewrite !foldl_put_seqZ by lia.
    rewrite !take_0, !drop_ge by lia. rewrite !app_nil_r. cbn [app].
    rewrite list_fmap_id.
    repeat split; try lia.
Qed.

(** An acquisition of at most one block while the pool has free blocks
    takes the block on top of the free list. *)
Lemma acquire_pooled (env : alloc_env) (pool : TensorMemoryPool) (k n0 n1 : Z) :
  pool_start k pool ->
  0 <= k < TENSOR_POOL_SIZE ->
  env_serves env -> data_size n0 n1 <= TENSOR_BLOCK_SIZE ->
  exists t pool',
    ggml_new_tensor_2d_optimized env pool 0 n0 n1
    = Ret (Some (t, PoolBlock (TENSOR_POOL_SIZE - 1 - k)), pool')
    /\ pool_after (k + 1) pool'.
Proof.
  intros Hstart Hk (Hmalloc & _ & Hblock) Hsize.
  assert (HS : TENSOR_POOL_SIZE = 1024) by reflexivity.
  unfold ggml_new_tensor_2d_optimized.
  destruct Hstart as [[-> ->]|Hafter].
  - change (load (blocks tensor_pool) 0) with (@Ret (option Z) None). cbn [bind].
    destruct (init_tensor_pool_serves (env_block env) tensor_pool)
      as (p & Hp & Hb & Hf & Ha & Hfc & Hac); [exact Hblock|reflexivity..|].
    rewrite Hp. cbn [bind]. rewrite Hmalloc. cbn [negb]. cbv zeta.
    change (to_size_t (to_size_t (to_int (n0 * n1)) * 4)) with (data_size n0 n1).
    destruct (Z.leb_spec (data_size n0 n1) TENSOR_BLOCK_SIZE); [|lia].
    destruct (Z.ltb_spec 0 (free_count p)); [|lia]. cbn [andb].
    rewrite Hf, Hb.
    rewrite (load_lookup (seqZ 0 TENSOR_POOL_SIZE) _ (TENSOR_POOL_SIZE - 1 - 0))
      by (lia || (rewrite lookup_seqZ_lt by lia; f_equal; lia)).
    cbn [bind]. rewrite store_in_range by lia. cbn [bind].
    rewrite (load_lookup _ _ (Some (TENSOR_POOL_SIZE - 1 - 0)))
      by (lia || (rewrite list_lookup_fmap, lookup_seqZ_lt by lia;
                  cbn; f_equal; f_equal; lia)).
    cbn [bind]. eexists _, _. split; [reflexivity|].
    unfold pool_after.
    cbn [blocks free_blocks allocated_blocks free_count allocated_count].
    rewrite length_insert. repeat split; try assumption; lia.
  - destruct Hafter as (Hb & Hf & Ha & Hfc & Hac).
    rewrite (load_lookup (blocks pool) 0 (Some 0))
      by (lia || (rewrite Hb, list_lookup_fmap, lookup_seqZ_lt by lia; reflexivity)).
    cbn [bind]. rewrite Hmalloc. cbn [negb]. cbv zeta.
    change (to_size_t (to_size_t (to_int (n0 * n1)) * 4)) with (data_size n0 n1).
    destruct (Z.leb_spec (data_size n0 n1) TENSOR_BLOCK_SIZE); [|lia].
    destruct (Z.ltb_spec 0 (free_count pool)); [|lia]. cbn [andb].
    rewrite Hf, Hb.
    rewrite (load_lookup (seqZ 0 TENSOR_POOL_SIZE) _ (TENSOR_POOL_SIZE - 1 - k))
      by (lia || (rewrite lookup_seqZ_lt by lia; f_equal; lia)).
    cbn [bind]. rewrite store_in_range by lia. cbn [bind].
    rewrite (load_lookup _ _ (Some (TENSOR_POOL_SIZE - 1 - k)))
      by (lia || (rewrite list_lookup_fmap, lookup_seqZ_lt by lia;
                  cbn; f_equal; f_equal; lia)).
    cbn [bind]. eexists _, _. split; [reflexivity|].
    unfold pool_after.
    cbn [blocks free_blocks allocated_blocks free_count allocated_count].
    rewrite length_insert. repeat split; try assumption; lia.
Qed.

(** With no free block left the acquisition falls back to the system
    allocator and leaves the pool as it is. *)
Lemma acquire_fallback (env : alloc_env) (pool : TensorMemoryPool) (n0 n1 : Z) :
  pool_after TENSOR_POOL_SIZE pool ->
  env_serves env ->
  ggml_new_tensor_2d_optimized env pool 0 n0 n1
  = Ret (Some (zero_tensor 0 n0 n1, SystemBuffer), pool).
Proof.
  intros (Hb & Hf & Ha & Hfc & Hac) (Hmalloc & Hfallback & _).
  assert (HS : TENSOR_POOL_SIZE = 1024) by reflexivity.
  unfold ggml_new_tensor_2d_optimized.
  rewrite (load_lookup (blocks pool) 0 (Some 0))
    by (lia || (rewrite Hb, list_lookup_fmap, lookup_seqZ_lt by lia; reflexivity)).
  cbn [bind]. rewrite Hmalloc. cbn [negb]. cbv zeta.
  destruct (Z.ltb_spec 0 (free_count pool)); [lia|].
  rewrite andb_false_r, Hfallback. reflexivity.
Qed.

Lemma pool_after_accounting (k : Z) (p : TensorMemoryPool) :
  pool_after k p -> pool_accounting p.
Proof. intros (_ & _ & _ & Hfc & Hac). unfold pool_accounting. lia. Qed.

Lemma allocate_all_pooled (reqs : list request) (k : Z) (pool : TensorMemoryPool) :
  pool_start k pool ->
  0 <= k -> k + Z.of_nat (length reqs) <= TENSOR_POOL_SIZE ->
  Forall small_request reqs ->
  exists results pool',
    allocate_all pool reqs = Ret (results, pool')
    /\ length results = length reqs
    /\ Forall (fun res => pooled (fst res) /\ pool_accounting (snd res)) results
    /\ pool_start (k + Z.of_nat (length reqs)) pool'.
Proof.
  revert k pool. induction reqs as [|[[env n0] n1] reqs IH];
    intros k pool Hstart Hk Hlen Hall.
  - exists [], pool. cbn [allocate_all length]. rewrite Z.add_0_r.
    repeat split; [constructor|exact Hstart].
  - cbn [length] in Hlen. inversion Hall as [|r l [Henv Hsize] Hrest]; subst.
    cbn [fst snd] in Henv, Hsize.
    destruct (acquire_pooled env pool k n0 n1 Hstart ltac:(lia) Henv Hsize)
      as (t & p1 & Hrun & Hafter).
    destruct (IH (k + 1) p1 (or_intror Hafter) ltac:(lia) ltac:(lia) Hrest)
      as (results & pool' & Hrest_run & Hrl & Hres & Hend).
    cbn [allocate_all fst snd]. rewrite Hrun. cbn [bind snd]. rewrite Hrest_run.
    cbn [bind fst snd]. eexists _, _. split; [reflexivity|].
    cbn [length]. split; [lia|]. split.
    + constructor; [|exact Hres]. cbn [fst snd]. split.
      * eexists _, _. reflexivity.
      * eapply pool_after_accounting. exact Hafter.
    + replace (k + Z.of_nat (Datatypes.S (length reqs)))
        with (k + 1 + Z.of_nat (length reqs)) by lia. exact Hend.
Qed.

(** The [i]-th acquisition receives the tensor asked for in the block
    [i] places below the top of the free list. *)
Lemma allocate_all_blocks (reqs : list request) (k : Z) (pool : TensorMemoryPool) :
  pool_start k pool ->
  0 <= k -> k + Z.of_nat (length reqs) <= TENSOR_POOL_SIZE ->
  Forall small_request reqs ->
  exists results pool',
    allocate_all pool reqs = Ret (results, pool')
    /\ pool_start (k + Z.of_nat (length reqs)) pool'
    /\ forall (i : nat) env n0 n1,
         reqs !! i = Some (env, n0, n1) ->
         exists p,
           results !! i
           = Some (Some (zero_tensor 0 n0 n1,
                         PoolBlock (TENSOR_POOL_SIZE - 1 - (k + Z.of_nat i))), p)
           /\ pool_accounting p.
Proof.
  revert k pool. induction reqs as [|[[env n0] n1] reqs IH];
    intros k pool Hstart Hk Hlen Hall.
  - exists [], pool. cbn [allocate_all length]. rewrite Z.add_0_r.
    split; [reflexivity|]. split; [exact Hstart|]. intros i ? ? ? Hi. inversion Hi.
  - cbn [length] in Hlen. inversion Hall as [|r l [Henv Hsize] Hrest]; subst.
    cbn [fst snd] in Henv, Hsize.
    destruct (acquire_pooled env pool k n0 n1 Hstart ltac:(lia) Henv Hsize)
      as (t & p1 & Hrun & Hafter).
    pose proof (optimized_tensor _ _ _ _ _ _ _ _ Hrun) as Ht.
    destruct (IH (k + 1) p1 (or_intror Hafter) ltac:(lia) ltac:(lia) Hrest)
      as (results & pool' & Hrest_run & Hend & Hres).
    cbn [allocate_all fst snd]. rewrite Hrun. cbn [bind snd]. rewrite Hrest_run.
    cbn [bind fst snd]. eexists _, _. split; [reflexivity|]. split.
    + cbn [length].
      replace (k + Z.of_nat (Datatypes.S (length reqs)))
        with (k + 1 + Z.of_nat (length reqs)) by lia. exact Hend.
    + intros [|i] env' m0 m1 Hi; cbn in Hi.
      * inversion Hi. subst. eexists. cbn. rewrite Z.add_0_r.
        split; [reflexivity|]. eapply pool_after_accounting. exact Hafter.
      * destruct (Hres i env' m0 m1 Hi) as (p & Hp & Hacc). exists p.
        split; [|exact Hacc].
        change (results !! i
                = Some (Some (zero_tensor 0 m0 m1,
                              PoolBlock (TENSOR_POOL_SIZE - 1
                                         - (k + Z.of_nat (Datatypes.S i)))), p)).
        rewrite Hp. do 5 f_equal. lia.
Qed.

Lemma env_ok_small (n0 n1 : Z) :
  data_size n0 n1 <= TENSOR_BLOCK_SIZE -> small_request (env_ok, n0, n1).
Proof. intros H. split; [|exact H]. repeat split. Qed.

(** C9. From the fresh pool, when the system allocator serves the calls,
    [TENSOR_POOL_SIZE] acquisitions of at most one block each succeed: the
    [i]-th returns the tensor asked for, of the two extents of the request
    and with a buffer of zeros, in block [TENSOR_POOL_SIZE - 1 - i] of the
    pool. The next acquisition of at most one block returns the tensor
    asked for in a buffer of the system allocator and leaves the pool as
    it is. [free_count + allocated_count = TENSOR_POOL_SIZE] holds after
    every one of them. *)
Theorem pool_exhaustion (reqs : list request) (last : request) :
  Z.of_nat (length reqs) = TENSOR_POOL_SIZE ->
  Forall small_request reqs ->
  small_request last ->
  exists results pool,
    allocate_all tensor_pool reqs = Ret (results, pool)
    /\ length results = length reqs
    /\ (forall (i : nat) env n0 n1,
          reqs !! i = Some (env, n0, n1) ->
          exists p,
            results !! i
            = Some (Some (zero_tensor 0 n0 n1,
                          PoolBlock (TENSOR_POOL_SIZE - 1 - Z.of_nat i)), p)
            /\ pool_accounting p)
    /\ Forall (fun res => pooled (fst res) /\ pool_accounting (snd res)) results
    /\ ggml_new_tensor_2d_optimized (fst (fst last)) pool 0 (snd (fst last)) (snd last)
       = Ret (Some (zero_tensor 0 (snd (fst last)) (snd last), SystemBuffer), pool)
    /\ pool_accounting pool.
Proof.
  intros Hlen Hall [Henv Hsize].
  destruct (allocate_all_pooled reqs 0 tensor_pool) as
    (results & pool & Hrun & Hrl & Hres & Hend);
    [left; split; reflexivity|lia|lia|exact Hall|].
  destruct (allocate_all_blocks reqs 0 tensor_pool) as
    (results' & pool' & Hrun' & _ & Hblocks);
    [left; split; reflexivity|lia|lia|exact Hall|].
  rewrite Hrun in Hrun'. inversion Hrun'. subst results' pool'.
  assert (Hafter : pool_after TENSOR_POOL_SIZE pool).
  { rewrite Z.add_0_l, Hlen in Hend.
    destruct Hend as [[Habs _]|Hafter]; [discriminate|exact Hafter]. }
  exists results, pool.
  split; [exact Hrun|]. split; [exact Hrl|]. split; [|split; [exact Hres|split]].
  - intros i env n0 n1 Hi.
    destruct (Hblocks i env n0 n1 Hi) as (p & Hp & Hacc).
    exists p. split; [|exact Hacc]. rewrite Hp. reflexivity.
  - apply acquire_fallback; assumption.
  - eapply pool_after_accounting. exact Hafter.
Qed.

Lemma pool_exhaustion_witness :
  exists results pool,
    allocate_all tensor_pool (replicate 1024 (env_ok, 4, 4)) = Ret (results, pool)
    /\ (exists p, results !! 0%nat
                  = Some (Some (matrix 4 4 (replicate 16 F32.zero), PoolBlock 1023), p)
                  /\ pool_accounting p)
    /\ (exists p, results !! 1023%nat
                  = Some (Some (matrix 4 4 (replicate 16 F32.zero), PoolBlock 0), p)
                  /\ pool_accounting p)
    /\ ggml_new_tensor_2d_optimized env_ok pool 0 4 4
       = Ret (Some (matrix 4 4 (replicate 16 F32.zero), SystemBuffer), pool)
    /\ pool_accounting pool.
Proof.
  destruct (pool_exhaustion (replicate 1024 (env_ok, 4, 4)) (env_ok, 4, 4))
    as (results & pool & Hrun & _ & Hblocks & _ & Hlast & Hacc).
  - reflexivity.
  - apply Forall_replicate. apply env_ok_small. vm_compute. discriminate.
  - apply env_ok_small. vm_compute. discriminate.
  - exists results, pool. split; [exact Hrun|]. split; [|split; [|split]].
    + exact (Hblocks 0%nat env_ok 4 4 eq_refl).
    + exact (Hblocks 1023%nat env_ok 4 4 eq_refl).
    + exact Hlast.
    + exact Hacc.
Defined.

(** ** C10: [tensor_to_atomspace] rebuilds the store *)

Lemma for_loop_ltb {S} (n : nat) (lo c : Z) (body : Z -> S -> outcome S) (s : S) :
  for_loop n lo (fun i => i <? c) body s
  = for_loop (Z.to_nat (Z.min (lo + Z.of_nat n) c - lo)) lo (fun _ => true) body s.
Proof.
  revert lo s. induction n as [|n IH]; intros lo s.
  - replace (Z.to_nat (Z.min (lo + Z.of_nat 0) c - lo)) with O by lia. reflexivity.
  - cbn [for_loop]. destruct (Z.ltb_spec lo c) as [Hlt|Hge].
    + replace (Z.to_nat (Z.min (lo + Z.of_nat (Datatypes.S n)) c - lo))
        with (Datatypes.S (Z.to_nat (Z.min (lo + 1 + Z.of_nat n) c - (lo + 1))))
        by lia.
      cbn [for_loop]. destruct (body lo s) as [s'|]; [|reflexivity].
      cbn [bind]. apply IH.
    + replace (Z.to_nat (Z.min (lo + Z.of_nat (Datatypes.S n)) c - lo)) with O by lia.
      reflexivity.
Qed.

Lemma for_while_ltb {S} (hi c : Z) (body : Z -> S -> outcome S) (s : S) :
  0 <= hi ->
  for_while 0 hi (fun i => i <? c) body s = for_range 0 (Z.min hi c) body s.
Proof.
  intros Hhi. unfold for_range, for_while. rewrite for_loop_ltb.
  f_equal. lia.
Qed.

(** The first loop frees the atoms of the slots below [count]. *)
Lemma clear_atoms (as_ : AtomSpace) :
  atomspace_wf as_ ->
  exists cleared,
    for_range 0 (count as_) (fun i atoms =>
      p <- load atoms i ;; p' <- free_atom p ;; store atoms i p') (atoms as_)
    = Ret cleared
    /\ length cleared = length (atoms as_)
    /\ forall p : nat,
         cleared !! p
         = if Z.of_nat p <? count as_ then released <$> atoms as_ !! p
           else atoms as_ !! p.
Proof.
  intros (Hcount & Hcap & Hlive).
  set (f := fun i => released (at_ Null (atoms as_) i)).
  destruct (for_range_foldl
              (fun i (a : list atom_ptr) =>
                 length a = length (atoms as_)
                 /\ forall p : nat, i <= Z.of_nat p -> a !! p = atoms as_ !! p)
              (put Z.to_nat f) 0 (count as_)
              (fun i atoms =>
                 p <- load atoms i ;; p' <- free_atom p ;; store atoms i p')
              (atoms as_)) as [Hrun [Hlen _]]; [lia|split; [reflexivity|auto]| |].
  - intros i a Hi [Hla Hrest].
    destruct (lookup_lt_is_Some_2 (atoms as_) (Z.to_nat i)) as [x Hx]; [lia|].
    rewrite (load_lookup a i x) by (lia || (rewrite Hrest by lia; exact Hx)).
    cbn [bind].
    assert (Hfree : free_atom x = Ret (released x)).
    { destruct x; try reflexivity. exfalso. exact (Hlive i ltac:(lia) Hx). }
    rewrite Hfree. cbn [bind]. rewrite store_in_range by lia.
    assert (Hf : f i = released x) by (unfold f, at_; rewrite Hx; reflexivity).
    unfold put. rewrite Hf. split; [reflexivity|].
    rewrite length_insert. split; [exact Hla|].
    intros p Hp. rewrite list_lookup_insert_ne by lia. apply Hrest. lia.
  - eexists. split; [exact Hrun|]. split; [exact Hlen|].
    intros p. rewrite Z.sub_0_r.
    rewrite foldl_put_seqZ by lia. rewrite take_0. cbn [app].
    destruct (Z.ltb_spec (Z.of_nat p) (count as_)) as [Hp|Hp].
    + rewrite lookup_app_l by (rewrite length_fmap, length_seqZ; lia).
      rewrite list_lookup_fmap, lookup_seqZ_lt by lia. cbn.
      destruct (lookup_lt_is_Some_2 (atoms as_) p) as [x Hx]; [lia|].
      unfold f, at_. replace (Z.to_nat (0 + Z.of_nat p)) with p by lia.
      rewrite Hx. reflexivity.
    + rewrite lookup_app_r by (rewrite length_fmap, length_seqZ; lia).
      rewrite lookup_drop, length_fmap, length_seqZ. f_equal. lia.
Qed.

Lemma filter_seqZ_succ (P : Z -> Prop) `{forall i, Decision (P i)} (i : Z) :
  0 <= i ->
  filter P (seqZ 0 (i + 1))
  = filter P (seqZ 0 i) ++ (if decide (P i) then [i] else []).
Proof.
  intros Hi. rewrite (seqZ_app 0 i 1) by lia. rewrite filter_app.
  f_equal.
Qed.

(** C10. [tensor_to_atomspace] frees every atom that the store holds and
    leaves in the store exactly one new entity per cell of the tensor with
    a linear index below the capacity of the store and a value above 0.01,
    in the order of the indices; the slots between the new and the old
    count hold no live atom. *)
Theorem tensor_to_atomspace_rebuilds (rand : nat -> Z) (t : ggml_tensor)
    (as_ : AtomSpace) :
  tensor_wf t -> atomspace_wf as_ ->
  let kept := significant t (capacity as_) in
  exists atoms',
    tensor_to_atomspace rand t as_
    = Ret {| atoms := atoms'; count := Z.of_nat (length kept);
             capacity := capacity as_ |}
    /\ length atoms' = length (atoms as_)
    /\ take (length kept) atoms' = imap (synthesized rand t) kept
    /\ forall p : nat,
         (length kept <= p)%nat ->
         atoms' !! p
         = if Z.of_nat p <? count as_ then released <$> atoms as_ !! p
           else atoms as_ !! p.
Proof.
  intros (Hne0 & Hne1 & Hprod & d & Hd & Hlen) Hwf kept.
  pose proof Hwf as (Hcount & Hcap & Hlive).
  assert (Hbuf : buffer t = d) by (unfold buffer; rewrite Hd; reflexivity).
  destruct (clear_atoms as_ Hwf) as (cleared & Hclear & Hcl & Hcleared).
  unfold tensor_to_atomspace. cbv zeta. rewrite Hclear. cbn [bind].
  assert (Hprod0 : 0 <= ne0 t * ne1 t) by (apply Z.mul_nonneg_nonneg; lia).
  rewrite to_int_small by lia. rewrite to_size_t_small by lia.
  rewrite for_while_ltb by lia.
  set (P := fun i => F32.gtb (at_ F32.zero (buffer t) i) F32.c0_01 = true).
  set (M := Z.min (ne0 t * ne1 t) (capacity as_)).
  set (g := fun (st : AtomSpace * nat) (i : Z) =>
              if F32.gtb (at_ F32.zero (buffer t) i) F32.c0_01 then
                ({| atoms := <[Z.to_nat (count (fst st)) :=
                                 synthesized rand t (snd st) i]> (atoms (fst st));
                    count := count (fst st) + 1;
                    capacity := capacity (fst st) |}, Datatypes.S (snd st))
              else st).
  destruct (for_range_foldl
              (fun i (st : AtomSpace * nat) =>
                 capacity (fst st) = capacity as_
                 /\ count (fst st) = Z.of_nat (snd st)
                 /\ snd st = length (filter P (seqZ 0 i))
                 /\ atoms (fst st)
                    = imap (synthesized rand t) (filter P (seqZ 0 i))
                      ++ drop (snd st) cleared)
              g 0 M
              (fun i (st : AtomSpace * nat) =>
                 x <- load (buffer t) i ;;
                 if F32.gtb x F32.c0_01 then
                   as' <- add_atom_to_space (fst st)
                            (create_atom (rand (snd st)) ATOM_TYPE_CONCEPT
                               (Some ("concept_" ++ format_zu i)%string)
                               (F64.of_float x) F64.c0_8) ;;
                   Ret (as', Datatypes.S (snd st))
                 else Ret st)
              ({| atoms := cleared; count := 0; capacity := capacity as_ |}, O))
    as [Hrun Hinv]; [unfold M; lia|repeat split| |].
  - intros i [a k] Hi (Hc & Hk & Hkl & Hat). cbn [fst snd] in *.
    rewrite (load_at F32.zero (buffer t)) by (rewrite Hbuf; unfold M in Hi; lia).
    cbn [bind]. unfold g. cbn [fst snd].
    assert (Hki : (k <= Z.to_nat i)%nat).
    { rewrite Hkl. etransitivity; [apply length_filter|].
      rewrite length_seqZ. lia. }
    rewrite (filter_seqZ_succ P i) by lia.
    destruct (decide (P i)) as [E|E]; unfold P in E.
    + rewrite E.
      assert (Hla : length (atoms a) = length cleared).
      { rewrite Hat, length_app, length_imap, length_drop, <- Hkl.
        unfold M in Hi. lia. }
      unfold add_atom_to_space. rewrite Hc.
      destruct (Z.ltb_spec (count a) (capacity as_)) as [_|Hge];
        [|unfold M in Hi; lia].
      rewrite store_in_range by (unfold M in Hi; lia). cbn [bind].
      unfold synthesized at 1. rewrite Hk, Nat2Z.id.
      split; [reflexivity|]. cbn [fst snd atoms count capacity].
      split; [reflexivity|]. split; [lia|].
      rewrite length_app. cbn [length]. split; [lia|].
      rewrite Hat, imap_app. cbn [imap]. rewrite <- Hkl, Nat.add_0_r.
      rewrite insert_app_r_alt by (rewrite length_imap; lia).
      rewrite length_imap, <- Hkl, Nat.sub_diag.
      destruct (lookup_lt_is_Some_2 cleared k) as [c Hck];
        [unfold M in Hi; lia|].
      rewrite (drop_S cleared c k Hck). cbn [insert list_insert].
      rewrite <- app_assoc. reflexivity.
    + apply not_true_is_false in E. rewrite E.
      rewrite app_nil_r. split; [reflexivity|]. repeat split; assumption.
  - rewrite Hrun. cbn [bind]. rewrite Z.sub_0_r in Hinv |- *.
    destruct (foldl g _ (seqZ 0 M)) as [a k].
    destruct Hinv as (Hc & Hk & Hkl & Hat). cbn [fst snd] in *.
    change (filter P (seqZ 0 M)) with kept in Hkl, Hat.
    exists (atoms a). split; [|split; [|split]].
    + destruct a as [aa ac acap]. cbn [atoms count capacity] in *.
      subst ac acap k. reflexivity.
    + rewrite Hat, length_app, length_imap, length_drop, <- Hkl, <- Hcl.
      assert ((k <= length cleared)%nat); [|lia].
      rewrite Hkl. etransitivity; [apply length_filter|].
      rewrite length_seqZ. unfold M. lia.
    + rewrite Hat. apply take_app_length'. rewrite length_imap. reflexivity.
    + intros p Hp. rewrite Hat.
      rewrite lookup_app_r by (rewrite length_imap; exact Hp).
      rewrite lookup_drop, length_imap, <- Hkl.
      replace (k + (p - k))%nat with p by lia. apply Hcleared.
Qed.

Lemma tensor_to_atomspace_rebuilds_witness :
  exists atoms',
    tensor_to_atomspace (fun _ => 12345) row2 store1
    = Ret {| atoms := atoms'; count := 2; capacity := 3 |}
    /\ atoms' !! 2%nat = Some Dangling.
Proof.
  destruct (tensor_to_atomspace_rebuilds (fun _ => 12345) row2 store1)
    as (atoms' & Hrun & _ & _ & Hrest).
  - sample_tensor_wf.
  - unfold atomspace_wf, store1. cbn [atoms count capacity].
    split; [lia|]. split; [reflexivity|].
    intros p Hp. replace p with 0 by lia. discriminate.
  - exists atoms'. split; [exact Hrun|]. exact (Hrest 2%nat ltac:(vm_compute; lia)).
Defined.

(** * Further properties of the code *)

(** ** Binary32 addition and multiplication commute *)

Lemma mul_comm (x y : float) : F32.mul x y = F32.mul y x.
Proof.
  unfold F32.mul, SFmul.
  destruct x as [sx|sx| |sx mx ex], y as [sy|sy| |sy my ey];
    try reflexivity; try (rewrite (xorb_comm sx sy); reflexivity).
  rewrite (xorb_comm sx sy), (Pos.mul_comm mx my), (Z.add_comm ex ey).
  reflexivity.
Qed.

Lemma add_comm (x y : float) : F32.add x y = F32.add y x.
Proof.
  unfold F32.add, SFadd.
  destruct x as [sx|sx| |sx mx ex], y as [sy|sy| |sy my ey];
    try reflexivity; try (destruct sx, sy; reflexivity).
  rewrite (Z.min_comm ex ey).
  rewrite (Z.add_comm (cond_Zopp sx _) (cond_Zopp sy _)).
  reflexivity.
Qed.

(** ** Loops with equal bodies *)

Lemma for_loop_ext {S} (n : nat) (lo : Z) (extra : Z -> bool)
    (body1 body2 : Z -> S -> outcome S) (s : S) :
  (forall i s, body1 i s = body2 i s) ->
  for_loop n lo extra body1 s = for_loop n lo extra body2 s.
Proof.
  intros Hb. revert lo s. induction n as [|n IH]; intros lo s; [reflexivity|].
  cbn [for_loop]. destruct (extra lo); [|reflexivity].
  rewrite Hb. destruct (body2 lo s); [|reflexivity]. cbn [bind]. apply IH.
Qed.

Lemma elementwise_flip (op : float -> float -> float) (a_data b_data r : list float)
    (size : Z) :
  (forall x y, op x y = op y x) ->
  elementwise op a_data b_data size r = elementwise op b_data a_data size r.
Proof.
  intros Hop. unfold elementwise, for_range, for_while.
  apply for_loop_ext. intros i s.
  destruct (load a_data i) as [x|], (load b_data i) as [y|]; cbn [bind];
    try reflexivity.
  rewrite Hop. reflexivity.
Qed.

(** X1. [ggml_mul] and [ggml_add] commute on every pair of operands with
    the same first two extents, null operands, null buffers and buffers
    that are too short included: both orders return the same tensor, the
    same [NULL] or fault alike. *)
Theorem ggml_mul_add_commute (a b : option ggml_tensor) :
  (forall ta tb, a = Some ta -> b = Some tb ->
                 ne0 ta = ne0 tb /\ ne1 ta = ne1 tb) ->
  ggml_mul a b = ggml_mul b a /\ ggml_add a b = ggml_add b a.
Proof.
  intros Hext.
  assert (H : forall op, (forall x y : float, op x y = op y x) ->
                         ggml_binop op a b = ggml_binop op b a).
  { intros op Hop. unfold ggml_binop.
    destruct a as [ta|], b as [tb|]; try reflexivity.
    destruct (Hext ta tb eq_refl eq_refl) as [E0 E1]. rewrite <- E0, <- E1.
    destruct (data ta) as [da|], (data tb) as [db|]; try reflexivity.
    destruct (ggml_new_tensor_2d 0 (ne0 ta) (ne1 ta)) as [r|]; [|reflexivity].
    destruct (data r) as [rd|]; [|reflexivity].
    rewrite (elementwise_flip op da db) by exact Hop. reflexivity. }
  split; apply H; [exact mul_comm|exact add_comm].
Qed.

Lemma ggml_mul_add_commute_witness :
  ggml_mul (Some row2) (Some (matrix 1 2 [f0_9; F32.half]))
  = ggml_mul (Some (matrix 1 2 [f0_9; F32.half])) (Some row2)
  /\ ggml_add (Some row2) (Some (matrix 1 2 [f0_9; F32.half]))
     = ggml_add (Some (matrix 1 2 [f0_9; F32.half])) (Some row2).
Proof.
  apply (ggml_mul_add_commute (Some row2) (Some (matrix 1 2 [f0_9; F32.half]))).
  intros ta tb Ea Eb. inversion Ea. inversion Eb. split; reflexivity.
Defined.

(** X2. The vectorised kernels return the tensor of the scalar kernels,
    for every size within [int], a multiple of 8 or not, whenever the pool
    or the system gives them a buffer and, for operands of eight floats or
    more, both operand buffers lie at multiples of 32 bytes, as
    [_mm256_load_ps] needs. *)
Theorem simd_agrees_with_scalar (env : alloc_env) (pool pool' : TensorMemoryPool)
    (a_addr b_addr : Z) (a b : ggml_tensor) (da db : list float)
    (r : ggml_tensor) (o : data_origin) :
  data a = Some da -> data b = Some db ->
  0 <= ne0 a * ne1 a <= INT_MAX ->
  ne0 a * ne1 a <= Z.of_nat (length da) ->
  ne0 a * ne1 a <= Z.of_nat (length db) ->
  (8 <= ne0 a * ne1 a -> a_addr mod 32 = 0 /\ b_addr mod 32 = 0) ->
  ggml_new_tensor_2d_optimized env pool 0 (ne0 a) (ne1 a) = Ret (Some (r, o), pool') ->
  exists tm ta,
    ggml_mul (Some a) (Some b) = Ret (Some tm)
    /\ ggml_mul_simd env pool a_addr b_addr (Some a) (Some b) = Ret (Some tm, pool')
    /\ ggml_add (Some a) (Some b) = Ret (Some ta)
    /\ ggml_add_simd env pool a_addr b_addr (Some a) (Some b) = Ret (Some ta, pool').
Proof.
  intros Ha Hb Hn Hla Hlb Hal Halloc.
  assert (H : forall op, exists t,
            ggml_binop op (Some a) (Some b) = Ret (Some t)
            /\ ggml_binop_simd op env pool a_addr b_addr (Some a) (Some b)
               = Ret (Some t, pool')).
  { intros op. eexists. split.
    - rewrite (ggml_binop_buffers op a b da db) by assumption.
      rewrite elementwise_zip by (rewrite ?length_replicate; lia).
      reflexivity.
    - rewrite (ggml_binop_simd_buffers op env pool pool' a_addr b_addr a b
                 da db r o) by assumption.
      rewrite elementwise_simd_zip
        by (rewrite ?length_replicate; solve [lia | exact Hal]).
      reflexivity. }
  destruct (H F32.mul) as (tm & Hm1 & Hm2).
  destruct (H F32.add) as (ta & Ha1 & Ha2).
  exists tm, ta. repeat split; assumption.
Qed.

Lemma simd_agrees_with_scalar_witness :
  exists pool' tm ta,
    ggml_mul (Some (matrix 3 3 (replicate 9 f0_9)))
             (Some (matrix 3 3 (replicate 9 F32.half))) = Ret (Some tm)
    /\ ggml_mul_simd env_ok tensor_pool 64 96
         (Some (matrix 3 3 (replicate 9 f0_9)))
         (Some (matrix 3 3 (replicate 9 F32.half))) = Ret (Some tm, pool')
    /\ ggml_add (Some (matrix 3 3 (replicate 9 f0_9)))
                (Some (matrix 3 3 (replicate 9 F32.half))) = Ret (Some ta)
    /\ ggml_add_simd env_ok tensor_pool 64 96
         (Some (matrix 3 3 (replicate 9 f0_9)))
         (Some (matrix 3 3 (replicate 9 F32.half))) = Ret (Some ta, pool').
Proof.
  eexists.
  eapply (simd_agrees_with_scalar env_ok tensor_pool _ 64 96
            (matrix 3 3 (replicate 9 f0_9)) (matrix 3 3 (replicate 9 F32.half))
            (replicate 9 f0_9) (replicate 9 F32.half)).
  - reflexivity.
  - reflexivity.
  - cbn. unfold INT_MAX. lia.
  - vm_compute. discriminate.
  - vm_compute. discriminate.
  - intros _. split; reflexivity.
  - vm_compute. reflexivity.
Defined.

(** ** The hypergraph codec: symmetry, layout and fresh hypergraphs *)

Lemma encode_symmetric_cells (h : hypergraph_t) :
  hypergraph_wf h ->
  symmetric (node_count h) (adjacency_matrix h) ->
  exists t,
    encode_hypergraph_to_tensor (Some h) = Ret (Some t)
    /\ ne0 t = node_count h /\ ne1 t = node_count h
    /\ forall i j, 0 <= i < node_count h -> 0 <= j < node_count h ->
         tensor_cell t i j = Some (encode_value h i j)
         /\ tensor_cell t j i = tensor_cell t i j.
Proof.
  intros Hwf Hsym.
  destruct (encode_run h Hwf) as (td & Henc & Hlen & Hcells).
  eexists. split; [exact Henc|]. cbn [ne0 ne1]. split; [reflexivity|].
  split; [reflexivity|].
  assert (Hcell : forall i j, 0 <= i < node_count h -> 0 <= j < node_count h ->
            tensor_cell {| ne0 := node_count h; ne1 := node_count h; ne2 := 1;
                           ne3 := 1; data := Some td; type := 0 |} i j
            = Some (encode_value h i j)).
  { intros i j Hi Hj.
    rewrite (tensor_cell_inside _ td) by (cbn [data ne0 ne1]; (reflexivity || lia)).
    cbn [ne1]. unfold cell, at_. rewrite Hcells by assumption. reflexivity. }
  intros i j Hi Hj. rewrite !Hcell by assumption. split; [reflexivity|].
  f_equal. unfold encode_value.
  specialize (Hsym i j Hi Hj). unfold adjacency in Hsym. rewrite Hsym.
  rewrite (add_comm (at_ F32.zero (node_weights h) j)). reflexivity.
Qed.

(** X3. The encoding of a hypergraph with a symmetric adjacency matrix
    is a symmetric [n] by [n] tensor: the cells [(i, j)] and [(j, i)] hold
    the same float. *)
Theorem encode_symmetric (h : hypergraph_t) :
  hypergraph_wf h ->
  symmetric (node_count h) (adjacency_matrix h) ->
  exists t,
    encode_hypergraph_to_tensor (Some h) = Ret (Some t)
    /\ ne0 t = node_count h /\ ne1 t = node_count h
    /\ forall i j, 0 <= i < node_count h -> 0 <= j < node_count h ->
         tensor_cell t i j = Some (encode_value h i j)
         /\ tensor_cell t j i = tensor_cell t i j.
Proof. exact (encode_symmetric_cells h). Qed.

Lemma encode_symmetric_witness :
  exists t,
    encode_hypergraph_to_tensor
      (Some {| node_count := 2; link_count := 0; node_weights := [f0_9; F32.half];
               link_weights := []; adjacency_matrix := [0; 1; 1; 0] |})
    = Ret (Some t)
    /\ tensor_cell t 1 0 = tensor_cell t 0 1.
Proof.
  destruct (encode_symmetric
              {| node_count := 2; link_count := 0; node_weights := [f0_9; F32.half];
                 link_weights := []; adjacency_matrix := [0; 1; 1; 0] |})
    as (t & Hrun & _ & _ & Hcells).
  - sample_hypergraph_wf.
  - intros i j Hi Hj. cbn [node_count adjacency_matrix] in *.
    assert (Ei : i = 0 \/ i = 1) by lia. assert (Ej : j = 0 \/ j = 1) by lia.
    destruct Ei as [-> | ->], Ej as [-> | ->]; reflexivity.
  - exists t. split; [exact Hrun|].
    exact (proj2 (Hcells 0 1 ltac:(cbn; lia) ltac:(cbn; lia))).
Defined.

Lemma foldl_put_Forall {K A} (P : A -> Prop) (idx : K -> nat) (f : K -> A)
    (ks : list K) (r : list A) :
  (forall k, P (f k)) -> Forall P r -> Forall P (foldl (put idx f) r ks).
Proof.
  intros Hf. revert r. induction ks as [|k ks IH]; intros r Hr; [exact Hr|].
  cbn [foldl]. apply IH. unfold put. apply Forall_insert; [exact Hr|apply Hf].
Qed.

(** X4. The decoder keeps a hypergraph in shape: on a tensor whose rows
    have at least [min (node_count, ne0)] columns it returns 0 and leaves
    the node count, the link count, the link weights and the sizes of the
    two arrays as they were, and an adjacency matrix of zeros and ones is
    still one afterwards. *)
Theorem decode_keeps_shape (t : ggml_tensor) (h : hypergraph_t) :
  tensor_wf t -> hypergraph_wf h ->
  Z.min (node_count h) (ne0 t) <= ne1 t ->
  exists h',
    decode_tensor_to_hypergraph (Some t) (Some h) = Ret (0, Some h')
    /\ hypergraph_wf h'
    /\ node_count h' = node_count h
    /\ link_count h' = link_count h
    /\ link_weights h' = link_weights h
    /\ (binary (adjacency_matrix h) -> binary (adjacency_matrix h')).
Proof.
  intros (Hne0 & Hne1 & Hprod & d & Hd & Hlen) Hwf Hcols.
  pose proof Hwf as (HN & Hsq & Hnw & Hadj).
  destruct (decode_run t h d Hd Hwf Hne0 Hcols ltac:(lia)) as (Hrun & Hl1 & Hl2).
  eexists. split; [exact Hrun|].
  cbn [set_graph node_count link_count link_weights adjacency_matrix].
  split; [|repeat split].
  - unfold hypergraph_wf.
    cbn [set_graph node_count node_weights adjacency_matrix].
    rewrite Hl1, Hl2. repeat split; assumption.
  - intros Hbin. rewrite decode_rule_fst. cbn [fst].
    apply foldl_put_Forall; [|exact Hbin].
    intros c. unfold threshold. destruct (F32.gtb _ F32.half); [right|left]; reflexivity.
Qed.

Lemma decode_keeps_shape_witness :
  exists h',
    decode_tensor_to_hypergraph (Some column3)
      (Some {| node_count := 1; link_count := 2; node_weights := [F32.zero];
               link_weights := [f0_9; f0_9]; adjacency_matrix := [1] |})
    = Ret (0, Some h')
    /\ link_weights h' = [f0_9; f0_9].
Proof.
  destruct (decode_keeps_shape column3
              {| node_count := 1; link_count := 2; node_weights := [F32.zero];
                 link_weights := [f0_9; f0_9]; adjacency_matrix := [1] |})
    as (h' & Hrun & _ & _ & _ & Hlw & _).
  - sample_tensor_wf.
  - sample_hypergraph_wf.
  - cbn. lia.
  - exists h'. split; [exact Hrun|exact Hlw].
Defined.

Lemma foldl_put_idem {K A} (idx : K -> nat) (f : K -> A) (ks : list K) (r : list A) :
  (forall k, k ∈ ks -> (idx k < length r)%nat) ->
  (forall k k', k ∈ ks -> k' ∈ ks -> idx k = idx k' -> f k = f k') ->
  foldl (put idx f) (foldl (put idx f) r ks) ks = foldl (put idx f) r ks.
Proof.
  intros Hlen Hsame. apply list_eq. intros p.
  destruct (decide (p ∈ idx <$> ks)) as [Hin|Hout].
  - apply list_elem_of_fmap in Hin as (k & -> & Hk).
    rewrite !foldl_put_lookup; try reflexivity; try exact Hk.
    + apply Hlen. exact Hk.
    + intros k' Hk' E. apply Hsame; assumption.
    + rewrite foldl_put_length. apply Hlen. exact Hk.
    + intros k' Hk' E. apply Hsame; assumption.
  - rewrite foldl_put_other; [reflexivity|].
    intros k Hk E. apply Hout. apply list_elem_of_fmap. exists k. split; [auto|exact Hk].
Qed.

(** X5. Decoding the same tensor a second time leaves the adjacency
    matrix of the first decoding: the thresholded entries do not depend on
    the hypergraph, only the node weights keep moving. *)
Theorem decode_twice_adjacency (t : ggml_tensor) (h : hypergraph_t) :
  tensor_wf t -> hypergraph_wf h ->
  Z.min (node_count h) (ne0 t) <= ne1 t ->
  exists h1 h2,
    decode_tensor_to_hypergraph (Some t) (Some h) = Ret (0, Some h1)
    /\ decode_tensor_to_hypergraph (Some t) (Some h1) = Ret (0, Some h2)
    /\ adjacency_matrix h2 = adjacency_matrix h1.
Proof.
  intros (Hne0 & Hne1 & Hprod & d & Hd & Hlen) Hwf Hcols.
  pose proof Hwf as (HN & Hsq & Hnw & Hadj).
  destruct (decode_run t h d Hd Hwf Hne0 Hcols ltac:(lia)) as (Hrun & Hl1 & Hl2).
  set (m := Z.min (node_count h) (ne0 t)) in *.
  set (st := foldl (decode_rule (cell d (ne1 t)) (node_count h))
                   (adjacency_matrix h, node_weights h) (cells m m)) in *.
  set (h1 := set_graph h (fst st) (snd st)).
  assert (Hwf1 : hypergraph_wf h1).
  { unfold hypergraph_wf, h1.
    cbn [set_graph node_count node_weights adjacency_matrix].
    rewrite Hl1, Hl2. repeat split; assumption. }
  destruct (decode_run t h1 d Hd Hwf1 Hne0 Hcols ltac:(lia)) as (Hrun1 & _ & _).
  eexists h1, _. split; [exact Hrun|]. split; [exact Hrun1|].
  cbn [h1 set_graph node_count adjacency_matrix node_weights]. fold m.
  rewrite decode_rule_fst. cbn [fst]. subst st. rewrite decode_rule_fst.
  cbn [fst]. apply foldl_put_idem.
  - intros [i j] Hc. apply elem_of_cells in Hc. cbn [fst snd].
    assert (0 <= i * node_count h + j < node_count h * node_count h)
      by (apply row_major_bound; lia). lia.
  - intros [i j] [i' j'] Hc Hc' E. apply elem_of_cells in Hc, Hc'.
    cbn [fst snd] in *.
    assert (0 <= i * node_count h + j < node_count h * node_count h)
      by (apply row_major_bound; lia).
    assert (0 <= i' * node_count h + j' < node_count h * node_count h)
      by (apply row_major_bound; lia).
    destruct (row_major_inj (node_count h) i j i' j') as [-> ->]; [lia..|reflexivity].
Qed.

Lemma decode_twice_adjacency_witness :
  exists h1 h2,
    decode_tensor_to_hypergraph (Some column3)
      (Some {| node_count := 1; link_count := 0; node_weights := [F32.zero];
               link_weights := []; adjacency_matrix := [1] |})
    = Ret (0, Some h1)
    /\ decode_tensor_to_hypergraph (Some column3) (Some h1) = Ret (0, Some h2)
    /\ adjacency_matrix h2 = adjacency_matrix h1.
Proof.
  apply (decode_twice_adjacency column3
           {| node_count := 1; link_count := 0; node_weights := [F32.zero];
              link_weights := []; adjacency_matrix := [1] |}).
  - sample_tensor_wf.
  - sample_hypergraph_wf.
  - cbn. lia.
Defined.



(** ** The tensor pool under every answer of the system allocator *)

Lemma init_tensor_pool_run (block_ok : Z -> bool) (pool : TensorMemoryPool) :
  Z.of_nat (length (blocks pool)) = TENSOR_POOL_SIZE ->
  Z.of_nat (length (free_blocks pool)) = TENSOR_POOL_SIZE ->
  init_tensor_pool block_ok pool
  = Ret {| blocks := (fun i => if block_ok i then Some i else None)
                       <$> seqZ 0 TENSOR_POOL_SIZE;
           free_blocks := seqZ 0 TENSOR_POOL_SIZE;
           allocated_blocks := allocated_blocks pool;
           free_count := TENSOR_POOL_SIZE;
           allocated_count := 0;
           total_allocated := 0;
           peak_usage := 0 |}.
Proof.
  intros Hb Hf. unfold init_tensor_pool.
  destruct (for_range_foldl
              (fun _ (st : list (option Z) * list Z) =>
                 length (fst st) = length (blocks pool)
                 /\ length (snd st) = length (free_blocks pool))
              (fun st i =>
                 (<[Z.to_nat i := if block_ok i then Some i else None]> (fst st),
                  <[Z.to_nat i := i]> (snd st)))
              0 TENSOR_POOL_SIZE
              (fun i (st : list (option Z) * list Z) =>
                 b <- store (fst st) i (if block_ok i then Some i else None) ;;
                 f <- store (snd st) i i ;;
                 Ret (b, f))
              (blocks pool, free_blocks pool)) as [Hrun _];
    [unfold TENSOR_POOL_SIZE; lia|split; reflexivity| |].
  - intros i [b f] Hi [Hlb Hlf]. cbn [fst snd] in *.
    rewrite !store_in_range by lia. cbn [bind].
    split; [reflexivity|]. rewrite !length_insert. split; assumption.
  - rewrite Hrun. cbn [bind]. rewrite Z.sub_0_r.
    rewrite (foldl_pair_put (fun i => if block_ok i then Some i else None) (fun i => i)).
    cbn [fst snd].
    assert (0 <= TENSOR_POOL_SIZE) by (unfold TENSOR_POOL_SIZE; lia).
    rewrite !foldl_put_seqZ by lia.
    rewrite !take_0, !drop_ge by lia. rewrite !app_nil_r. cbn [app].
    rewrite list_fmap_id. reflexivity.
Qed.

Lemma tensor_pool_wf : pool_wf tensor_pool.
Proof.
  split; [reflexivity|]. split; [reflexivity|]. split; [reflexivity|]. split.
  - intros i b Hi. unfold tensor_pool in Hi. cbn [blocks] in Hi.
    apply lookup_replicate in Hi as [Hi _]. discriminate.
  - left. reflexivity.
Qed.

(** One acquisition from a pool whose arrays are in place. *)
Lemma acquire_step (env : alloc_env) (pool : TensorMemoryPool) (ty n0 n1 : Z) :
  pool_wf pool ->
  exists res pool',
    ggml_new_tensor_2d_optimized env pool ty n0 n1 = Ret (res, pool')
    /\ pool_wf pool' /\ pool_counts pool'
    /\ (forall t o, res = Some (t, o) -> t = zero_tensor ty n0 n1)
    /\ (forall t b, res = Some (t, PoolBlock b) ->
          0 <= b < TENSOR_POOL_SIZE /\ data_size n0 n1 <= TENSOR_BLOCK_SIZE).
Proof.
  intros (Hb & Hf & Ha & Hnamed & Hstate).
  assert (HS : TENSOR_POOL_SIZE = 1024) by reflexivity.
  assert (Hrest : forall p1,
            Z.of_nat (length (blocks p1)) = TENSOR_POOL_SIZE ->
            Z.of_nat (length (free_blocks p1)) = TENSOR_POOL_SIZE ->
            Z.of_nat (length (allocated_blocks p1)) = TENSOR_POOL_SIZE ->
            (forall (i : nat) b, blocks p1 !! i = Some (Some b) -> b = Z.of_nat i) ->
            pool_counts p1 ->
            exists res pool',
              (if negb (env_malloc env) then Ret (None, p1)
               else
                 let data_size := to_size_t (to_size_t (to_int (n0 * n1)) * 4) in
                 let tensor := {| ne0 := n0; ne1 := n1; ne2 := 1; ne3 := 1;
                                  data := Some (replicate (Z.to_nat (data_size / 4))
                                                  F32.zero);
                                  type := ty |} in
                 if (data_size <=? TENSOR_BLOCK_SIZE) && (0 <? free_count p1) then
                   let free_count' := free_count p1 - 1 in
                   block_idx <- load (free_blocks p1) free_count' ;;
                   allocated_blocks' <-
                     store (allocated_blocks p1) (allocated_count p1) block_idx ;;
                   block <- load (blocks p1) block_idx ;;
                   let total := to_size_t (total_allocated p1 + data_size) in
                   let pool' :=
                     {| blocks := blocks p1;
                        free_blocks := free_blocks p1;
                        allocated_blocks := allocated_blocks';
                        free_count := free_count';
                        allocated_count := allocated_count p1 + 1;
                        total_allocated := total;
                        peak_usage := if peak_usage p1 <? total then total
                                      else peak_usage p1 |} in
                   match block with
                   | None => Ret (None, pool')
                   | Some blk => Ret (Some (tensor, PoolBlock blk), pool')
                   end
                 else if env_fallback env then Ret (Some (tensor, SystemBuffer), p1)
                 else Ret (None, p1))
              = Ret (res, pool')
              /\ pool_wf pool' /\ pool_counts pool'
              /\ (forall t o, res = Some (t, o) -> t = zero_tensor ty n0 n1)
              /\ (forall t b, res = Some (t, PoolBlock b) ->
                    0 <= b < TENSOR_POOL_SIZE /\ data_size n0 n1 <= TENSOR_BLOCK_SIZE)).
  { intros p1 Hb1 Hf1 Ha1 Hn1 Hc1.
    assert (Hwf1 : pool_wf p1).
    { split; [exact Hb1|]. split; [exact Hf1|]. split; [exact Ha1|].
      split; [exact Hn1|]. right. exact Hc1. }
    destruct (env_malloc env); cbn [negb].
    2: { eexists _, _. split; [reflexivity|]. split; [exact Hwf1|].
         split; [exact Hc1|]. split; intros; discriminate. }
    cbv zeta. change (to_size_t (to_size_t (to_int (n0 * n1)) * 4)) with (data_size n0 n1).
    destruct (Z.leb_spec (data_size n0 n1) TENSOR_BLOCK_SIZE) as [Hsize|Hsize];
      cbn [andb].
    2: { destruct (env_fallback env); eexists _, _; (split; [reflexivity|]);
         (split; [exact Hwf1|]); (split; [exact Hc1|]);
         split; intros t o E; inversion E; reflexivity. }
    destruct (Z.ltb_spec 0 (free_count p1)) as [Hfree|Hfree].
    2: { destruct (env_fallback env); eexists _, _; (split; [reflexivity|]);
         (split; [exact Hwf1|]); (split; [exact Hc1|]);
         split; intros t o E; inversion E; reflexivity. }
    destruct Hc1 as (Hfc & Hsum & Hlist & Hpeak).
    destruct (Hlist (free_count p1 - 1) ltac:(lia)) as (b & Hlb & Hbr).
    rewrite (load_lookup (free_blocks p1) _ b) by (lia || exact Hlb). cbn [bind].
    rewrite store_in_range by lia. cbn [bind].
    destruct (load_in_range (blocks p1) b ltac:(lia)) as (blk & Hlk & Hblk).
    rewrite Hblk. cbn [bind].
    set (total := to_size_t (total_allocated p1 + data_size n0 n1)).
    set (ab := <[Z.to_nat (allocated_count p1) := b]> (allocated_blocks p1)).
    set (p2 := {| blocks := blocks p1; free_blocks := free_blocks p1;
                  allocated_blocks := ab;
                  free_count := free_count p1 - 1;
                  allocated_count := allocated_count p1 + 1;
                  total_allocated := total;
                  peak_usage := if peak_usage p1 <? total then total
                                else peak_usage p1 |}).
    assert (Hcounts : pool_counts p2).
    { unfold pool_counts, p2.
      cbn [free_count allocated_count free_blocks total_allocated peak_usage].
      split; [lia|]. split; [lia|]. split.
      - intros i Hi. apply Hlist. lia.
      - destruct (Z.ltb_spec (peak_usage p1) total); lia. }
    assert (Hwf2 : pool_wf p2).
    { unfold pool_wf, p2. cbn [blocks free_blocks allocated_blocks].
      split; [exact Hb1|]. split; [exact Hf1|]. split.
      - unfold ab. rewrite length_insert. exact Ha1.
      - split; [exact Hn1|]. right. exact Hcounts. }
    destruct blk as [blk|]; eexists _, _; (split; [reflexivity|]);
      (split; [exact Hwf2|]); (split; [exact Hcounts|]).
    - split.
      + intros t o E. inversion E. reflexivity.
      + intros t b' E. inversion E. subst b'.
        split; [|exact Hsize].
        rewrite (Hn1 _ _ Hlk). lia.
    - split; intros; discriminate. }
  unfold ggml_new_tensor_2d_optimized.
  destruct (load_in_range (blocks pool) 0 ltac:(lia)) as (b0 & Hb0 & Hload).
  rewrite Hload. cbn [bind].
  destruct b0 as [b0|].
  - cbn [bind]. apply Hrest; try assumption.
    destruct Hstate as [Hnull|Hc]; [|exact Hc].
    change (Z.to_nat 0) with 0%nat in Hb0. congruence.
  - rewrite init_tensor_pool_run by assumption. cbn [bind].
    apply Hrest; cbn [blocks free_blocks allocated_blocks];
      rewrite ?length_fmap, ?length_seqZ; try lia.
    { intros i b Hi. apply list_lookup_fmap_Some in Hi as (x & E & Hx).
      apply lookup_seqZ in Hx. destruct (env_block env x); [|discriminate].
      inversion E. lia. }
    unfold pool_counts. cbn [free_count allocated_count free_blocks
                               total_allocated peak_usage].
    split; [lia|]. split; [lia|]. split; [|lia].
    intros i Hi. exists i. rewrite lookup_seqZ_lt by lia. split; [f_equal; lia|lia].
Qed.

Lemma allocate_all_counts (reqs : list request) (pool : TensorMemoryPool) :
  pool_wf pool ->
  exists results pool',
    allocate_all pool reqs = Ret (results, pool')
    /\ length results = length reqs
    /\ Forall (fun res => pool_counts (snd res)) results
    /\ pool_wf pool'.
Proof.
  revert pool. induction reqs as [|[[env n0] n1] reqs IH]; intros pool Hwf.
  - exists [], pool. split; [reflexivity|]. split; [reflexivity|].
    split; [constructor|exact Hwf].
  - destruct (acquire_step env pool 0 n0 n1 Hwf) as (res & p1 & Hrun & Hwf1 & Hc1 & _).
    destruct (IH p1 Hwf1) as (results & pool' & Hrest & Hlen & Hall & Hwf').
    cbn [allocate_all fst snd]. rewrite Hrun. cbn [bind snd]. rewrite Hrest.
    cbn [bind fst snd]. eexists _, _. split; [reflexivity|].
    cbn [length]. split; [lia|]. split; [|exact Hwf'].
    constructor; [exact Hc1|exact Hall].
Qed.

(** X7. Whatever the system allocator answers and whatever extents are
    asked for, a sequence of acquisitions that starts with the static pool
    never leaves the three arrays of the pool, and after every call the
    counters are consistent: [0 <= free_count <= TENSOR_POOL_SIZE],
    [free_count + allocated_count = TENSOR_POOL_SIZE], the free list names
    blocks of the pool and [total_allocated <= peak_usage]. *)
Theorem pool_counters_consistent (reqs : list request) :
  exists results pool,
    allocate_all tensor_pool reqs = Ret (results, pool)
    /\ length results = length reqs
    /\ Forall (fun res => pool_counts (snd res)) results.
Proof.
  destruct (allocate_all_counts reqs tensor_pool) as (results & pool & H1 & H2 & H3 & _).
  - apply tensor_pool_wf.
  - exists results, pool. repeat split; assumption.
Qed.

(** X8. For extents whose product lies within [int], a tensor that comes
    from the pool has the extents asked for and a buffer of [ne0 * ne1]
    zeros, its block is a block of the pool, and its
    [ne0 * ne1 * sizeof(float)] bytes fit in the block. *)
Theorem pooled_tensor_fits (env : alloc_env) (pool pool' : TensorMemoryPool)
    (ty n0 n1 : Z) (t : ggml_tensor) (b : Z) :
  pool_wf pool ->
  0 <= n0 * n1 <= INT_MAX ->
  ggml_new_tensor_2d_optimized env pool ty n0 n1 = Ret (Some (t, PoolBlock b), pool') ->
  t = {| ne0 := n0; ne1 := n1; ne2 := 1; ne3 := 1;
         data := Some (replicate (Z.to_nat (n0 * n1)) F32.zero); type := ty |}
  /\ 0 <= b < TENSOR_POOL_SIZE
  /\ n0 * n1 * 4 <= TENSOR_BLOCK_SIZE
  /\ free_count pool' + allocated_count pool' = TENSOR_POOL_SIZE.
Proof.
  intros Hwf Hn Hrun.
  destruct (acquire_step env pool ty n0 n1 Hwf)
    as (res & p1 & Hrun' & _ & Hc & Ht & Hblk).
  rewrite Hrun in Hrun'. inversion Hrun'. subst res p1.
  destruct (Hblk t b eq_refl) as [H1 H2].
  rewrite data_size_small in H2 by exact Hn.
  split; [|split; [exact H1|split; [exact H2|apply Hc]]].
  rewrite (Ht t _ eq_refl). apply zero_tensor_small. exact Hn.
Qed.

Lemma pooled_tensor_fits_witness :
  exists pool',
    ggml_new_tensor_2d_optimized env_ok tensor_pool 0 4 4
    = Ret (Some (matrix 4 4 (replicate 16 F32.zero), PoolBlock 1023), pool')
    /\ 4 * 4 * 4 <= TENSOR_BLOCK_SIZE.
Proof.
  eexists. split; [vm_compute; reflexivity|].
  refine (proj1 (proj2 (proj2 (pooled_tensor_fits env_ok tensor_pool _ 0 4 4 _ 1023 _ _ _)))).
  - apply tensor_pool_wf.
  - unfold INT_MAX. lia.
  - vm_compute. reflexivity.
Defined.

(** X9. A failed acquisition can still change the pool: when the block
    on top of the free list could not be allocated at initialisation, an
    acquisition of at most one block returns [NULL] and nevertheless takes
    the block off the free list, counts it as allocated and adds the bytes
    asked for to [total_allocated]. *)
Theorem failed_block_is_consumed (env : alloc_env) (pool : TensorMemoryPool)
    (ty n0 n1 b : Z) :
  pool_wf pool ->
  blocks pool !! 0%nat <> Some None ->
  env_malloc env = true ->
  data_size n0 n1 <= TENSOR_BLOCK_SIZE ->
  0 < free_count pool ->
  free_blocks pool !! Z.to_nat (free_count pool - 1) = Some b ->
  blocks pool !! Z.to_nat b = Some None ->
  exists pool',
    ggml_new_tensor_2d_optimized env pool ty n0 n1 = Ret (None, pool')
    /\ free_count pool' = free_count pool - 1
    /\ allocated_count pool' = allocated_count pool + 1
    /\ total_allocated pool' = to_size_t (total_allocated pool + data_size n0 n1)
    /\ blocks pool' = blocks pool
    /\ free_blocks pool' = free_blocks pool.
Proof.
  intros (Hb & Hf & Ha & Hnamed & Hstate) Hinit Hmalloc Hsize Hfree Htop Hnull.
  destruct Hstate as [Hnone|(Hfc & Hsum & Hlist & Hpeak)]; [contradiction|].
  assert (HS : TENSOR_POOL_SIZE = 1024) by reflexivity.
  destruct (Hlist (free_count pool - 1) ltac:(lia)) as (b' & Hb' & Hrange).
  assert (b' = b) by congruence. subst b'.
  unfold ggml_new_tensor_2d_optimized.
  destruct (load_in_range (blocks pool) 0 ltac:(lia)) as (b0 & Hb0 & Hload).
  rewrite Hload. cbn [bind].
  destruct b0 as [b0|]; [|exfalso; exact (Hinit Hb0)].
  cbn [bind]. rewrite Hmalloc. cbn [negb]. cbv zeta.
  change (to_size_t (to_size_t (to_int (n0 * n1)) * 4)) with (data_size n0 n1).
  destruct (Z.leb_spec (data_size n0 n1) TENSOR_BLOCK_SIZE); [|lia].
  destruct (Z.ltb_spec 0 (free_count pool)); [|lia]. cbn [andb].
  rewrite (load_lookup (free_blocks pool) _ b) by (lia || exact Htop). cbn [bind].
  rewrite store_in_range by lia. cbn [bind].
  rewrite (load_lookup (blocks pool) b None) by (lia || exact Hnull). cbn [bind].
  eexists. split; [reflexivity|]. repeat split.
Qed.

Lemma failed_block_is_consumed_witness :
  exists pool',
    ggml_new_tensor_2d_optimized env_ok
      {| blocks := (fun i => if i =? 1023 then None else Some i) <$> seqZ 0 1024;
         free_blocks := seqZ 0 1024;
         allocated_blocks := replicate 1024 0;
         free_count := 1024; allocated_count := 0;
         total_allocated := 0; peak_usage := 0 |} 0 4 4
    = Ret (None, pool')
    /\ free_count pool' = 1023
    /\ allocated_count pool' = 1
    /\ total_allocated pool' = 64.
Proof.
  destruct (failed_block_is_consumed env_ok
              {| blocks := (fun i => if i =? 1023 then None else Some i) <$> seqZ 0 1024;
                 free_blocks := seqZ 0 1024;
                 allocated_blocks := replicate 1024 0;
                 free_count := 1024; allocated_count := 0;
                 total_allocated := 0; peak_usage := 0 |} 0 4 4 1023)
    as (pool' & Hrun & H1 & H2 & H3 & _).
  - split; [reflexivity|]. split; [reflexivity|]. split; [reflexivity|]. split.
    + intros i b Hi. cbn [blocks] in Hi.
      apply list_lookup_fmap_Some in Hi as (x & E & Hx).
      apply lookup_seqZ in Hx. destruct (x =? 1023); [discriminate|].
      inversion E. lia.
    + right. unfold pool_counts.
      cbn [free_count allocated_count free_blocks total_allocated peak_usage].
      unfold TENSOR_POOL_SIZE.
      split; [lia|]. split; [lia|]. split; [|lia].
      intros i Hi. exists i. rewrite lookup_seqZ_lt by lia. split; [f_equal; lia|lia].
  - vm_compute. discriminate.
  - reflexivity.
  - vm_compute. discriminate.
  - cbn. lia.
  - vm_compute. reflexivity.
  - vm_compute. reflexivity.
  - exists pool'. split; [exact Hrun|]. split; [exact H1|]. split; [exact H2|exact H3].
Defined.

(** X10. From the static pool, when the system allocator serves the
    calls, the [i]-th of at most [TENSOR_POOL_SIZE] acquisitions of at most
    one block each receives block [TENSOR_POOL_SIZE - 1 - i] and a buffer
    of zeros of the extents asked for: the blocks are handed out from the
    top of the free list, and no two tensors share a block. *)
Theorem pool_blocks_in_turn (reqs : list request) :
  Z.of_nat (length reqs) <= TENSOR_POOL_SIZE ->
  Forall small_request reqs ->
  exists results pool,
    allocate_all tensor_pool reqs = Ret (results, pool)
    /\ (forall (i : nat) env n0 n1,
          reqs !! i = Some (env, n0, n1) ->
          exists p,
            results !! i
            = Some (Some (zero_tensor 0 n0 n1,
                          PoolBlock (TENSOR_POOL_SIZE - 1 - Z.of_nat i)), p))
    /\ (forall (i j : nat) ti tj b pi pj,
          results !! i = Some (Some (ti, PoolBlock b), pi) ->
          results !! j = Some (Some (tj, PoolBlock b), pj) -> i = j).
Proof.
  intros Hlen Hall.
  destruct (allocate_all_blocks reqs 0 tensor_pool) as (results & pool & Hrun & _ & Hres);
    [left; split; reflexivity|lia|lia|exact Hall|].
  assert (Hl : length results = length reqs).
  { destruct (allocate_all_pooled reqs 0 tensor_pool) as (r' & p' & Hrun' & Hl & _);
      [left; split; reflexivity|lia|lia|exact Hall|].
    rewrite Hrun in Hrun'. inversion Hrun'. subst. exact Hl. }
  exists results, pool. split; [exact Hrun|]. split.
  - intros i env n0 n1 Hi. destruct (Hres i env n0 n1 Hi) as (p & Hp & _).
    exists p. rewrite Hp. reflexivity.
  - intros i j ti tj b pi pj Hi Hj.
    assert (Hb : forall (i : nat) t p, results !! i = Some (Some (t, PoolBlock b), p) ->
                   b = TENSOR_POOL_SIZE - 1 - Z.of_nat i).
    { intros i' t p Hi'.
      destruct (lookup_lt_is_Some_2 reqs i') as [[[env n0] n1] Hr].
      { rewrite <- Hl. apply lookup_lt_is_Some_1. eexists. exact Hi'. }
      destruct (Hres i' env n0 n1 Hr) as (p' & Hp' & _). rewrite Hi' in Hp'.
      inversion Hp'. lia. }
    pose proof (Hb i ti pi Hi). pose proof (Hb j tj pj Hj). lia.
Qed.

Lemma pool_blocks_in_turn_witness :
  exists results pool,
    allocate_all tensor_pool [(env_ok, 4, 4); (env_ok, 2, 3)] = Ret (results, pool)
    /\ (exists p, results !! 0%nat
                  = Some (Some (zero_tensor 0 4 4, PoolBlock 1023), p))
    /\ (exists p, results !! 1%nat
                  = Some (Some (zero_tensor 0 2 3, PoolBlock 1022), p)).
Proof.
  destruct (pool_blocks_in_turn [(env_ok, 4, 4); (env_ok, 2, 3)])
    as (results & pool & Hrun & Hres & _).
  - vm_compute. discriminate.
  - constructor; [apply env_ok_small; vm_compute; discriminate|].
    constructor; [apply env_ok_small; vm_compute; discriminate|]. constructor.
  - exists results, pool. split; [exact Hrun|]. split.
    + exact (Hres 0%nat env_ok 4 4 eq_refl).
    + exact (Hres 1%nat env_ok 2 3 eq_refl).
Defined.

(** ** The store: adding atoms and finding them *)

Lemma filter_all {A} (P : A -> Prop) `{forall x, Decision (P x)} (l : list A) :
  Forall P l -> filter P l = l.
Proof.
  induction 1 as [|x l Hx Hl IH]; [reflexivity|].
  rewrite filter_cons_True by exact Hx. rewrite IH. reflexivity.
Qed.

Lemma filter_fmap_Live (ty inc : Z) (l : list Atom) :
  filter (fun p => selected ty inc p = true) (Live <$> l)
  = Live <$> filter (fun a => of_type ty inc a = true) l.
Proof.
  induction l as [|a l IH]; [reflexivity|].
  cbn [fmap list_fmap]. destruct (of_type ty inc a) eqn:E.
  - rewrite !filter_cons_True by exact E. cbn [fmap list_fmap]. f_equal. exact IH.
  - rewrite !filter_cons_False by (cbn [selected]; congruence). exact IH.
Qed.

(** The store after [add_atom_to_space] has been called for the atoms of
    [l], when its first [count] slots hold the atoms [done]. *)
Lemma add_atoms_run (l done : list Atom) (rest : list atom_ptr) (cap : Z) :
  Z.of_nat (length done + length rest) = cap ->
  add_atoms {| atoms := (Live <$> done) ++ rest;
               count := Z.of_nat (length done); capacity := cap |} l
  = Ret {| atoms := (Live <$> (done ++ take (length rest) l)) ++ drop (length l) rest;
           count := Z.of_nat (length (done ++ take (length rest) l));
           capacity := cap |}.
Proof.
  revert done rest. induction l as [|a l IH]; intros done rest Hcap.
  - cbn [add_atoms]. rewrite take_nil, app_nil_r, drop_0. reflexivity.
  - cbn [add_atoms]. unfold add_atom_to_space. cbn [count capacity atoms].
    destruct rest as [|r rest].
    + cbn [length] in Hcap.
      destruct (Z.ltb_spec (Z.of_nat (length done)) cap) as [Hlt|_]; [lia|].
      cbn [bind]. rewrite (IH done []) by exact Hcap.
      cbn [length]. rewrite !take_0, !drop_nil. reflexivity.
    + cbn [length] in Hcap.
      destruct (Z.ltb_spec (Z.of_nat (length done)) cap) as [_|Hge]; [|lia].
      rewrite store_in_range
        by (rewrite length_app, length_fmap; cbn [length]; lia).
      cbn [bind]. rewrite Nat2Z.id.
      replace (<[length done := Live a]> ((Live <$> done) ++ r :: rest))
        with ((Live <$> (done ++ [a])) ++ rest).
      2: { rewrite insert_app_r_alt by (rewrite length_fmap; lia).
           rewrite length_fmap, Nat.sub_diag. cbn [insert list_insert].
           rewrite fmap_app, <- app_assoc. reflexivity. }
      replace (Z.of_nat (length done) + 1) with (Z.of_nat (length (done ++ [a])))
        by (rewrite length_app; cbn [length]; lia).
      rewrite (IH (done ++ [a]) rest)
        by (rewrite length_app; cbn [length]; lia).
      cbn [length take drop]. rewrite <- !app_assoc. reflexivity.
Qed.

(** What [get_atoms_by_type] returns for a store whose slots below
    [count] point to live atoms. *)
Lemma get_atoms_run (as_ : AtomSpace) (ty inc : Z) :
  all_live as_ ->
  get_atoms_by_type as_ ty inc
  = Ret (handle_seq (Z.to_nat (count as_))
           (filter (fun p => selected ty inc p = true)
                   (take (Z.to_nat (count as_)) (atoms as_)))).
Proof.
  intros (Hcount & Hcap & Hlive).
  set (n := Z.to_nat (count as_)).
  set (P := fun p => selected ty inc p = true).
  set (target := fun i : Z => handle_seq n (filter P (take (Z.to_nat i) (atoms as_)))).
  destruct (for_range_foldl (fun i seq => seq = target i) (fun _ i => target (i + 1))
              0 (count as_)
              (fun i seq =>
                 p <- load (atoms as_) i ;;
                 match p with
                 | Live a =>
                     if (atom_type a =? ty) || negb (inc =? 0) then
                       handles' <- store (handles seq) (seq_count seq) p ;;
                       Ret {| handles := handles'; seq_count := seq_count seq + 1 |}
                     else Ret seq
                 | _ => Fault
                 end)
              (target 0)) as [Hrun Hinv]; [lia|reflexivity| |].
  - intros i seq Hi ->.
    destruct (Hlive i Hi) as (a & Ha).
    rewrite (load_lookup (atoms as_) i (Live a)) by (lia || exact Ha). cbn [bind].
    assert (Htake : take (Z.to_nat (i + 1)) (atoms as_)
                    = take (Z.to_nat i) (atoms as_) ++ [Live a]).
    { replace (Z.to_nat (i + 1)) with (Datatypes.S (Z.to_nat i)) by lia.
      apply take_S_r. exact Ha. }
    assert (Hk : (length (filter P (take (Z.to_nat i) (atoms as_))) <= Z.to_nat i)%nat).
    { etransitivity; [apply length_filter|]. rewrite length_take. lia. }
    unfold target. rewrite Htake, filter_app.
    fold (of_type ty inc a).
    set (sel := filter P (take (Z.to_nat i) (atoms as_))) in *.
    destruct (of_type ty inc a) eqn:E.
    + rewrite (filter_cons_True P) by exact E. rewrite filter_nil.
      unfold handle_seq. cbn [handles seq_count].
      rewrite store_in_range
        by (rewrite length_app, length_replicate; unfold n; lia).
      cbn [bind]. split; [|reflexivity]. f_equal. f_equal.
      * rewrite Nat2Z.id.
        rewrite insert_app_r_alt by lia. rewrite Nat.sub_diag.
        replace (n - length sel)%nat
          with (Datatypes.S (n - length (sel ++ [Live a])))
          by (rewrite length_app; cbn [length]; unfold n; lia).
        cbn [replicate insert list_insert]. rewrite <- app_assoc. reflexivity.
      * rewrite length_app. cbn [length]. lia.
    + rewrite (filter_cons_False P) by (unfold P; cbn [selected]; congruence).
      rewrite filter_nil, app_nil_r. split; reflexivity.
  - unfold get_atoms_by_type.
    replace {| handles := replicate (Z.to_nat (count as_)) Dangling; seq_count := 0 |}
      with (target 0)
      by (unfold target, handle_seq; cbn [take filter list_filter app length Z.to_nat];
          rewrite Nat.sub_0_r; reflexivity).
    rewrite Hrun. f_equal. exact Hinv.
Qed.

(** X11. Lookup after insertion: after [add_atom_to_space] has been
    called on a fresh store for every atom of a list, the store holds the
    first 1000 atoms of the list (the others are dropped without a
    signal), and [get_atoms_by_type] returns, in the order of insertion,
    the atoms of the given type among them, or all of them when
    [include_subtypes] is not 0. *)
Theorem added_atoms_are_found (l : list Atom) (ty include_subtypes : Z) :
  exists as_ seq,
    add_atoms create_atomspace l = Ret as_
    /\ count as_ = Z.min (Z.of_nat (length l)) 1000
    /\ capacity as_ = 1000
    /\ take (Z.to_nat (count as_)) (atoms as_) = Live <$> take 1000 l
    /\ get_atoms_by_type as_ ty include_subtypes = Ret seq
    /\ take (Z.to_nat (seq_count seq)) (handles seq)
       = Live <$> filter (fun a => of_type ty include_subtypes a = true) (take 1000 l).
Proof.
  pose proof (add_atoms_run l [] (replicate 1000 Dangling) 1000 eq_refl) as Hrun.
  cbn [fmap list_fmap app length] in Hrun. rewrite length_replicate in Hrun.
  change {| atoms := replicate 1000 Dangling; count := Z.of_nat 0; capacity := 1000 |}
    with create_atomspace in Hrun.
  set (as_ := {| atoms := (Live <$> take 1000 l) ++ drop (length l) (replicate 1000 Dangling);
                 count := Z.of_nat (length (take 1000 l)); capacity := 1000 |}) in *.
  assert (Hcount : count as_ = Z.min (Z.of_nat (length l)) 1000).
  { cbn [as_ count]. rewrite length_take. lia. }
  assert (Htake : take (Z.to_nat (count as_)) (atoms as_) = Live <$> take 1000 l).
  { cbn [as_ count atoms]. rewrite Nat2Z.id.
    apply take_app_length'. rewrite length_fmap. reflexivity. }
  assert (Hlive : all_live as_).
  { split; [cbn [as_ count capacity]; rewrite length_take; lia|]. split.
    - cbn [as_ atoms capacity].
      rewrite length_app, length_fmap, length_take, length_drop, length_replicate. lia.
    - intros p Hp.
      assert (Hp' : (Z.to_nat p < length (take 1000 l))%nat)
        by (cbn [as_ count] in Hp; lia).
      destruct (lookup_lt_is_Some_2 _ _ Hp') as [a Ha]. exists a.
      cbn [as_ atoms]. rewrite lookup_app_l by (rewrite length_fmap; exact Hp').
      rewrite list_lookup_fmap, Ha. reflexivity. }
  exists as_, (handle_seq (Z.to_nat (count as_))
                 (filter (fun p => selected ty include_subtypes p = true)
                         (take (Z.to_nat (count as_)) (atoms as_)))).
  split; [exact Hrun|]. split; [exact Hcount|]. split; [reflexivity|].
  split; [exact Htake|]. split; [apply get_atoms_run; exact Hlive|].
  unfold handle_seq. cbn [handles seq_count]. rewrite Nat2Z.id.
  rewrite take_app_length. rewrite Htake. apply filter_fmap_Live.
Qed.

(** X12. [add_atom_to_space] never writes outside the array: on a store
    with [count <= capacity] slots in use it returns; below the capacity
    the atom is stored in slot [count] and the other slots are kept, and a
    full store is returned as it is. *)
Theorem add_atom_within_capacity (as_ : AtomSpace) (a : Atom) :
  atomspace_wf as_ ->
  exists as',
    add_atom_to_space as_ a = Ret as'
    /\ atomspace_wf as'
    /\ capacity as' = capacity as_
    /\ (count as_ < capacity as_ ->
          count as' = count as_ + 1
          /\ atoms as' !! Z.to_nat (count as_) = Some (Live a)
          /\ forall p : nat, p <> Z.to_nat (count as_) ->
               atoms as' !! p = atoms as_ !! p)
    /\ (count as_ = capacity as_ -> as' = as_).
Proof.
  intros (Hcount & Hcap & Hlive). unfold add_atom_to_space.
  destruct (Z.ltb_spec (count as_) (capacity as_)) as [Hlt|Hge].
  - rewrite store_in_range by lia. cbn [bind]. eexists. split; [reflexivity|].
    unfold atomspace_wf. cbn [atoms count capacity].
    split; [|split; [reflexivity|split]].
    + split; [lia|]. split; [rewrite length_insert; exact Hcap|].
      intros p Hp. destruct (decide (p = count as_)) as [->|Hne].
      * rewrite list_lookup_insert_eq by lia. discriminate.
      * rewrite list_lookup_insert_ne by lia. apply Hlive. lia.
    + intros _. split; [reflexivity|]. split.
      * apply list_lookup_insert_eq. lia.
      * intros p Hp. apply list_lookup_insert_ne. lia.
    + lia.
  - exists as_. split; [reflexivity|].
    split; [exact (conj Hcount (conj Hcap Hlive))|].
    split; [reflexivity|]. split; [lia|reflexivity].
Qed.

Lemma add_atom_within_capacity_witness :
  exists as',
    add_atom_to_space store1 (create_atom 3 ATOM_TYPE_CONCEPT None F64.c0_8 F64.c0_8)
    = Ret as'
    /\ count as' = 2.
Proof.
  destruct (add_atom_within_capacity store1
              (create_atom 3 ATOM_TYPE_CONCEPT None F64.c0_8 F64.c0_8))
    as (as' & Hrun & _ & _ & Hroom & _).
  - unfold atomspace_wf, store1. cbn [atoms count capacity].
    split; [lia|]. split; [reflexivity|].
    intros p Hp. replace p with 0 by lia. discriminate.
  - exists as'. split; [exact Hrun|].
    exact (proj1 (Hroom ltac:(cbn; lia))).
Defined.

(** ** From the store to a tensor *)

Lemma fmap_at_seqZ {A B} (g : A -> B) (dflt : A) (l : list A) (m : Z) :
  0 <= m <= Z.of_nat (length l) ->
  (fun i => g (at_ dflt l i)) <$> seqZ 0 m = g <$> take (Z.to_nat m) l.
Proof.
  intros Hm. apply list_eq. intros p. rewrite !list_lookup_fmap.
  destruct (decide (p < Z.to_nat m)%nat) as [Hp|Hp].
  - rewrite lookup_seqZ_lt by lia. rewrite lookup_take_lt by lia.
    destruct (lookup_lt_is_Some_2 l p) as [x Hx]; [lia|].
    cbn. unfold at_. replace (Z.to_nat (0 + Z.of_nat p)) with p by lia.
    rewrite Hx. reflexivity.
  - rewrite lookup_seqZ_ge by lia. rewrite lookup_take_ge by lia. reflexivity.
Qed.

Lemma fmap_const_seqZ {A} (c : A) (lo n : Z) :
  (fun _ => c) <$> seqZ lo n = replicate (Z.to_nat n) c.
Proof.
  apply list_eq. intros p. rewrite list_lookup_fmap.
  destruct (decide (p < Z.to_nat n)%nat) as [Hp|Hp].
  - rewrite lookup_seqZ_lt by lia. rewrite lookup_replicate_2 by lia. reflexivity.
  - rewrite lookup_seqZ_ge by lia. symmetry. apply lookup_replicate_None. lia.
Qed.

(** A loop that stores [f i] at every index of a range. *)
Lemma for_range_store {A} (f : Z -> A) (lo hi : Z)
    (body : Z -> list A -> outcome (list A)) (r : list A) :
  0 <= lo <= hi -> hi <= Z.of_nat (length r) ->
  (forall i r', lo <= i < hi -> length r' = length r ->
                body i r' = store r' i (f i)) ->
  for_range lo hi body r
  = Ret (take (Z.to_nat lo) r ++ (f <$> seqZ lo (hi - lo)) ++ drop (Z.to_nat hi) r).
Proof.
  intros Hlo Hhi Hbody.
  destruct (for_range_foldl (fun _ r' => length r' = length r) (put Z.to_nat f)
              lo hi body r) as [Hrun _]; [lia|reflexivity| |].
  - intros i r' Hi Hlen. rewrite Hbody by assumption.
    rewrite store_in_range by lia. split; [reflexivity|].
    unfold put. rewrite length_insert. exact Hlen.
  - rewrite Hrun, foldl_put_seqZ by lia.
    replace (lo + (hi - lo)) with hi by lia. reflexivity.
Qed.

(** What [atomspace_to_tensor] writes when the slots below [count] point
    to live atoms. *)
Lemma atomspace_to_tensor_run (as_ : AtomSpace) (t : ggml_tensor) :
  all_live as_ -> tensor_wf t ->
  atomspace_to_tensor as_ t = Ret (set_data t (store_values as_ (ne0 t * ne1 t))).
Proof.
  intros Hlive (Hne0 & Hne1 & Hprod & d & Hd & Hlen). unfold store_values.
  pose proof Hlive as (Hcount & Hcap & Hslots).
  assert (Hsize : 0 <= ne0 t * ne1 t) by (apply Z.mul_nonneg_nonneg; lia).
  unfold atomspace_to_tensor. rewrite get_atoms_run by exact Hlive. cbn [bind].
  set (n := Z.to_nat (count as_)).
  assert (Hall : filter (fun p => selected ATOM_TYPE_CONCEPT 1 p = true)
                        (take n (atoms as_)) = take n (atoms as_)).
  { apply filter_all. apply Forall_lookup. intros p x Hx.
    apply lookup_take_Some in Hx as [Hx Hp].
    destruct (Hslots (Z.of_nat p) ltac:(lia)) as (a & Ha).
    rewrite Nat2Z.id in Ha. rewrite Ha in Hx. inversion Hx.
    unfold selected, of_type. apply orb_true_r. }
  rewrite Hall. unfold handle_seq. cbn [handles seq_count].
  rewrite length_take. replace (n `min` length (atoms as_))%nat with n by lia.
  rewrite Nat.sub_diag. cbn [replicate]. rewrite app_nil_r.
  replace (Z.of_nat n) with (count as_) by lia.
  rewrite to_int_small by lia. rewrite to_size_t_small by lia.
  rewrite for_while_ltb by lia.
  assert (Hbuf : buffer t = d) by (unfold buffer; rewrite Hd; reflexivity).
  rewrite Hbuf.
  set (m := Z.min (count as_) (ne0 t * ne1 t)).
  rewrite (for_range_store (fun i => central (at_ Null (atoms as_) i)) 0 m)
    by (try (unfold m; lia);
        intros i r' Hi Hr';
        destruct (Hslots i ltac:(unfold m in Hi; lia)) as (a & Ha);
        rewrite (load_lookup _ i (Live a))
          by (lia || (rewrite lookup_take_lt by (unfold n, m in *; lia); exact Ha));
        cbn [bind];
        replace (at_ Null (atoms as_) i) with (Live a)
          by (unfold at_; rewrite Ha; reflexivity);
        cbn [central]; destruct (truth_value a); reflexivity).
  cbn [bind]. rewrite Z.sub_0_r, take_0. cbn [app].
  rewrite (fmap_at_seqZ central Null) by (unfold m; lia).
  assert (Hl : length (central <$> take (Z.to_nat m) (atoms as_)) = Z.to_nat m)
    by (rewrite length_fmap, length_take; unfold m; lia).
  unfold write_back. rewrite Hd.
  destruct (Z.le_gt_cases (count as_) (ne0 t * ne1 t)) as [Hle|Hgt].
  - rewrite (for_range_store (fun _ => F32.c0_1) (count as_) (ne0 t * ne1 t));
      [|lia|rewrite length_app, Hl, length_drop; unfold m; lia|intros; reflexivity].
    cbn [bind]. do 2 f_equal. rewrite fmap_const_seqZ.
    rewrite (drop_ge _ (Z.to_nat (ne0 t * ne1 t)))
      by (rewrite length_app, Hl, length_drop; unfold m; lia).
    rewrite app_nil_r.
    rewrite take_app_length' by (rewrite Hl; unfold m; lia).
    reflexivity.
  - rewrite for_range_empty by lia. cbn [bind]. do 2 f_equal.
    replace (Z.to_nat (ne0 t * ne1 t - count as_)) with O by lia.
    cbn [replicate]. rewrite drop_ge by (unfold m; lia). reflexivity.
Qed.

Lemma store_values_lookup (as_ : AtomSpace) (size : Z) :
  all_live as_ -> 0 <= size ->
  Z.of_nat (length (store_values as_ size)) = size
  /\ forall i, 0 <= i < size ->
       store_values as_ size !! Z.to_nat i
       = Some (if i <? count as_ then central (at_ Null (atoms as_) i)
               else F32.c0_1).
Proof.
  intros (Hcount & Hcap & Hslots) Hsize. unfold store_values.
  set (m := Z.min (count as_) size).
  assert (Hl : length (central <$> take (Z.to_nat m) (atoms as_)) = Z.to_nat m)
    by (rewrite length_fmap, length_take; unfold m; lia).
  split.
  - rewrite length_app, Hl, length_replicate. unfold m. lia.
  - intros i Hi. destruct (Z.ltb_spec i (count as_)) as [Hlt|Hge].
    + rewrite lookup_app_l by (rewrite Hl; unfold m; lia).
      rewrite list_lookup_fmap, lookup_take_lt by (unfold m; lia).
      destruct (Hslots i ltac:(lia)) as (a & Ha).
      unfold at_. rewrite Ha. reflexivity.
    + rewrite lookup_app_r by (rewrite Hl; unfold m; lia).
      rewrite lookup_replicate_2 by (rewrite Hl; unfold m; lia). reflexivity.
Qed.

(** X13. [atomspace_to_tensor] writes the central value of the atom of
    slot [i] into element [i] for the slots below [count] that fit into the
    tensor (0 for an atom without a truth value), and 0.1 into the
    elements from [count] on; the extents are kept, and a store with more
    atoms than the tensor has elements is cut off. *)
Theorem atomspace_to_tensor_values (as_ : AtomSpace) (t : ggml_tensor) :
  all_live as_ -> tensor_wf t ->
  exists d,
    atomspace_to_tensor as_ t = Ret (set_data t d)
    /\ Z.of_nat (length d) = ne0 t * ne1 t
    /\ forall i, 0 <= i < ne0 t * ne1 t ->
         d !! Z.to_nat i
         = Some (if i <? count as_ then central (at_ Null (atoms as_) i)
                 else F32.c0_1).
Proof.
  intros Hlive Hwf. pose proof Hwf as (Hne0 & Hne1 & Hprod & _).
  eexists. split; [apply atomspace_to_tensor_run; assumption|].
  apply store_values_lookup; [exact Hlive|]. apply Z.mul_nonneg_nonneg; lia.
Qed.

Lemma atomspace_to_tensor_values_witness :
  exists d,
    atomspace_to_tensor
      {| atoms := [Live (create_atom 7 ATOM_TYPE_CONCEPT None F64.c0_8 F64.c0_8)];
         count := 1; capacity := 1 |} row2
    = Ret (set_data row2 d)
    /\ d !! 1%nat = Some F32.c0_1.
Proof.
  destruct (atomspace_to_tensor_values
              {| atoms := [Live (create_atom 7 ATOM_TYPE_CONCEPT None F64.c0_8 F64.c0_8)];
                 count := 1; capacity := 1 |} row2) as (d & Hrun & _ & Hd).
  - split; [cbn; lia|]. split; [reflexivity|].
    intros p Hp. cbn [count] in Hp. replace p with 0 by lia.
    eexists. reflexivity.
  - sample_tensor_wf.
  - exists d. split; [exact Hrun|]. exact (Hd 1 ltac:(cbn; lia)).
Defined.

(** X14. The test for a null handle in [atomspace_to_tensor] comes too
    late: [get_atoms_by_type] has read the type of every atom below
    [count] before, so a null slot below [count] is dereferenced, whatever
    the type asked for and whatever the tensor is. *)
Theorem null_slot_is_dereferenced (as_ : AtomSpace) (i : Z) :
  0 <= i < count as_ ->
  atoms as_ !! Z.to_nat i = Some Null ->
  (forall ty include_subtypes, get_atoms_by_type as_ ty include_subtypes = Fault)
  /\ (forall t, atomspace_to_tensor as_ t = Fault).
Proof.
  intros Hi Hnull.
  assert (H : forall ty inc, get_atoms_by_type as_ ty inc = Fault).
  { intros ty inc. unfold get_atoms_by_type, for_range, for_while.
    apply (for_loop_fault _ 0 i); [lia|].
    intros s. rewrite (load_lookup _ i Null) by (lia || exact Hnull). reflexivity. }
  split; [exact H|].
  intros t. unfold atomspace_to_tensor. rewrite H. reflexivity.
Qed.

Lemma null_slot_is_dereferenced_witness :
  atomspace_to_tensor {| atoms := [Null]; count := 1; capacity := 1 |} row2 = Fault.
Proof.
  refine (proj2 (null_slot_is_dereferenced
                   {| atoms := [Null]; count := 1; capacity := 1 |} 0 _ _) row2).
  - cbn. lia.
  - reflexivity.
Defined.

(** ** From a tensor to the store and back *)

(** A binary32 value survives the conversion to [double] and back. *)
Lemma of_double_of_float (x : float) :
  F32.valid x = true -> F32.of_double (F64.of_float x) = x.
Proof.
  destruct x as [s|s| |s m e]; intros Hv; try reflexivity.
  apply valid_finite in Hv as [Hc He].
  pose proof Hc as Hc'. apply Z.eqb_eq in Hc'.
  assert (Hfe : exists k,
            fexp F64.prec F64.emax (Zpos (digits2_pos m) + e) = e - Zpos k).
  { pose proof Hc' as Hc''.
    unfold fexp, emin, F32.prec, F32.emax, F64.prec, F64.emax in *.
    destruct (e - Z.max (Zpos (digits2_pos m) + e - 53) (3 - 1024 - 53))
      as [|k|k] eqn:E; [lia| |lia].
    exists k. lia. }
  destruct Hfe as (k & Hk).
  unfold F64.of_float, binary_round, shl_align. rewrite Hk.
  replace (e - Zpos k - e) with (Zneg k) by lia. cbv beta iota.
  assert (Hc64 : canonical_mantissa F64.prec F64.emax (Pos.iter xO m k) (e - Zpos k)
                 = true).
  { unfold canonical_mantissa. rewrite digits2_pos_iter_xO. apply Z.eqb_eq.
    replace (Zpos (digits2_pos m) + Zpos k + (e - Zpos k))
      with (Zpos (digits2_pos m) + e) by lia.
    exact Hk. }
  rewrite (binary_round_aux_canonical _ _ s _ _ Hc64).
  replace (e - Zpos k <=? F64.emax - F64.prec) with true
    by (symmetry; apply Z.leb_le; unfold F64.emax, F64.prec; lia).
  unfold F32.of_double, binary_round, shl_align.
  rewrite digits2_pos_iter_xO.
  replace (Zpos (digits2_pos m) + Zpos k + (e - Zpos k))
    with (Zpos (digits2_pos m) + e) by lia.
  rewrite Hc'.
  replace (e - (e - Zpos k)) with (Zpos k) by lia. cbv beta iota.
  rewrite (binary_round_aux_shifted F32.prec F32.emax s m k e Hc).
  replace (e <=? F32.emax - F32.prec) with true
    by (symmetry; apply Z.leb_le; unfold F32.emax, F32.prec; lia).
  reflexivity.
Qed.

(** The store that [tensor_to_atomspace] leaves. *)
Lemma tensor_to_atomspace_store (rand : nat -> Z) (t : ggml_tensor) (as_ : AtomSpace) :
  tensor_wf t -> atomspace_wf as_ ->
  let kept := significant t (capacity as_) in
  exists as',
    tensor_to_atomspace rand t as_ = Ret as'
    /\ capacity as' = capacity as_
    /\ count as' = Z.of_nat (length kept)
    /\ take (length kept) (atoms as') = imap (synthesized rand t) kept
    /\ all_live as'.
Proof.
  intros (Hne0 & Hne1 & Hprod & d & Hd & Hlen) Hwf kept.
  pose proof Hwf as (Hcount & Hcap & Hlive).
  assert (Hbuf : buffer t = d) by (unfold buffer; rewrite Hd; reflexivity).
  destruct (clear_atoms as_ Hwf) as (cleared & Hclear & Hcl & _).
  unfold tensor_to_atomspace. cbv zeta. rewrite Hclear. cbn [bind].
  assert (Hprod0 : 0 <= ne0 t * ne1 t) by (apply Z.mul_nonneg_nonneg; lia).
  rewrite to_int_small by lia. rewrite to_size_t_small by lia.
  rewrite for_while_ltb by lia.
  set (P := fun i => F32.gtb (at_ F32.zero (buffer t) i) F32.c0_01 = true).
  set (M := Z.min (ne0 t * ne1 t) (capacity as_)).
  set (g := fun (st : AtomSpace * nat) (i : Z) =>
              if F32.gtb (at_ F32.zero (buffer t) i) F32.c0_01 then
                ({| atoms := <[Z.to_nat (count (fst st)) :=
                                 synthesized rand t (snd st) i]> (atoms (fst st));
                    count := count (fst st) + 1;
                    capacity := capacity (fst st) |}, Datatypes.S (snd st))
              else st).
  destruct (for_range_foldl
              (fun i (st : AtomSpace * nat) =>
                 capacity (fst st) = capacity as_
                 /\ count (fst st) = Z.of_nat (snd st)
                 /\ snd st = length (filter P (seqZ 0 i))
                 /\ atoms (fst st)
                    = imap (synthesized rand t) (filter P (seqZ 0 i))
                      ++ drop (snd st) cleared)
              g 0 M
              (fun i (st : AtomSpace * nat) =>
                 x <- load (buffer t) i ;;
                 if F32.gtb x F32.c0_01 then
                   as' <- add_atom_to_space (fst st)
                            (create_atom (rand (snd st)) ATOM_TYPE_CONCEPT
                               (Some ("concept_" ++ format_zu i)%string)
                               (F64.of_float x) F64.c0_8) ;;
                   Ret (as', Datatypes.S (snd st))
                 else Ret st)
              ({| atoms := cleared; count := 0; capacity := capacity as_ |}, O))
    as [Hrun Hinv]; [unfold M; lia|repeat split| |].
  - intros i [a k] Hi (Hc & Hk & Hkl & Hat). cbn [fst snd] in *.
    rewrite (load_at F32.zero (buffer t)) by (rewrite Hbuf; unfold M in Hi; lia).
    cbn [bind]. unfold g. cbn [fst snd].
    assert (Hki : (k <= Z.to_nat i)%nat).
    { rewrite Hkl. etransitivity; [apply length_filter|].
      rewrite length_seqZ. lia. }
    rewrite (filter_seqZ_succ P i) by lia.
    destruct (decide (P i)) as [E|E]; unfold P in E.
    + rewrite E.
      assert (Hla : length (atoms a) = length cleared).
      { rewrite Hat, length_app, length_imap, length_drop, <- Hkl.
        unfold M in Hi. lia. }
      unfold add_atom_to_space. rewrite Hc.
      destruct (Z.ltb_spec (count a) (capacity as_)) as [_|Hge];
        [|unfold M in Hi; lia].
      rewrite store_in_range by (unfold M in Hi; lia). cbn [bind].
      unfold synthesized at 1. rewrite Hk, Nat2Z.id.
      split; [reflexivity|]. cbn [fst snd atoms count capacity].
      split; [reflexivity|]. split; [lia|].
      rewrite length_app. cbn [length]. split; [lia|].
      rewrite Hat, imap_app. cbn [imap]. rewrite <- Hkl, Nat.add_0_r.
      rewrite insert_app_r_alt by (rewrite length_imap; lia).
      rewrite length_imap, <- Hkl, Nat.sub_diag.
      destruct (lookup_lt_is_Some_2 cleared k) as [c Hck];
        [unfold M in Hi; lia|].
      rewrite (drop_S cleared c k Hck). cbn [insert list_insert].
      rewrite <- app_assoc. reflexivity.
    + apply not_true_is_false in E. rewrite E.
      rewrite app_nil_r. split; [reflexivity|]. repeat split; assumption.
  - rewrite Hrun. cbn [bind]. rewrite Z.sub_0_r in Hinv |- *.
    destruct (foldl g _ (seqZ 0 M)) as [a k].
    destruct Hinv as (Hc & Hk & Hkl & Hat). cbn [fst snd] in *.
    change (filter P (seqZ 0 M)) with kept in Hkl, Hat.
    assert (Hkc : (k <= length cleared)%nat).
    { rewrite Hkl. etransitivity; [apply length_filter|].
      rewrite length_seqZ. unfold M. lia. }
    assert (Htake : take (length kept) (atoms a) = imap (synthesized rand t) kept).
    { rewrite Hat. apply take_app_length'. rewrite length_imap. reflexivity. }
    exists a. split; [reflexivity|]. split; [exact Hc|].
    split; [rewrite Hk, Hkl; reflexivity|]. split; [exact Htake|].
    split; [lia|]. split.
    + rewrite Hat, length_app, length_imap, length_drop, <- Hkl. lia.
    + intros p Hp.
      assert (Hp' : (Z.to_nat p < length kept)%nat) by lia.
      destruct (lookup_lt_is_Some_2 kept _ Hp') as [i Hi].
      rewrite <- (lookup_take_lt (atoms a) (length kept)) by exact Hp'.
      rewrite Htake, list_lookup_imap, Hi. eexists. reflexivity.
Qed.

Lemma central_synthesized (rand : nat -> Z) (t : ggml_tensor) (k : nat) (i : Z) :
  F32.valid (at_ F32.zero (buffer t) i) = true ->
  central (synthesized rand t k i) = at_ F32.zero (buffer t) i.
Proof. intros Hv. cbn. apply of_double_of_float. exact Hv. Qed.

Lemma significant_range (t : ggml_tensor) (cap i : Z) :
  i ∈ significant t cap ->
  0 <= i < ne0 t * ne1 t /\ i < cap
  /\ F32.gtb (at_ F32.zero (buffer t) i) F32.c0_01 = true.
Proof.
  unfold significant. intros Hi. apply list_elem_of_filter in Hi as [Hgt Hi].
  apply elem_of_seqZ in Hi. split; [lia|]. split; [lia|exact Hgt].
Qed.

(** The values read back from the atoms that [tensor_to_atomspace] has
    synthesized, by a function [g] that returns the central value. *)
Lemma synthesized_values (g : atom_ptr -> float) (rand : nat -> Z) (t : ggml_tensor)
    (kept : list Z) (atoms' : list atom_ptr) (size : Z) :
  (forall k i, i ∈ kept -> g (synthesized rand t k i) = at_ F32.zero (buffer t) i) ->
  take (length kept) atoms' = imap (synthesized rand t) kept ->
  g <$> take (Z.to_nat (Z.min (Z.of_nat (length kept)) size)) atoms'
  = at_ F32.zero (buffer t) <$> take (Z.to_nat size) kept.
Proof.
  intros Hg Htake.
  set (j := Z.to_nat (Z.min (Z.of_nat (length kept)) size)).
  replace (take j atoms') with (take j (imap (synthesized rand t) kept))
    by (rewrite <- Htake, take_take; f_equal; unfold j; lia).
  replace (take (Z.to_nat size) kept) with (take j kept).
  2: { destruct (Z.le_gt_cases size (Z.of_nat (length kept))).
       - f_equal. unfold j. lia.
       - rewrite !take_ge by (unfold j; lia). reflexivity. }
  apply list_eq. intros p. rewrite !list_lookup_fmap.
  destruct (decide (p < j)%nat) as [Hp|Hp].
  - rewrite !lookup_take_lt by exact Hp. rewrite list_lookup_imap.
    destruct (kept !! p) as [i|] eqn:Ei; [|reflexivity].
    change (Some (g (synthesized rand t p i)) = Some (at_ F32.zero (buffer t) i)).
    f_equal. apply Hg. apply list_elem_of_lookup_2 in Ei. exact Ei.
  - rewrite !lookup_take_ge by lia. reflexivity.
Qed.

Lemma significant_valid (t : ggml_tensor) (cap i : Z) :
  tensor_wf t -> Forall (fun x => F32.valid x = true) (buffer t) ->
  i ∈ significant t cap -> F32.valid (at_ F32.zero (buffer t) i) = true.
Proof.
  intros (Hne0 & Hne1 & Hprod & d & Hd & Hlen) Hvalid Hi.
  assert (Hbuf : buffer t = d) by (unfold buffer; rewrite Hd; reflexivity).
  apply significant_range in Hi.
  destruct (lookup_lt_is_Some_2 (buffer t) (Z.to_nat i)) as [x Hx];
    [rewrite Hbuf; lia|].
  unfold at_. rewrite Hx. cbn.
  exact (proj1 (Forall_lookup _ _) Hvalid _ _ Hx).
Qed.

(** X15. A tensor that is turned into a store and read back is
    compacted: the values above 0.01 (of the cells below the capacity of
    the store) come back without loss, in their order, at the front of the
    tensor, and the rest of the tensor is filled with 0.1.  When every cell
    exceeds 0.01 and the store has room for all of them, a tensor of the
    same size gets back the buffer it started with. *)
Theorem store_round_trip (rand : nat -> Z) (t : ggml_tensor) (as_ : AtomSpace)
    (out : ggml_tensor) :
  tensor_wf t -> Forall (fun x => F32.valid x = true) (buffer t) ->
  atomspace_wf as_ -> tensor_wf out ->
  let kept := significant t (capacity as_) in
  let size := ne0 out * ne1 out in
  exists as',
    tensor_to_atomspace rand t as_ = Ret as'
    /\ atomspace_to_tensor as' out
       = Ret (set_data out
                ((at_ F32.zero (buffer t) <$> take (Z.to_nat size) kept)
                 ++ replicate (Z.to_nat (size - Z.of_nat (length kept))) F32.c0_1))
    /\ (ne0 t * ne1 t <= capacity as_ -> size = ne0 t * ne1 t ->
        Forall (fun x => F32.gtb x F32.c0_01 = true) (buffer t) ->
        atomspace_to_tensor as' out = Ret (set_data out (buffer t))).
Proof.
  intros Ht Hvalid Hwf Hout kept size.
  destruct (tensor_to_atomspace_store rand t as_ Ht Hwf)
    as (as' & Hrun & Hcap & Hcount & Htake & Hlive).
  fold kept in Hcount, Htake.
  pose proof Ht as (Hne0 & Hne1 & Hprod & d & Hd & Hlen).
  assert (Hbuf : buffer t = d) by (unfold buffer; rewrite Hd; reflexivity).
  assert (Hread : atomspace_to_tensor as' out
                  = Ret (set_data out
                           ((at_ F32.zero (buffer t) <$> take (Z.to_nat size) kept)
                            ++ replicate (Z.to_nat (size - Z.of_nat (length kept)))
                                 F32.c0_1))).
  { rewrite (atomspace_to_tensor_run as' out Hlive Hout). unfold store_values.
    fold size. rewrite Hcount. do 3 f_equal.
    apply (synthesized_values central rand t kept); [|exact Htake].
    intros k i Hi. apply central_synthesized.
    apply (significant_valid t (capacity as_)); assumption. }
  exists as'. split; [exact Hrun|]. split; [exact Hread|].
  intros Hroom Hsame Hall. rewrite Hread. do 2 f_equal.
  assert (Hkept : kept = seqZ 0 (ne0 t * ne1 t)).
  { unfold kept, significant.
    replace (Z.min (ne0 t * ne1 t) (capacity as_)) with (ne0 t * ne1 t) by lia.
    apply filter_all. apply Forall_seqZ. intros i Hi.
    destruct (lookup_lt_is_Some_2 (buffer t) (Z.to_nat i)) as [x Hx];
      [rewrite Hbuf; lia|].
    unfold at_. rewrite Hx. cbn.
    exact (proj1 (Forall_lookup _ _) Hall _ _ Hx). }
  rewrite Hkept, length_seqZ, Hsame.
  replace (Z.to_nat (ne0 t * ne1 t - Z.of_nat (Z.to_nat (ne0 t * ne1 t)))) with O by lia.
  cbn [replicate]. rewrite app_nil_r.
  rewrite take_ge by (rewrite length_seqZ; lia).
  rewrite (fmap_at_seqZ (fun x => x) F32.zero (buffer t)) by (rewrite Hbuf; lia).
  rewrite list_fmap_id. apply take_ge. rewrite Hbuf. lia.
Qed.

Lemma store_round_trip_witness :
  exists as',
    tensor_to_atomspace (fun _ => 12345) row2 store1 = Ret as'
    /\ atomspace_to_tensor as' row2 = Ret (set_data row2 (buffer row2)).
Proof.
  destruct (store_round_trip (fun _ => 12345) row2 store1 row2)
    as (as' & Hrun & _ & Hsame).
  - sample_tensor_wf.
  - cbn. repeat constructor.
  - unfold atomspace_wf, store1. cbn [atoms count capacity].
    split; [lia|]. split; [reflexivity|].
    intros p Hp. replace p with 0 by lia. discriminate.
  - sample_tensor_wf.
  - exists as'. split; [exact Hrun|]. apply Hsame.
    + cbn. lia.
    + reflexivity.
    + cbn. repeat constructor.
Defined.

(** ** Cognitive states *)

(** X16. [encode_cognitive_state] returns -1 and leaves the output alone
    when one of its arguments is null; otherwise it returns 0 and element
    [i] of the output is [v * attention_weight * (1.0f + meta_level *
    0.1f)], where [v] is what [atomspace_to_tensor] writes at [i]: the
    central value of atom [i] below [count], 0.1 from [count] on. *)
Theorem encode_cognitive_state_values (a : AtomSpace) (k : cognitive_kernel_t)
    (out : ggml_tensor) :
  all_live a -> tensor_wf out ->
  (exists d,
     encode_cognitive_state (Some a) (Some k) (Some out) = Ret (0, Some (set_data out d))
     /\ Z.of_nat (length d) = ne0 out * ne1 out
     /\ forall i, 0 <= i < ne0 out * ne1 out ->
          d !! Z.to_nat i
          = Some (F32.mul
                    (F32.mul (if i <? count a then central (at_ Null (atoms a) i)
                              else F32.c0_1)
                             (attention_weight k))
                    (meta_scale k)))
  /\ (forall k' out', encode_cognitive_state None k' out' = Ret (-1, out'))
  /\ (forall a' out', encode_cognitive_state a' None out' = Ret (-1, out'))
  /\ (forall a' k', encode_cognitive_state a' k' None = Ret (-1, None)).
Proof.
  intros Hlive Hout. split.
  2: { split; [reflexivity|]. split.
       - intros [a'|] out'; reflexivity.
       - intros [a'|] [k'|]; reflexivity. }
  pose proof Hout as (Hne0 & Hne1 & Hprod & dout & Hd & Hlen).
  assert (Hsize : 0 <= ne0 out * ne1 out) by (apply Z.mul_nonneg_nonneg; lia).
  set (size := ne0 out * ne1 out) in *.
  assert (Htemp : tensor_wf (local_tensor (ne0 out) (ne1 out) (calloc_floats size))).
  { unfold tensor_wf, local_tensor, calloc_floats. cbn [ne0 ne1 data].
    destruct (Z.ltb_spec size 0); [lia|].
    split; [lia|]. split; [lia|]. split; [exact Hprod|].
    eexists. split; [reflexivity|]. rewrite length_replicate. unfold size. lia. }
  destruct (store_values_lookup a size Hlive Hsize) as [Hvl Hvals].
  unfold encode_cognitive_state. cbv zeta. fold size.
  rewrite !(to_int_small size) by lia.
  rewrite (atomspace_to_tensor_run a _ Hlive Htemp). cbn [bind].
  cbn [local_tensor ne0 ne1 buffer set_data data]. fold size.
  set (f := fun i => F32.mul (F32.mul (at_ F32.zero (store_values a size) i)
                                      (attention_weight k)) (meta_scale k)).
  assert (Hbuf : buffer out = dout) by (unfold buffer; rewrite Hd; reflexivity).
  rewrite (for_range_store f 0 size);
    [|lia|rewrite Hbuf; lia|
     intros i r' Hi Hr'; rewrite (load_at F32.zero) by lia; reflexivity].
  cbn [bind]. unfold write_back. rewrite Hd.
  rewrite take_0, Z.sub_0_r, drop_ge by (rewrite Hbuf; lia).
  cbn [app]. rewrite app_nil_r.
  eexists. split; [reflexivity|]. split.
  - rewrite length_fmap, length_seqZ. lia.
  - intros i Hi. rewrite list_lookup_fmap, lookup_seqZ_lt by lia.
    replace (0 + Z.of_nat (Z.to_nat i)) with i by lia.
    cbn [fmap option_fmap option_map]. f_equal.
    unfold f, at_. rewrite (Hvals i Hi). reflexivity.
Qed.

Lemma encode_cognitive_state_values_witness :
  exists d,
    encode_cognitive_state
      (Some {| atoms := [Live (create_atom 7 ATOM_TYPE_CONCEPT None F64.c0_8 F64.c0_8)];
               count := 1; capacity := 1 |})
      (Some {| tensor_field := None; attention_weight := f0_8; meta_level := 0;
               kernel_id := 0 |})
      (Some row2)
    = Ret (0, Some (set_data row2 d))
    /\ Z.of_nat (length d) = 2.
Proof.
  destruct (proj1 (encode_cognitive_state_values
              {| atoms := [Live (create_atom 7 ATOM_TYPE_CONCEPT None F64.c0_8 F64.c0_8)];
                 count := 1; capacity := 1 |}
              {| tensor_field := None; attention_weight := f0_8; meta_level := 0;
                 kernel_id := 0 |} row2
              ltac:(split; [cbn; lia|]; split; [reflexivity|];
                    intros p Hp; cbn [count] in Hp; replace p with 0 by lia;
                    eexists; reflexivity)
              ltac:(sample_tensor_wf)))
    as (d & Hrun & Hlen & _).
  exists d. split; [exact Hrun|exact Hlen].
Defined.

(** X17. [decode_cognitive_state] returns -1 and leaves the store alone
    when one of its arguments is null; otherwise it returns 0 and rebuilds
    the store as [tensor_to_atomspace] does from the tensor of the
    rescaled values [x * (1.0f / (attention_weight + 1e-6f)) * (1.0f /
    (1.0f + meta_level * 0.1f))]: one new concept per rescaled value above
    0.01, whatever the kernel holds. *)
Theorem decode_cognitive_state_rebuilds (rand : nat -> Z) (inp : ggml_tensor)
    (k : cognitive_kernel_t) (a : AtomSpace) :
  tensor_wf inp -> atomspace_wf a ->
  let scaled := local_tensor (ne0 inp) (ne1 inp) (Some (rescale k <$> buffer inp)) in
  let kept := significant scaled (capacity a) in
  (exists a',
     decode_cognitive_state rand (Some inp) (Some k) (Some a) = Ret (0, Some a')
     /\ capacity a' = capacity a
     /\ count a' = Z.of_nat (length kept)
     /\ take (length kept) (atoms a') = imap (synthesized rand scaled) kept
     /\ all_live a')
  /\ (forall k' a', decode_cognitive_state rand None k' a' = Ret (-1, a'))
  /\ (forall t' a', decode_cognitive_state rand t' None a' = Ret (-1, a'))
  /\ (forall t' k', decode_cognitive_state rand t' k' None = Ret (-1, None)).
Proof.
  intros Hinp Hwf scaled kept. split.
  2: { split; [reflexivity|]. split.
       - intros [t'|] a'; reflexivity.
       - intros [t'|] [k'|]; reflexivity. }
  pose proof Hinp as (Hne0 & Hne1 & Hprod & d & Hd & Hlen).
  assert (Hsize : 0 <= ne0 inp * ne1 inp) by (apply Z.mul_nonneg_nonneg; lia).
  assert (Hbuf : buffer inp = d) by (unfold buffer; rewrite Hd; reflexivity).
  assert (Hscaled : tensor_wf scaled).
  { unfold tensor_wf, scaled, local_tensor. cbn [ne0 ne1 data].
    split; [lia|]. split; [lia|]. split; [exact Hprod|].
    eexists. split; [reflexivity|]. rewrite length_fmap, Hbuf. exact Hlen. }
  destruct (tensor_to_atomspace_store rand scaled a Hscaled Hwf)
    as (a' & Hrun & Hcap & Hcount & Htake & Hlive).
  unfold decode_cognitive_state. cbv zeta.
  rewrite !to_int_small by lia.
  unfold calloc_floats. destruct (Z.ltb_spec (ne0 inp * ne1 inp) 0); [lia|].
  cbn [local_tensor buffer data].
  rewrite (for_range_store (fun i => rescale k (at_ F32.zero (buffer inp) i))
             0 (ne0 inp * ne1 inp));
    [|lia|rewrite length_replicate; lia|
     intros i r' Hi Hr'; rewrite (load_at F32.zero) by (rewrite Hbuf; lia);
     reflexivity].
  cbn [bind]. unfold write_back. cbn [data set_data ne0 ne1 ne2 ne3 type].
  rewrite take_0, Z.sub_0_r, drop_ge by (rewrite length_replicate; lia).
  cbn [app]. rewrite app_nil_r.
  rewrite (fmap_at_seqZ (rescale k) F32.zero (buffer inp)) by (rewrite Hbuf; lia).
  rewrite take_ge by (rewrite Hbuf; lia).
  match goal with
  | |- context [tensor_to_atomspace rand ?x a] => change x with scaled
  end.
  rewrite Hrun. cbn [bind].
  exists a'. split; [reflexivity|]. split; [exact Hcap|].
  split; [exact Hcount|]. split; [exact Htake|exact Hlive].
Qed.

Lemma decode_cognitive_state_rebuilds_witness :
  exists a',
    decode_cognitive_state (fun _ => 12345) (Some row2)
      (Some {| tensor_field := None; attention_weight := f0_8; meta_level := 0;
               kernel_id := 0 |})
      (Some store1)
    = Ret (0, Some a')
    /\ capacity a' = 3.
Proof.
  destruct (proj1 (decode_cognitive_state_rebuilds (fun _ => 12345) row2
              {| tensor_field := None; attention_weight := f0_8; meta_level := 0;
                 kernel_id := 0 |} store1
              ltac:(sample_tensor_wf)
              ltac:(unfold atomspace_wf, store1; cbn [atoms count capacity];
                    split; [lia|]; split; [reflexivity|];
                    intros p Hp; replace p with 0 by lia; discriminate)))
    as (a' & Hrun & Hcap & _).
  exists a'. split; [exact Hrun|exact Hcap].
Defined.

(** ** The kernel weight *)

(** X18. For a weight that is a number, [update_kernel_attention]
    accepts exactly the weights of [[0, 1]]: it then returns 0 and changes
    the attention weight and nothing else of the kernel; for every other
    number it returns -1 and leaves the kernel as it is. *)
Theorem update_attention_in_range (k : cognitive_kernel_t) (w : float) :
  F32.is_nan w = false ->
  exists r k',
    update_kernel_attention (Some k) w = (r, Some k')
    /\ tensor_field k' = tensor_field k
    /\ meta_level k' = meta_level k
    /\ kernel_id k' = kernel_id k
    /\ (in_unit_interval w = true -> r = 0 /\ attention_weight k' = w)
    /\ (in_unit_interval w = false -> r = -1 /\ k' = k).
Proof.
  intros Hnan. rewrite (update_attention_numbers k w Hnan).
  destruct (in_unit_interval w); eexists _, _; (split; [reflexivity|]);
    repeat split; intros; discriminate.
Qed.

Lemma update_attention_in_range_witness :
  exists r k',
    update_kernel_attention
      (Some {| tensor_field := None; attention_weight := f0_8; meta_level := 0;
               kernel_id := 0 |}) f0_9
    = (r, Some k')
    /\ r = 0 /\ attention_weight k' = f0_9.
Proof.
  destruct (update_attention_in_range
              {| tensor_field := None; attention_weight := f0_8; meta_level := 0;
                 kernel_id := 0 |} f0_9 eq_refl)
    as (r & k' & Hrun & _ & _ & _ & Hin & _).
  exists r, k'. split; [exact Hrun|]. apply Hin. reflexivity.
Defined.

(** ** [hypergraph_encoding] *)

Lemma ggml_binop_run (op : float -> float -> float) (a b : ggml_tensor)
    (da db : list float) :
  data a = Some da -> data b = Some db ->
  0 <= ne0 a * ne1 a <= INT_MAX ->
  ne0 a * ne1 a <= Z.of_nat (length da) ->
  ne0 a * ne1 a <= Z.of_nat (length db) ->
  ggml_binop op (Some a) (Some b)
  = Ret (Some (matrix (ne0 a) (ne1 a)
                 (zip_with op (take (Z.to_nat (ne0 a * ne1 a)) da)
                              (take (Z.to_nat (ne0 a * ne1 a)) db)))).
Proof.
  intros Ha Hb Hn Hla Hlb.
  rewrite (ggml_binop_buffers op a b da db) by assumption.
  rewrite elementwise_zip by (rewrite ?length_replicate; lia).
  reflexivity.
Qed.

(** A loop that replaces every element of a range by a function of the
    element. *)
Lemma for_range_update {A} (f : A -> A) (dflt : A) (hi : Z)
    (body : Z -> list A -> outcome (list A)) (r : list A) :
  0 <= hi -> hi <= Z.of_nat (length r) ->
  (forall i r' x, 0 <= i < hi -> length r' = length r ->
                  r' !! Z.to_nat i = Some x -> body i r' = store r' i (f x)) ->
  for_range 0 hi body r = Ret ((f <$> take (Z.to_nat hi) r) ++ drop (Z.to_nat hi) r).
Proof.
  intros Hhi Hlen Hbody.
  destruct (for_range_foldl
              (fun i r' => length r' = length r
                           /\ forall p : nat, i <= Z.of_nat p -> r' !! p = r !! p)
              (put Z.to_nat (fun i => f (at_ dflt r i))) 0 hi body r)
    as [Hrun _]; [lia|split; [reflexivity|auto]| |].
  - intros i r' Hi [Hl Hrest].
    destruct (lookup_lt_is_Some_2 r (Z.to_nat i)) as [x Hx]; [lia|].
    rewrite (Hbody i r' x) by (lia || (rewrite Hrest by lia; exact Hx)).
    rewrite store_in_range by lia.
    unfold put. unfold at_ at 1. rewrite Hx. cbn [default from_option id].
    split; [reflexivity|]. rewrite length_insert. split; [exact Hl|].
    intros p Hp. rewrite list_lookup_insert_ne by lia. apply Hrest. lia.
  - rewrite Hrun, Z.sub_0_r, foldl_put_seqZ by lia.
    rewrite take_0. cbn [app]. rewrite Z.add_0_l.
    rewrite (fmap_at_seqZ f dflt r) by lia. reflexivity.
Qed.

Section Libm_tanhf_properties.
Variable tanhf : float -> float.

(** X19. For operands whose buffers hold the [ne0 * ne1] floats of
    [nodes], a number within [int], [hypergraph_encoding] returns a tensor
    of the first two extents of [nodes] whose element [i] is
    [tanhf((nodes[i] + links[i]) * 0.5f)]; it does not test the result of
    [ggml_add], so a null operand or a null buffer, for which [ggml_add]
    returns [NULL], is a null dereference. *)
Theorem hypergraph_encoding_values (a b : ggml_tensor) (da db : list float) :
  data a = Some da -> data b = Some db ->
  0 <= ne0 a * ne1 a <= INT_MAX ->
  ne0 a * ne1 a <= Z.of_nat (length da) ->
  ne0 a * ne1 a <= Z.of_nat (length db) ->
  let n := Z.to_nat (ne0 a * ne1 a) in
  hypergraph_encoding tanhf (Some a) (Some b)
  = Ret (Some (matrix (ne0 a) (ne1 a)
                 ((fun x => tanhf (F32.mul x F32.half))
                    <$> zip_with F32.add (take n da) (take n db))))
  /\ (forall x, ggml_add None x = Ret None
                /\ hypergraph_encoding tanhf None x = Fault)
  /\ (forall x, ggml_add x None = Ret None
                /\ hypergraph_encoding tanhf x None = Fault)
  /\ (forall x y, data x = None ->
        hypergraph_encoding tanhf (Some x) y = Fault
        /\ hypergraph_encoding tanhf y (Some x) = Fault).
Proof.
  intros Ha Hb Hn Hla Hlb n. split; [|split; [|split]].
  - unfold hypergraph_encoding, ggml_add.
    rewrite (ggml_binop_run F32.add a b da db) by assumption. cbn [bind].
    fold n. set (z := zip_with F32.add (take n da) (take n db)).
    assert (Hz : length z = n).
    { unfold z. rewrite length_zip_with, !length_take. lia. }
    cbn [matrix ne0 ne1 buffer data]. rewrite to_int_small by exact Hn.
    rewrite (for_range_update (fun x => tanhf (F32.mul x F32.half)) F32.zero);
      [|lia|lia|].
    + cbn [bind]. rewrite take_ge, drop_ge by lia. rewrite app_nil_r. reflexivity.
    + intros i r' x Hi Hr' Hx.
      rewrite (load_lookup r' i x) by (lia || exact Hx). reflexivity.
  - intros x. split; reflexivity.
  - intros [x|]; split; reflexivity.
  - intros x y Hx. unfold hypergraph_encoding, ggml_add, ggml_binop. rewrite Hx.
    destruct y as [y|]; [destruct (data y)|]; split; reflexivity.
Qed.
End Libm_tanhf_properties.

Lemma hypergraph_encoding_values_witness :
  hypergraph_encoding (fun x => x) (Some row2) (Some col2)
  = Ret (Some (matrix 1 2
                 ((fun x => F32.mul x F32.half)
                    <$> zip_with F32.add [F32.one; f0_9] [f0_9; f0_9]))).
Proof.
  refine (proj1 (hypergraph_encoding_values (fun x => x) row2 col2
                   [F32.one; f0_9] [f0_9; f0_9] eq_refl eq_refl _ _ _));
    cbn; unfold INT_MAX; lia.
Defined.

(** ** The hypergraph of a store *)

Lemma for_loop_inv {S} (Inv : Z -> S -> Prop) (n : nat) (lo : Z)
    (body : Z -> S -> outcome S) (s : S) :
  Inv lo s ->
  (forall i s, lo <= i < lo + Z.of_nat n -> Inv i s ->
               exists s', body i s = Ret s' /\ Inv (i + 1) s') ->
  exists s', for_loop n lo (fun _ => true) body s = Ret s'
             /\ Inv (lo + Z.of_nat n) s'.
Proof.
  revert lo s. induction n as [|n IH]; intros lo s Hs Hbody.
  - exists s. rewrite Z.add_0_r. split; [reflexivity|exact Hs].
  - destruct (Hbody lo s ltac:(lia) Hs) as (s1 & Hb & Hs1).
    destruct (IH (lo + 1) s1 Hs1) as (s' & Hrun & Hs').
    + intros i s2 Hi. apply Hbody. lia.
    + exists s'. cbn [for_loop]. rewrite Hb. cbn [bind]. split; [exact Hrun|].
      replace (lo + Z.of_nat (Datatypes.S n)) with (lo + 1 + Z.of_nat n) by lia.
      exact Hs'.
Qed.

Lemma for_range_inv {S} (Inv : Z -> S -> Prop) (lo hi : Z)
    (body : Z -> S -> outcome S) (s : S) :
  lo <= hi ->
  Inv lo s ->
  (forall i s, lo <= i < hi -> Inv i s ->
               exists s', body i s = Ret s' /\ Inv (i + 1) s') ->
  exists s', for_range lo hi body s = Ret s' /\ Inv hi s'.
Proof.
  intros Hle Hs Hbody. unfold for_range, for_while.
  destruct (for_loop_inv Inv (Z.to_nat (hi - lo)) lo body s Hs) as (s' & Hrun & Hs').
  - intros i s1 Hi. apply Hbody. lia.
  - exists s'. split; [exact Hrun|].
    replace (lo + Z.of_nat (Z.to_nat (hi - lo))) with hi in Hs' by lia. exact Hs'.
Qed.

Lemma adjacency_fresh (n i j : Z) :
  adjacency n (replicate (Z.to_nat (n * n)) 0) i j = 0.
Proof.
  unfold adjacency, at_.
  destruct (replicate (Z.to_nat (n * n)) 0 !! Z.to_nat (i * n + j)) as [x|] eqn:E;
    [|reflexivity].
  apply lookup_replicate in E as [-> _]. reflexivity.
Qed.

(** The adjacency matrix after the two stores that link [i] and [j]. *)
Lemma adjacency_link (n : Z) (adj : list Z) (i j a b : Z) :
  Z.of_nat (length adj) = n * n ->
  0 <= i < n -> 0 <= j < n -> 0 <= a < n -> 0 <= b < n ->
  adjacency n (<[Z.to_nat (j * n + i) := 1]> (<[Z.to_nat (i * n + j) := 1]> adj)) a b
  = if ((a =? i) && (b =? j)) || ((a =? j) && (b =? i)) then 1
    else adjacency n adj a b.
Proof.
  intros Hlen Hi Hj Ha Hb. unfold adjacency, at_.
  assert (Hij : 0 <= i * n + j < n * n) by (apply row_major_bound; lia).
  assert (Hji : 0 <= j * n + i < n * n) by (apply row_major_bound; lia).
  assert (Hab : 0 <= a * n + b < n * n) by (apply row_major_bound; lia).
  destruct (Z.eqb_spec a j) as [Eaj|Eaj], (Z.eqb_spec b i) as [Ebi|Ebi];
    cbn [andb orb].
  - subst. rewrite orb_true_r.
    rewrite list_lookup_insert_eq by (rewrite length_insert; lia). reflexivity.
  - rewrite orb_false_r.
    rewrite list_lookup_insert_ne.
    2: { intros E. destruct (row_major_inj n j i a b); lia. }
    destruct (Z.eqb_spec a i) as [Eai|Eai], (Z.eqb_spec b j) as [Ebj|Ebj];
      cbn [andb].
    + subst. rewrite list_lookup_insert_eq by lia. reflexivity.
    + rewrite list_lookup_insert_ne; [reflexivity|].
      intros E. destruct (row_major_inj n i j a b); lia.
    + rewrite list_lookup_insert_ne; [reflexivity|].
      intros E. destruct (row_major_inj n i j a b); lia.
    + rewrite list_lookup_insert_ne; [reflexivity|].
      intros E. destruct (row_major_inj n i j a b); lia.
  - rewrite orb_false_r.
    rewrite list_lookup_insert_ne.
    2: { intros E. destruct (row_major_inj n j i a b); lia. }
    destruct (Z.eqb_spec a i) as [Eai|Eai], (Z.eqb_spec b j) as [Ebj|Ebj];
      cbn [andb].
    + subst. rewrite list_lookup_insert_eq by lia. reflexivity.
    + rewrite list_lookup_insert_ne; [reflexivity|].
      intros E. destruct (row_major_inj n i j a b); lia.
    + rewrite list_lookup_insert_ne; [reflexivity|].
      intros E. destruct (row_major_inj n i j a b); lia.
    + rewrite list_lookup_insert_ne; [reflexivity|].
      intros E. destruct (row_major_inj n i j a b); lia.
  - rewrite orb_false_r.
    rewrite list_lookup_insert_ne.
    2: { intros E. destruct (row_major_inj n j i a b); lia. }
    destruct (Z.eqb_spec a i) as [Eai|Eai], (Z.eqb_spec b j) as [Ebj|Ebj];
      cbn [andb].
    + subst. rewrite list_lookup_insert_eq by lia. reflexivity.
    + rewrite list_lookup_insert_ne; [reflexivity|].
      intros E. destruct (row_major_inj n i j a b); lia.
    + rewrite list_lookup_insert_ne; [reflexivity|].
      intros E. destruct (row_major_inj n i j a b); lia.
    + rewrite list_lookup_insert_ne; [reflexivity|].
      intros E. destruct (row_major_inj n i j a b); lia.
Qed.

Lemma similar_sym (as_ : AtomSpace) (i j : Z) : similar as_ i j = similar as_ j i.
Proof.
  unfold similar. rewrite (Z.eqb_sym i j), (Z.min_comm i j), (Z.max_comm i j).
  reflexivity.
Qed.

Lemma similar_no_entity (as_ : AtomSpace) (i j : Z) :
  entity as_ i = None -> similar as_ i j = 0.
Proof.
  intros Hi. unfold similar. destruct (Z.eqb_spec i j) as [E|E]; [reflexivity|].
  destruct (Z.le_gt_cases i j).
  - rewrite Z.min_l by lia. rewrite Hi. reflexivity.
  - rewrite Z.max_l by lia. rewrite Hi.
    destruct (entity as_ (Z.min i j)); reflexivity.
Qed.

(** The slots of the store and their entities. *)
Lemma entity_slot (as_ : AtomSpace) (i : Z) (p : atom_ptr) :
  0 <= i < count as_ -> atoms as_ !! Z.to_nat i = Some p ->
  entity as_ i
  = match p with
    | Live a =>
        match truth_value a with
        | Some tv => Some (F32.of_double (mean tv))
        | None => None
        end
    | _ => None
    end.
Proof.
  intros Hi Hp. unfold entity.
  destruct (Z.leb_spec 0 i); [|lia]. destruct (Z.ltb_spec i (count as_)); [|lia].
  cbn [andb]. rewrite Hp. destruct p; reflexivity.
Qed.

(** One pass of the inner loop. *)
Lemma link_similar_run (as_ : AtomSpace) (nw : list float) (i j : Z) (adj : list Z)
    (ci : float) :
  atomspace_wf as_ ->
  0 <= i < j -> j < count as_ ->
  entity as_ i = Some ci -> nw !! Z.to_nat i = Some ci ->
  Z.of_nat (length adj) = count as_ * count as_ ->
  link_similar as_ (count as_) nw i j adj
  = Ret (if similar as_ i j =? 1
         then <[Z.to_nat (j * count as_ + i) := 1]>
                (<[Z.to_nat (i * count as_ + j) := 1]> adj)
         else adj).
Proof.
  intros (Hcount & Hcap & Hlive) Hi Hj Hei Hnw Hlen.
  destruct (lookup_lt_is_Some_2 (atoms as_) (Z.to_nat j)) as [q Hq]; [lia|].
  pose proof (entity_slot as_ j q ltac:(lia) Hq) as Hej.
  assert (Hsim : similar as_ i j
                 = match entity as_ j with
                   | Some cj => if F32.ltb (F32.abs (F32.sub ci cj)) f0_3 then 1 else 0
                   | None => 0
                   end).
  { unfold similar. destruct (Z.eqb_spec i j); [lia|].
    rewrite Z.min_l, Z.max_r by lia. rewrite Hei. reflexivity. }
  unfold link_similar.
  rewrite (load_lookup (atoms as_) j q) by (lia || exact Hq). cbn [bind].
  rewrite Hsim, Hej.
  destruct q as [|b|]; [reflexivity| |exfalso; exact (Hlive j ltac:(lia) Hq)].
  destruct (truth_value b) as [tvj|]; [|reflexivity].
  rewrite (load_lookup nw i ci) by (lia || exact Hnw). cbn [bind].
  destruct (F32.ltb (F32.abs (F32.sub ci (F32.of_double (mean tvj)))) f0_3);
    [|reflexivity].
  assert (0 <= i * count as_ + j < count as_ * count as_)
    by (apply row_major_bound; lia).
  assert (0 <= j * count as_ + i < count as_ * count as_)
    by (apply row_major_bound; lia).
  rewrite store_in_range by lia. cbn [bind].
  rewrite store_in_range by (rewrite length_insert; lia). reflexivity.
Qed.

Lemma visited_step (i j a b : Z) :
  i < j ->
  (Z.min a b <? i) || ((Z.min a b =? i) && (Z.max a b <? j + 1))
  = ((Z.min a b <? i) || ((Z.min a b =? i) && (Z.max a b <? j)))
    || (((a =? i) && (b =? j)) || ((a =? j) && (b =? i))).
Proof.
  intros Hij.
  destruct (Z.ltb_spec (Z.min a b) i), (Z.eqb_spec (Z.min a b) i),
    (Z.ltb_spec (Z.max a b) (j + 1)), (Z.ltb_spec (Z.max a b) j),
    (Z.eqb_spec a i), (Z.eqb_spec b j), (Z.eqb_spec a j), (Z.eqb_spec b i);
    cbn [andb orb]; try reflexivity; lia.
Qed.

(** The hypergraph that the loops of
    [create_hypergraph_tensor_from_atomspace] build. *)
Lemma populate_run (as_ : AtomSpace) (l : Z) :
  atomspace_wf as_ ->
  let n := count as_ in
  let hg0 := {| node_count := n; link_count := l;
                node_weights := replicate (Z.to_nat n) F32.zero;
                link_weights := replicate (Z.to_nat l) F32.zero;
                adjacency_matrix := replicate (Z.to_nat (n * n)) 0 |} in
  exists adj,
    populate_hypergraph as_ hg0
    = Ret (set_graph hg0 adj (central <$> take (Z.to_nat n) (atoms as_)))
    /\ Z.of_nat (length adj) = n * n
    /\ forall a b, 0 <= a < n -> 0 <= b < n -> adjacency n adj a b = similar as_ a b.
Proof.
  intros Hwf n hg0. pose proof Hwf as (Hcount & Hcap & Hlive).
  assert (Hsq : 0 <= n * n) by (apply Z.mul_nonneg_nonneg; unfold n; lia).
  destruct (for_range_inv
              (fun i (st : list float * list Z) =>
                 fst st = (central <$> take (Z.to_nat i) (atoms as_))
                          ++ replicate (Z.to_nat (n - i)) F32.zero
                 /\ Z.of_nat (length (snd st)) = n * n
                 /\ forall a b, 0 <= a < n -> 0 <= b < n ->
                      adjacency n (snd st) a b
                      = if Z.min a b <? i then similar as_ a b else 0)
              0 n
              (fun i (st : list float * list Z) =>
                 p <- load (atoms as_) i ;;
                 match p with
                 | Null => Ret st
                 | Dangling => Fault
                 | Live a =>
                     match truth_value a with
                     | None => Ret st
                     | Some tv =>
                         nw <- store (fst st) i (F32.of_double (mean tv)) ;;
                         adj <- for_range (i + 1) (count as_) (fun j adj =>
                                  link_similar as_ (node_count hg0) nw i j adj)
                                  (snd st) ;;
                         Ret (nw, adj)
                     end
                 end)
              (node_weights hg0, adjacency_matrix hg0))
    as ([nw adj] & Hrun & Hnw & Hadj & Hsim).
  - unfold n. lia.
  - cbn [fst snd hg0 node_weights adjacency_matrix].
    split; [rewrite Z.sub_0_r; reflexivity|].
    split; [rewrite length_replicate; lia|].
    intros a b Ha Hb. rewrite adjacency_fresh.
    destruct (Z.ltb_spec (Z.min a b) 0); [lia|reflexivity].
  - intros i [nw adj] Hi (Hnw & Hadj & Hsim). cbn [fst snd] in *.
    cbn [hg0 node_count]. fold n.
    destruct (lookup_lt_is_Some_2 (atoms as_) (Z.to_nat i)) as [p Hp]; [lia|].
    pose proof (entity_slot as_ i p Hi Hp) as Hent.
    rewrite (load_lookup (atoms as_) i p) by (lia || exact Hp). cbn [bind].
    assert (Hlx : length (central <$> take (Z.to_nat i) (atoms as_)) = Z.to_nat i)
      by (rewrite length_fmap, length_take; lia).
    assert (Hnext : <[Z.to_nat i := central p]> nw
                    = (central <$> take (Z.to_nat (i + 1)) (atoms as_))
                      ++ replicate (Z.to_nat (n - (i + 1))) F32.zero).
    { rewrite Hnw. rewrite insert_app_r_alt by lia. rewrite Hlx, Nat.sub_diag.
      replace (Z.to_nat (n - i)) with (Datatypes.S (Z.to_nat (n - (i + 1)))) by lia.
      cbn [replicate insert list_insert].
      replace (Z.to_nat (i + 1)) with (Datatypes.S (Z.to_nat i)) by lia.
      rewrite (take_S_r _ _ _ Hp), fmap_app, <- app_assoc. reflexivity. }
    assert (Hzero : central p = F32.zero -> nw
                    = (central <$> take (Z.to_nat (i + 1)) (atoms as_))
                      ++ replicate (Z.to_nat (n - (i + 1))) F32.zero).
    { intros Hc. rewrite <- Hnext, Hc. symmetry. apply list_insert_id.
      rewrite Hnw, lookup_app_r by lia. rewrite Hlx, Nat.sub_diag.
      replace (Z.to_nat (n - i)) with (Datatypes.S (Z.to_nat (n - (i + 1)))) by lia.
      reflexivity. }
    assert (Hskip : entity as_ i = None ->
              forall a b, 0 <= a < n -> 0 <= b < n ->
                adjacency n adj a b
                = if Z.min a b <? i + 1 then similar as_ a b else 0).
    { intros Hnone a b Ha Hb. rewrite (Hsim a b Ha Hb).
      destruct (Z.ltb_spec (Z.min a b) i), (Z.ltb_spec (Z.min a b) (i + 1));
        try reflexivity; try lia.
      destruct (Z.le_gt_cases a b).
      - replace a with i by lia. symmetry. apply similar_no_entity. exact Hnone.
      - replace b with i by lia. rewrite similar_sym.
        symmetry. apply similar_no_entity. exact Hnone. }
    destruct p as [|a0|].
    + eexists. split; [reflexivity|]. cbn [fst snd].
      split; [apply Hzero; reflexivity|]. split; [exact Hadj|].
      apply Hskip. exact Hent.
    + cbn [central] in Hnext, Hzero.
      destruct (truth_value a0) as [tv|] eqn:Etv.
      * rewrite store_in_range
          by (rewrite Hnw, length_app, Hlx, length_replicate; lia).
        cbn [bind]. fold n.
        set (ci := F32.of_double (mean tv)) in *.
        set (nw' := <[Z.to_nat i := ci]> nw) in *.
        assert (Hci : nw' !! Z.to_nat i = Some ci).
        { unfold nw'. apply list_lookup_insert_eq.
          rewrite Hnw, length_app, Hlx, length_replicate. lia. }
        destruct (for_range_inv
                    (fun j (adj' : list Z) =>
                       Z.of_nat (length adj') = n * n
                       /\ forall a b, 0 <= a < n -> 0 <= b < n ->
                            adjacency n adj' a b
                            = if (Z.min a b <? i)
                                 || ((Z.min a b =? i) && (Z.max a b <? j))
                              then similar as_ a b else 0)
                    (i + 1) n
                    (fun j adj' => link_similar as_ n nw' i j adj')
                    adj) as (adj' & Hrun' & Hadj' & Hsim').
        -- lia.
        -- split; [exact Hadj|]. intros a b Ha Hb. rewrite (Hsim a b Ha Hb).
           destruct (Z.ltb_spec (Z.min a b) i); [reflexivity|].
           destruct (Z.eqb_spec (Z.min a b) i), (Z.ltb_spec (Z.max a b) (i + 1));
             cbn [andb orb]; try reflexivity.
           replace b with a by lia. unfold similar. rewrite Z.eqb_refl. reflexivity.
        -- intros j adj1 Hj (Hadj1 & Hsim1).
           change (link_similar as_ n nw' i j adj1)
             with (link_similar as_ (count as_) nw' i j adj1).
           rewrite (link_similar_run as_ nw' i j adj1 ci Hwf) by (lia || assumption).
           fold n. eexists. split; [reflexivity|].
           assert (H01 : similar as_ i j = 0 \/ similar as_ i j = 1).
           { unfold similar. destruct (i =? j); [left; reflexivity|].
             destruct (entity as_ (Z.min i j)); [|left; reflexivity].
             destruct (entity as_ (Z.max i j)); [|left; reflexivity].
             destruct (F32.ltb _ f0_3); [right|left]; reflexivity. }
           destruct H01 as [E|E]; rewrite E; cbn [Z.eqb Pos.eqb].
           ++ split; [exact Hadj1|]. intros a b Ha Hb.
              rewrite (Hsim1 a b Ha Hb), visited_step by lia.
              destruct ((Z.min a b <? i) || ((Z.min a b =? i) && (Z.max a b <? j)));
                [reflexivity|]. cbn [orb].
              destruct (Z.eqb_spec a i), (Z.eqb_spec b j), (Z.eqb_spec a j),
                (Z.eqb_spec b i); cbn [andb orb]; try reflexivity; subst;
                rewrite ?(similar_sym as_ j i), E; reflexivity.
           ++ split; [rewrite !length_insert; exact Hadj1|]. intros a b Ha Hb.
              rewrite adjacency_link by (lia || assumption).
              rewrite visited_step by lia.
              destruct (((a =? i) && (b =? j)) || ((a =? j) && (b =? i))) eqn:Eab.
              ** rewrite orb_true_r.
                 destruct (Z.eqb_spec a i), (Z.eqb_spec b j), (Z.eqb_spec a j),
                   (Z.eqb_spec b i); cbn [andb orb] in Eab; try discriminate; subst;
                   rewrite ?(similar_sym as_ j i), E; reflexivity.
              ** rewrite orb_false_r. apply Hsim1; assumption.
        -- rewrite Hrun'. cbn [bind]. eexists. split; [reflexivity|]. cbn [fst snd].
           split; [exact Hnext|]. split; [exact Hadj'|].
           intros a b Ha Hb. rewrite (Hsim' a b Ha Hb).
           destruct (Z.ltb_spec (Z.min a b) i), (Z.ltb_spec (Z.min a b) (i + 1)),
             (Z.eqb_spec (Z.min a b) i), (Z.ltb_spec (Z.max a b) n);
             cbn [andb orb]; try reflexivity; lia.
      * eexists. split; [reflexivity|]. cbn [fst snd].
        split; [apply Hzero; reflexivity|]. split; [exact Hadj|].
        apply Hskip. exact Hent.
    + exfalso. exact (Hlive i Hi Hp).
  - cbn [fst snd] in *. exists adj. unfold populate_hypergraph.
    unfold n in Hrun. rewrite Hrun. cbn [bind fst snd]. split.
    + rewrite Hnw, Z.sub_diag. cbn [replicate]. rewrite app_nil_r. reflexivity.
    + split; [exact Hadj|]. intros a b Ha Hb. rewrite (Hsim a b Ha Hb).
      destruct (Z.ltb_spec (Z.min a b) n); [reflexivity|lia].
Qed.

(** X20. [create_hypergraph_tensor_from_atomspace] builds a hypergraph
    with one node per slot below [count]: the weight of a node is the
    central value of its atom (0 without a truth value), two distinct nodes
    are linked, in both directions, exactly when both atoms have a truth
    value and their central values differ by less than 0.3, and no node is
    linked to itself.  The tensor returned is the encoding of this
    hypergraph, and it is symmetric. *)
Theorem hypergraph_of_store (as_ : AtomSpace) :
  atomspace_wf as_ -> count as_ * count as_ <= INT_MAX ->
  let n := count as_ in
  exists hg0 hg t,
    create_hypergraph n (to_size_t (n * 2)) = Some hg0
    /\ populate_hypergraph as_ hg0 = Ret hg
    /\ node_count hg = n
    /\ node_weights hg = central <$> take (Z.to_nat n) (atoms as_)
    /\ (forall i j, 0 <= i < n -> 0 <= j < n ->
          adjacency n (adjacency_matrix hg) i j = similar as_ i j)
    /\ create_hypergraph_tensor_from_atomspace as_ = Ret (Some t)
    /\ ne0 t = n /\ ne1 t = n
    /\ forall i j, 0 <= i < n -> 0 <= j < n ->
         tensor_cell t i j = Some (encode_value hg i j)
         /\ tensor_cell t j i = tensor_cell t i j.
Proof.
  intros Hwf Hsq n. pose proof Hwf as (Hcount & Hcap & Hlive).
  destruct (populate_run as_ (to_size_t (n * 2)) Hwf) as (adj & Hrun & Hadj & Hsim).
  fold n in Hrun, Hadj, Hsim.
  set (hg0 := {| node_count := n; link_count := to_size_t (n * 2);
                 node_weights := replicate (Z.to_nat n) F32.zero;
                 link_weights := replicate (Z.to_nat (to_size_t (n * 2))) F32.zero;
                 adjacency_matrix := replicate (Z.to_nat (n * n)) 0 |}) in *.
  set (hg := set_graph hg0 adj (central <$> take (Z.to_nat n) (atoms as_))) in *.
  assert (Hhg : hypergraph_wf hg).
  { unfold hypergraph_wf, hg. cbn [set_graph hg0 node_count node_weights adjacency_matrix].
    split; [unfold n; lia|]. split; [exact Hsq|]. split; [|exact Hadj].
    rewrite length_fmap, length_take. unfold n. lia. }
  destruct (encode_symmetric_cells hg Hhg) as (t & Henc & Ht0 & Ht1 & Hcells).
  { intros i j Hi Hj. cbn [hg set_graph hg0 node_count adjacency_matrix] in *.
    rewrite !Hsim by assumption. apply similar_sym. }
  exists hg0, hg, t. split; [reflexivity|]. split; [exact Hrun|].
  split; [reflexivity|]. split; [reflexivity|]. split; [exact Hsim|].
  split.
  - unfold create_hypergraph_tensor_from_atomspace, create_hypergraph. fold n.
    fold hg0. rewrite Hrun. cbn [bind]. exact Henc.
  - split; [exact Ht0|]. split; [exact Ht1|]. exact Hcells.
Qed.

Lemma hypergraph_of_store_witness :
  exists t,
    create_hypergraph_tensor_from_atomspace
      {| atoms := [Live (create_atom 7 ATOM_TYPE_CONCEPT None F64.c0_8 F64.c0_8);
                   Live (create_atom 8 ATOM_TYPE_CONCEPT None (F64.lit 9 10) F64.c0_8)];
         count := 2; capacity := 2 |}
    = Ret (Some t)
    /\ ne0 t = 2 /\ ne1 t = 2.
Proof.
  destruct (hypergraph_of_store
              {| atoms := [Live (create_atom 7 ATOM_TYPE_CONCEPT None F64.c0_8 F64.c0_8);
                           Live (create_atom 8 ATOM_TYPE_CONCEPT None (F64.lit 9 10)
                                   F64.c0_8)];
                 count := 2; capacity := 2 |})
    as (hg0 & hg & t & _ & _ & _ & _ & _ & Hrun & H0 & H1 & _).
  - unfold atomspace_wf. cbn [atoms count capacity].
    split; [lia|]. split; [reflexivity|].
    intros p Hp. assert (E : p = 0 \/ p = 1) by lia.
    destruct E as [-> | ->]; discriminate.
  - vm_compute. discriminate.
  - exists t. split; [exact Hrun|]. split; [exact H0|exact H1].
Defined.

(** ** Matching atoms by name *)

Lemma pattern_match_start (a : AtomSpace) (pat : string) (res : ggml_tensor) :
  atomspace_wf a -> tensor_wf res ->
  pattern_match_atomspace (Some a) (Some pat) (Some res)
  = (result_data <-
       for_range 0 (Z.min (count a) (ne0 res * ne1 res)) (fun i result_data =>
         p <- load (atoms a) i ;;
         match p with
         | Null => Ret result_data
         | Dangling => Fault
         | Live at_i =>
             match name at_i with
             | None => Ret result_data
             | Some nm =>
                 if strstr nm pat then
                   match truth_value at_i with
                   | None => Fault
                   | Some tv => store result_data i (F32.of_double (mean tv))
                   end
                 else Ret result_data
             end
         end)
         (replicate (Z.to_nat (ne0 res * ne1 res)) F32.zero) ;;
     Ret (0, Some (set_data res result_data))).
Proof.
  intros (Hcount & Hcap & Hlive) (Hne0 & Hne1 & Hprod & d0 & Hd & Hlen).
  assert (Hsize : 0 <= ne0 res * ne1 res) by (apply Z.mul_nonneg_nonneg; lia).
  unfold pattern_match_atomspace. cbv zeta.
  rewrite to_int_small by lia. rewrite to_size_t_small by lia.
  unfold memset_zero. rewrite Hd.
  destruct (Z.leb_spec (ne0 res * ne1 res) (Z.of_nat (length d0))); [|lia].
  cbn [bind]. rewrite drop_ge, app_nil_r by lia.
  rewrite for_while_ltb by lia. reflexivity.
Qed.

(** What [pattern_match_atomspace] writes when every atom of the store
    has a truth value. *)
Lemma pattern_match_run (a : AtomSpace) (pat : string) (res : ggml_tensor) :
  atomspace_wf a -> tensor_wf res ->
  (forall i x, 0 <= i < count a -> atoms a !! Z.to_nat i = Some (Live x) ->
               truth_value x <> None) ->
  let size := ne0 res * ne1 res in
  let m := Z.min (count a) size in
  pattern_match_atomspace (Some a) (Some pat) (Some res)
  = Ret (0, Some (set_data res
                    ((matched pat <$> take (Z.to_nat m) (atoms a))
                     ++ replicate (Z.to_nat (size - m)) F32.zero))).
Proof.
  intros Hwf Hres Htv size m. pose proof Hwf as (Hcount & Hcap & Hlive).
  pose proof Hres as (Hne0 & Hne1 & Hprod & d0 & Hd & Hlen).
  assert (Hsize : 0 <= size) by (apply Z.mul_nonneg_nonneg; lia).
  rewrite (pattern_match_start a pat res Hwf Hres). fold size. fold m.
  destruct (for_range_inv
              (fun i (r : list float) =>
                 r = (matched pat <$> take (Z.to_nat i) (atoms a))
                     ++ replicate (Z.to_nat (size - i)) F32.zero)
              0 m
              (fun i result_data =>
                 p <- load (atoms a) i ;;
                 match p with
                 | Null => Ret result_data
                 | Dangling => Fault
                 | Live at_i =>
                     match name at_i with
                     | None => Ret result_data
                     | Some nm =>
                         if strstr nm pat then
                           match truth_value at_i with
                           | None => Fault
                           | Some tv =>
                               store result_data i (F32.of_double (mean tv))
                           end
                         else Ret result_data
                     end
                 end)
              (replicate (Z.to_nat size) F32.zero)) as (r & Hrun & Hr).
  - unfold m. lia.
  - rewrite Z.sub_0_r. reflexivity.
  - intros i r Hi ->.
    destruct (lookup_lt_is_Some_2 (atoms a) (Z.to_nat i)) as [p Hp];
      [unfold m in Hi; lia|].
    rewrite (load_lookup (atoms a) i p) by (lia || exact Hp). cbn [bind].
    set (r := (matched pat <$> take (Z.to_nat i) (atoms a))
              ++ replicate (Z.to_nat (size - i)) F32.zero).
    assert (Hlx : length (matched pat <$> take (Z.to_nat i) (atoms a)) = Z.to_nat i)
      by (rewrite length_fmap, length_take; unfold m in Hi; lia).
    assert (Hnext : <[Z.to_nat i := matched pat p]> r
                    = (matched pat <$> take (Z.to_nat (i + 1)) (atoms a))
                      ++ replicate (Z.to_nat (size - (i + 1))) F32.zero).
    { unfold r. rewrite insert_app_r_alt by lia. rewrite Hlx, Nat.sub_diag.
      replace (Z.to_nat (size - i))
        with (Datatypes.S (Z.to_nat (size - (i + 1)))) by (unfold m in Hi; lia).
      cbn [replicate insert list_insert].
      replace (Z.to_nat (i + 1)) with (Datatypes.S (Z.to_nat i)) by lia.
      rewrite (take_S_r _ _ _ Hp), fmap_app, <- app_assoc. reflexivity. }
    assert (Hzero : matched pat p = F32.zero ->
              r = (matched pat <$> take (Z.to_nat (i + 1)) (atoms a))
                  ++ replicate (Z.to_nat (size - (i + 1))) F32.zero).
    { intros Hc. rewrite <- Hnext, Hc. symmetry. apply list_insert_id.
      unfold r. rewrite lookup_app_r by lia. rewrite Hlx, Nat.sub_diag.
      replace (Z.to_nat (size - i))
        with (Datatypes.S (Z.to_nat (size - (i + 1)))) by (unfold m in Hi; lia).
      reflexivity. }
    destruct p as [|x|].
    + eexists. split; [reflexivity|]. apply Hzero. reflexivity.
    + cbn [matched central] in Hnext, Hzero.
      destruct (name x) as [nm|]; [|eexists; split; [reflexivity|auto]].
      destruct (strstr nm pat); [|eexists; split; [reflexivity|auto]].
      destruct (truth_value x) as [tv|] eqn:Etv.
      * rewrite store_in_range
          by (unfold r; rewrite length_app, Hlx, length_replicate;
              unfold m in Hi; lia).
        eexists. split; [reflexivity|exact Hnext].
      * exfalso. exact (Htv i x ltac:(unfold m in Hi; lia) Hp Etv).
    + exfalso. exact (Hlive i ltac:(unfold m in Hi; lia) Hp).
  - rewrite Hrun. cbn [bind]. subst r. reflexivity.
Qed.

(** X21. [pattern_match_atomspace] returns -1 and leaves the result
    alone when one of its arguments is null; otherwise it returns 0 and
    element [i] of the result is the central value of atom [i] when the
    name of the atom contains the pattern, and 0 for every other element,
    those from [count] on included.  The truth value of a matching atom is
    read without a test: an atom whose name matches and that has no truth
    value is a null dereference. *)
Theorem pattern_match_values (a : AtomSpace) (pat : string) (res : ggml_tensor) :
  atomspace_wf a -> tensor_wf res ->
  ((forall i x, 0 <= i < count a -> atoms a !! Z.to_nat i = Some (Live x) ->
                truth_value x <> None) ->
   exists d,
     pattern_match_atomspace (Some a) (Some pat) (Some res)
     = Ret (0, Some (set_data res d))
     /\ Z.of_nat (length d) = ne0 res * ne1 res
     /\ forall i, 0 <= i < ne0 res * ne1 res ->
          d !! Z.to_nat i
          = Some (if i <? count a then matched pat (at_ Null (atoms a) i)
                  else F32.zero))
  /\ (forall i x nm, 0 <= i < count a -> i < ne0 res * ne1 res ->
        atoms a !! Z.to_nat i = Some (Live x) ->
        name x = Some nm -> strstr nm pat = true -> truth_value x = None ->
        pattern_match_atomspace (Some a) (Some pat) (Some res) = Fault)
  /\ (forall p' r', pattern_match_atomspace None p' r' = Ret (-1, r'))
  /\ (forall a' r', pattern_match_atomspace a' None r' = Ret (-1, r'))
  /\ (forall a' p', pattern_match_atomspace a' p' None = Ret (-1, None)).
Proof.
  intros Hwf Hres. pose proof Hwf as (Hcount & Hcap & Hlive).
  pose proof Hres as (Hne0 & Hne1 & Hprod & d0 & Hd & Hlen).
  assert (Hsize : 0 <= ne0 res * ne1 res) by (apply Z.mul_nonneg_nonneg; lia).
  split; [|split; [|split; [|split]]].
  - intros Htv. rewrite (pattern_match_run a pat res Hwf Hres Htv).
    set (size := ne0 res * ne1 res) in *. set (m := Z.min (count a) size).
    eexists. split; [reflexivity|].
    assert (Hl : length (matched pat <$> take (Z.to_nat m) (atoms a)) = Z.to_nat m)
      by (rewrite length_fmap, length_take; unfold m; lia).
    split; [rewrite length_app, Hl, length_replicate; unfold m; lia|].
    intros i Hi. destruct (Z.ltb_spec i (count a)) as [Hlt|Hge].
    + rewrite lookup_app_l by (rewrite Hl; unfold m; lia).
      rewrite list_lookup_fmap, lookup_take_lt by (unfold m; lia).
      destruct (lookup_lt_is_Some_2 (atoms a) (Z.to_nat i)) as [p Hp]; [lia|].
      unfold at_. rewrite Hp. reflexivity.
    + rewrite lookup_app_r by (rewrite Hl; unfold m; lia).
      rewrite lookup_replicate_2 by (rewrite Hl; unfold m; lia). reflexivity.
  - intros i x nm Hi Hi' Hp Hnm Hmatch Htv.
    rewrite (pattern_match_start a pat res Hwf Hres).
    unfold for_range, for_while.
    rewrite (for_loop_fault _ 0 i); [reflexivity|lia|].
    intros s. rewrite (load_lookup (atoms a) i (Live x)) by (lia || exact Hp).
    cbn [bind]. rewrite Hnm, Hmatch, Htv. reflexivity.
  - reflexivity.
  - intros [a'|] r'; reflexivity.
  - intros [a'|] [p'|]; reflexivity.
Qed.

Lemma pattern_match_values_witness :
  exists d,
    pattern_match_atomspace (Some store1) (Some "zero"%string) (Some row2)
    = Ret (0, Some (set_data row2 d))
    /\ d !! 1%nat = Some F32.zero.
Proof.
  destruct (proj1 (pattern_match_values store1 "zero"%string row2
              ltac:(unfold atomspace_wf, store1; cbn [atoms count capacity];
                    split; [lia|]; split; [reflexivity|];
                    intros p Hp; replace p with 0 by lia; discriminate)
              ltac:(sample_tensor_wf)))
    as (d & Hrun & _ & Hd).
  - intros i x Hi Hx. cbn [store1 count] in Hi. replace i with 0 in Hx by lia.
    inversion Hx. discriminate.
  - exists d. split; [exact Hrun|]. exact (Hd 1 ltac:(cbn; lia)).
Defined.

Lemma strstr_concept (s : string) : strstr ("concept_" ++ s) "concept_" = true.
Proof. destruct s; reflexivity. Qed.

(** X22. The atoms that [tensor_to_atomspace] makes are found by their
    names: matching the rebuilt store against the pattern ["concept_"]
    returns the values above 0.01 of the tensor, without loss and in their
    order, at the front of the result, and 0 in the rest of it. *)
Theorem synthesized_names_match (rand : nat -> Z) (t : ggml_tensor) (as_ : AtomSpace)
    (out : ggml_tensor) :
  tensor_wf t -> Forall (fun x => F32.valid x = true) (buffer t) ->
  atomspace_wf as_ -> tensor_wf out ->
  let kept := significant t (capacity as_) in
  let size := ne0 out * ne1 out in
  exists as',
    tensor_to_atomspace rand t as_ = Ret as'
    /\ pattern_match_atomspace (Some as') (Some "concept_"%string) (Some out)
       = Ret (0, Some (set_data out
                         ((at_ F32.zero (buffer t) <$> take (Z.to_nat size) kept)
                          ++ replicate (Z.to_nat (size - Z.of_nat (length kept)))
                               F32.zero))).
Proof.
  intros Ht Hvalid Hwf Hout kept size.
  destruct (tensor_to_atomspace_store rand t as_ Ht Hwf)
    as (as' & Hrun & Hcap & Hcount & Htake & Hlive).
  fold kept in Hcount, Htake.
  pose proof Hlive as (Hc' & Hcap' & Hslots).
  assert (Hwf' : atomspace_wf as').
  { split; [exact Hc'|]. split; [exact Hcap'|].
    intros p Hp. destruct (Hslots p Hp) as (x & Hx). rewrite Hx. discriminate. }
  assert (Hsize : 0 <= size).
  { destruct Hout as (? & ? & _). apply Z.mul_nonneg_nonneg; lia. }
  exists as'. split; [exact Hrun|].
  rewrite (pattern_match_run as' "concept_" out Hwf' Hout).
  - fold size. rewrite Hcount. do 4 f_equal. f_equal.
    + apply (synthesized_values (matched "concept_") rand t kept); [|exact Htake].
      intros k i Hi. unfold matched, synthesized.
      cbn [name create_atom]. rewrite strstr_concept.
      apply central_synthesized.
      apply (significant_valid t (capacity as_)); assumption.
    + f_equal. lia.
  - intros i x Hi Hx.
    assert (Hi' : (Z.to_nat i < length kept)%nat) by lia.
    rewrite <- (lookup_take_lt (atoms as') (length kept)) in Hx by exact Hi'.
    rewrite Htake, list_lookup_imap in Hx.
    destruct (kept !! Z.to_nat i); [|discriminate].
    inversion Hx. discriminate.
Qed.

Lemma synthesized_names_match_witness :
  exists as',
    tensor_to_atomspace (fun _ => 12345) row2 store1 = Ret as'
    /\ pattern_match_atomspace (Some as') (Some "concept_"%string) (Some row2)
       = Ret (0, Some (set_data row2 [F32.one; f0_9])).
Proof.
  destruct (synthesized_names_match (fun _ => 12345) row2 store1 row2)
    as (as' & Hrun & Hmatch).
  - sample_tensor_wf.
  - cbn. repeat constructor.
  - unfold atomspace_wf, store1. cbn [atoms count capacity].
    split; [lia|]. split; [reflexivity|].
    intros p Hp. replace p with 0 by lia. discriminate.
  - sample_tensor_wf.
  - exists as'. split; [exact Hrun|]. rewrite Hmatch. reflexivity.
Defined.

(** ** The attention tensor of a store is symmetric *)

Lemma abs_binary_round (prec emax : Z) (s : bool) (m : positive) (e : Z) :
  SFabs (binary_round prec emax s m e) = SFabs (binary_round prec emax false m e).
Proof.
  unfold binary_round. destruct (shl_align m e _) as [mz ez].
  unfold binary_round_aux.
  destruct (shr_fexp prec emax (Zpos mz) ez loc_Exact) as [mrs' e'].
  destruct (shr_fexp prec emax _ e' loc_Exact) as [mrs'' e''].
  destruct (shr_m mrs''); try reflexivity.
  destruct (e'' <=? emax - prec); reflexivity.
Qed.

(** [fabsf(x - y)] is [fabsf(y - x)]. *)
Lemma abs_sub_sym (x y : float) :
  F32.abs (F32.sub x y) = F32.abs (F32.sub y x).
Proof.
  unfold F32.abs, F32.sub, SFsub.
  destruct x as [sx|sx| |sx mx ex], y as [sy|sy| |sy my ey];
    try reflexivity; try (destruct sx, sy; reflexivity).
  rewrite (Z.min_comm ey ex).
  set (a := cond_Zopp sx (Zpos (fst (shl_align mx ex (Z.min ex ey))))).
  set (b := cond_Zopp sy (Zpos (fst (shl_align my ey (Z.min ex ey))))).
  replace (b - a) with (- (a - b)) by lia.
  destruct (a - b) as [|p|p]; cbn [Z.opp binary_normalize]; try reflexivity.
  - symmetry. apply abs_binary_round.
  - apply abs_binary_round.
Qed.

Lemma attention_value_sym (as_ : AtomSpace) (w : float) (i j : Z) :
  attention_value as_ w i j = attention_value as_ w j i.
Proof.
  unfold attention_value. rewrite (Z.eqb_sym j i).
  destruct (Z.eqb_spec i j) as [E|E]; [reflexivity|].
  rewrite (andb_comm (j <? count as_)).
  destruct (entity as_ i) as [ci|], (entity as_ j) as [cj|]; try reflexivity.
  rewrite (abs_sub_sym ci cj). reflexivity.
Qed.

(** The cells that [create_attention_tensor] writes. *)
Lemma attention_tensor_run (as_ : AtomSpace) (w : float) :
  atomspace_wf as_ ->
  count as_ * count as_ <= INT_MAX ->
  let n := if count as_ =? 0 then 64 else count as_ in
  exists d,
    create_attention_tensor as_ w = Ret (Some (matrix n n d))
    /\ Z.of_nat (length d) = n * n
    /\ forall i j, 0 <= i < n -> 0 <= j < n ->
         d !! Z.to_nat (i * n + j) = Some (attention_value as_ w i j).
Proof.
  intros (Hcount & Hcap & Hlive) Hsq n.
  assert (Hn : 0 < n /\ n * n <= INT_MAX).
  { unfold n. destruct (Z.eqb_spec (count as_) 0); unfold INT_MAX in *; lia. }
  assert (Hn' : n <= INT_MAX) by (apply square_bound; lia).
  unfold create_attention_tensor. fold n.
  rewrite to_int_small by lia. rewrite ggml_new_tensor_2d_small by nia.
  cbn [buffer data].
  destruct (for_cells_store (attention_value as_ w) n n n
              (fun i j data =>
                 if i =? j then store data (i * n + j) w
                 else if (i <? count as_) && (j <? count as_) then
                   atom_i <- load (atoms as_) i ;;
                   atom_j <- load (atoms as_) j ;;
                   v <- cross_attention atom_i atom_j w ;;
                   store data (i * n + j) v
                 else store data (i * n + j) F32.zero)
              (replicate (Z.to_nat (n * n)) F32.zero))
    as (d & Hrun & Hlen & Hcells & _);
    [lia|lia|lia|rewrite length_replicate; lia| |].
  - intros i j r' Hi Hj _.
    destruct (Z.eqb_spec i j) as [E|E].
    { unfold attention_value. rewrite (proj2 (Z.eqb_eq i j) E). reflexivity. }
    assert (Hout : (i <? count as_) && (j <? count as_) = false ->
                   attention_value as_ w i j = F32.zero).
    { intros Hc. unfold attention_value. rewrite Hc.
      destruct (Z.eqb_spec i j) as [|_]; [contradiction|].
      unfold entity.
      destruct (Z.ltb_spec i (count as_)), (Z.ltb_spec j (count as_));
        try discriminate; rewrite ?andb_false_r; try reflexivity.
      destruct (_ && true); [|reflexivity].
      destruct (atoms as_ !! Z.to_nat i) as [[|a|]|]; try reflexivity.
      destruct (truth_value a); reflexivity. }
    destruct ((i <? count as_) && (j <? count as_)) eqn:Hin.
    + apply andb_true_iff in Hin as [Hic Hjc].
      apply Z.ltb_lt in Hic, Hjc.
      destruct (lookup_lt_is_Some_2 (atoms as_) (Z.to_nat i)) as [pi Hpi]; [lia|].
      destruct (lookup_lt_is_Some_2 (atoms as_) (Z.to_nat j)) as [pj Hpj]; [lia|].
      rewrite (load_lookup (atoms as_) i pi) by (lia || exact Hpi). cbn [bind].
      rewrite (load_lookup (atoms as_) j pj) by (lia || exact Hpj). cbn [bind].
      rewrite (cross_attention_value as_ w i j pi pj); [reflexivity|lia|lia|exact E|
        exact Hpi|exact Hpj| |].
      * intros ->. exact (Hlive i ltac:(lia) Hpi).
      * intros ->. exact (Hlive j ltac:(lia) Hpj).
    + rewrite Hout by reflexivity. reflexivity.
  - exists d. rewrite Hrun. cbn [bind].
    split; [reflexivity|]. split; [|exact Hcells].
    rewrite Hlen, length_replicate. lia.
Qed.

(** X23. The attention tensor of a store is symmetric: the cells
    [(i, j)] and [(j, i)] hold the same float, for every store and every
    weight. *)
Theorem attention_tensor_symmetric (as_ : AtomSpace) (w : float) :
  atomspace_wf as_ ->
  count as_ * count as_ <= INT_MAX ->
  let n := if count as_ =? 0 then 64 else count as_ in
  exists t,
    create_attention_tensor as_ w = Ret (Some t)
    /\ ne0 t = n /\ ne1 t = n
    /\ forall i j, 0 <= i < n -> 0 <= j < n ->
         tensor_cell t i j = Some (attention_value as_ w i j)
         /\ tensor_cell t j i = tensor_cell t i j.
Proof.
  intros Hwf Hsq n.
  destruct (attention_tensor_run as_ w Hwf Hsq) as (d & Hrun & Hlen & Hcells).
  fold n in Hrun, Hlen, Hcells.
  exists (matrix n n d). split; [exact Hrun|]. split; [reflexivity|].
  split; [reflexivity|].
  assert (Hcell : forall i j, 0 <= i < n -> 0 <= j < n ->
            tensor_cell (matrix n n d) i j = Some (attention_value as_ w i j)).
  { intros i j Hi Hj.
    rewrite (tensor_cell_inside _ d) by (cbn [matrix data ne0 ne1]; (reflexivity || lia)).
    cbn [matrix ne1]. unfold cell, at_. rewrite Hcells by assumption. reflexivity. }
  intros i j Hi Hj. rewrite !Hcell by assumption. split; [reflexivity|].
  f_equal. apply attention_value_sym.
Qed.

Lemma attention_tensor_symmetric_witness :
  exists t,
    create_attention_tensor store2 f0_8 = Ret (Some t)
    /\ ne0 t = 2 /\ ne1 t = 2
    /\ tensor_cell t 0 1 = Some (attention_value store2 f0_8 0 1)
    /\ tensor_cell t 1 0 = tensor_cell t 0 1
    /\ tensor_cell t 0 1 <> tensor_cell t 0 0.
Proof.
  destruct (attention_tensor_symmetric store2 f0_8) as (t & Hrun & H0 & H1 & Hsym).
  - unfold atomspace_wf, store2. cbn [atoms count capacity].
    split; [lia|]. split; [reflexivity|].
    intros p Hp.
    assert (Hp' : p = 0 \/ p = 1) by lia.
    destruct Hp' as [-> | ->]; discriminate.
  - vm_compute. discriminate.
  - exists t. split; [exact Hrun|]. split; [exact H0|]. split; [exact H1|].
    cbn [store2 count Z.eqb] in Hsym.
    destruct (Hsym 0 1 ltac:(lia) ltac:(lia)) as [H01 H10].
    destruct (Hsym 0 0 ltac:(lia) ltac:(lia)) as [H00 _].
    split; [exact H01|]. split; [exact H10|].
    rewrite H01, H00. vm_compute. discriminate.
Defined.

(** ** The meta transform at every level *)

Section Libm_properties.
Variable sinf : float -> float.

(** X24. At every level, an [int], [meta_cognitive_transform] returns a
    tensor with the first two extents of its input whose element [i] is
    exactly [input[i] * (1.0f + level * 0.2f) * (1.0f + 0.1f * sinf(i *
    level * 0.01f))] in single precision, where [i * level] is the product
    of two [int]s, which wraps around before it is converted to [float];
    a null input is dereferenced. *)
Theorem meta_transform_values (input : ggml_tensor) (level : Z) :
  tensor_wf input ->
  - INT_MAX - 1 <= level <= INT_MAX ->
  (exists d,
     meta_cognitive_transform sinf (Some input) level
     = Ret (Some (matrix (ne0 input) (ne1 input) d))
     /\ Z.of_nat (length d) = ne0 input * ne1 input
     /\ forall i, 0 <= i < ne0 input * ne1 input ->
          d !! Z.to_nat i
          = Some (meta_value sinf level (at_ F32.zero (buffer input) i) i))
  /\ meta_cognitive_transform sinf None level = Fault.
Proof.
  intros (Hne0 & Hne1 & Hprod & d & Hd & Hlen) Hlevel. split; [|reflexivity].
  assert (Hbuf : buffer input = d) by (unfold buffer; rewrite Hd; reflexivity).
  assert (Hsize : 0 <= ne0 input * ne1 input) by lia.
  unfold meta_cognitive_transform.
  rewrite ggml_new_tensor_2d_small by lia. rewrite to_int_small by lia.
  cbv zeta. rewrite Hbuf. cbn [buffer data].
  rewrite (for_range_store
             (fun i => meta_value sinf level (at_ F32.zero d i) i)
             0 (ne0 input * ne1 input));
    [|lia|rewrite length_replicate; lia|
     intros i r' Hi Hr'; rewrite (load_at F32.zero d) by lia; reflexivity].
  cbn [bind]. rewrite take_0, Z.sub_0_r, drop_ge by (rewrite length_replicate; lia).
  cbn [app]. rewrite app_nil_r.
  eexists. split; [reflexivity|]. split.
  - rewrite length_fmap, length_seqZ. lia.
  - intros i Hi. rewrite list_lookup_fmap, lookup_seqZ_lt by lia.
    replace (0 + Z.of_nat (Z.to_nat i)) with i by lia. reflexivity.
Qed.
End Libm_properties.

Lemma meta_transform_values_witness :
  exists d,
    meta_cognitive_transform (fun x => x) (Some row2) 3
    = Ret (Some (matrix 1 2 d))
    /\ Z.of_nat (length d) = 2
    /\ d !! 1%nat = Some (meta_value (fun x => x) 3 f0_9 1).
Proof.
  destruct (proj1 (meta_transform_values (fun x => x) row2 3
                     ltac:(sample_tensor_wf)
                     ltac:(unfold INT_MAX; lia))) as (d & Hrun & Hlen & Hd).
  exists d. split; [exact Hrun|]. split; [exact Hlen|].
  exact (Hd 1 ltac:(cbn; lia)).
Defined.
